(** * Persistent Google Search Filters

    A shallow embedding of the filter-state and address-synchronisation
    engine of [google-search-filters.user.js], and the properties of it that
    the specification states.

    Conventions of the embedding.
    - A JavaScript string is the list of its UTF-16 code units.
    - A plain object used as a table ([filters.site], ...) is an association
      list in property-enumeration order; reading a property also sees the
      properties every object literal inherits from [Object.prototype].
    - The mutable script state ([filters.site], [persistenceSettings],
      [currentFilters]), [localStorage] and [window.location] are the fields
      of one record [World], threaded through every operation.  What an
      operation does to the outside (toasts, timers, storage writes) is
      appended to the [effects] trace of the world, newest first.
    - Panel and button rendering (DOM updates) is outside the engine and is
      not modelled; it is taken not to fail.  What the user answers to a
      prompt or a confirmation is an argument of the operation that asks. *)

From Stdlib Require Import ZArith QArith Ascii String List Bool Lia.
From stdpp Require Import gmap strings list pretty.

Set Default Proof Using "Type".

(** ** Strings *)

Abbreviation jschar := N.
Abbreviation jsstring := (list N).

(** The code units of an ASCII literal. *)
Definition js (s : string) : jsstring :=
  map N_of_ascii (list_ascii_of_string s).

Module Str.

(** ECMAScript [WhiteSpace] and [LineTerminator] code points: what
    [String.prototype.trim] strips and what [\s] matches. *)
Definition isLineTerminator (c : jschar) : bool :=
  ((c =? 10) || (c =? 13) || (c =? 8232) || (c =? 8233))%N.

Definition isWhiteSpace (c : jschar) : bool :=
  ((c =? 9) || (c =? 11) || (c =? 12) || (c =? 32) || (c =? 160)
   || (c =? 5760) || ((8192 <=? c) && (c <=? 8202)) || (c =? 8239)
   || (c =? 8287) || (c =? 12288) || (c =? 65279))%N
  || isLineTerminator c.

Definition isDigit (c : jschar) : bool := ((48 <=? c) && (c <=? 57))%N.
Definition isLower (c : jschar) : bool := ((97 <=? c) && (c <=? 122))%N.
Definition isUpper (c : jschar) : bool := ((65 <=? c) && (c <=? 90))%N.
Definition isLetter (c : jschar) : bool := isLower c || isUpper c.
Definition isAlnum (c : jschar) : bool := isLetter c || isDigit c.

Fixpoint trimStart (s : jsstring) : jsstring :=
  match s with
  | c :: s' => if isWhiteSpace c then trimStart s' else s
  | [] => []
  end.

Definition trimEnd (s : jsstring) : jsstring := rev (trimStart (rev s)).

(** [s.trim()] *)
Definition trim (s : jsstring) : jsstring := trimStart (trimEnd s).

(** [s.startsWith(p)] *)
Fixpoint startsWith (s p : jsstring) : bool :=
  match p, s with
  | [], _ => true
  | a :: p', b :: s' => (a =? b)%N && startsWith s' p'
  | _ :: _, [] => false
  end.

(** [s.includes(t)] *)
Fixpoint includes (s t : jsstring) : bool :=
  startsWith s t ||
  match s with
  | _ :: s' => includes s' t
  | [] => false
  end.

(** [s.replace(pat, '')] for a string pattern: the first occurrence of
    [pat] is removed. *)
Fixpoint removeFirst (s pat : jsstring) : jsstring :=
  if startsWith s pat then drop (length pat) s
  else match s with
       | c :: s' => c :: removeFirst s' pat
       | [] => []
       end.

(** [s.split(sep)] for a one-character separator. *)
Fixpoint split (sep : jschar) (s : jsstring) : list jsstring :=
  match s with
  | [] => [[]]
  | c :: s' =>
      if (c =? sep)%N then [] :: split sep s'
      else match split sep s' with
           | p :: ps => (c :: p) :: ps
           | [] => [[c]]
           end
  end.

Definition isHighSurrogate (c : jschar) : bool :=
  ((55296 <=? c) && (c <=? 56319))%N.
Definition isLowSurrogate (c : jschar) : bool :=
  ((56320 <=? c) && (c <=? 57343))%N.

Definition isSurrogate (c : jschar) : bool :=
  isHighSurrogate c || isLowSurrogate c.

(** The conversion of a string to a [USVString], which the URL interfaces
    apply to their arguments: a surrogate that is not part of a pair
    becomes U+FFFD. *)
Fixpoint toUSVString (s : jsstring) : jsstring :=
  match s with
  | [] => []
  | c :: s' =>
      if isHighSurrogate c then
        match s' with
        | d :: s'' =>
            if isLowSurrogate d then c :: d :: toUSVString s''
            else 65533%N :: toUSVString s'
        | [] => [65533%N]
        end
      else if isLowSurrogate c then 65533%N :: toUSVString s'
      else c :: toUSVString s'
  end.

(** [c.toUpperCase()] for a code unit of the ASCII range. *)
Definition toUpperCaseAscii (c : jschar) : jschar :=
  if isLower c then (c - 32)%N else c.

(** [Number(s)] for a string of decimal digits. *)
Definition digitValue (c : jschar) : Z := Z.of_N c - 48.

Definition Number (s : jsstring) : Z :=
  fold_left (fun acc c => 10 * acc + digitValue c)%Z s 0%Z.

(** [`${n}`] for an integer. *)
Definition ofZ (n : Z) : jsstring := js (pretty n).

End Str.

(** ** Helpers of the script *)

(** [isValidNonEmptyString(value)], for a value that is a string. *)
Definition isValidNonEmptyString (value : jsstring) : bool :=
  negb (bool_decide (Str.trim value = [])).

(** [url.replace(/^https?:\/\//, '')] *)
Definition stripScheme (url : jsstring) : jsstring :=
  if Str.startsWith url (js "https://") then drop 8 url
  else if Str.startsWith url (js "http://") then drop 7 url
  else url.

(** [s.replace(/\/.*$/, '')]: the match starts at the first slash after
    which no line terminator occurs ([.] does not match one, and [$] without
    the [m] flag is the end of the input). *)
Fixpoint stripPath (s : jsstring) : jsstring :=
  match s with
  | [] => []
  | c :: s' =>
      if (c =? 47)%N && forallb (fun x => negb (Str.isLineTerminator x)) s'
      then []
      else c :: stripPath s'
  end.

Definition cleanURLDomain (url : jsstring) : jsstring :=
  if isValidNonEmptyString url then Str.trim (stripPath (stripScheme url))
  else [].

(** [CONFIG.URL_VALIDATION_REGEX.test(s)] for
    [/^[a-zA-Z0-9.-]+\.[a-zA-Z]{2,}$/]: some split of [s] into a non-empty
    run of host characters, a dot, and at least two letters. *)
Definition isHostChar (c : jschar) : bool :=
  Str.isAlnum c || (c =? 46)%N || (c =? 45)%N.

Definition URL_VALIDATION_REGEX_test (s : jsstring) : bool :=
  existsb
    (fun i =>
       let host := take i s in
       match drop i s with
       | dot :: tld =>
           negb (bool_decide (host = [])) && forallb isHostChar host
           && (dot =? 46)%N
           && (2 <=? length tld)%nat && forallb Str.isLetter tld
       | [] => false
       end)
    (seq 0 (length s)).

Definition isValidURL (url : jsstring) : bool :=
  if isValidNonEmptyString url then
    let cleanUrl := cleanURLDomain url in
    negb (bool_decide (cleanUrl = [])) && URL_VALIDATION_REGEX_test cleanUrl
  else false.

(** [sanitizeHTML(str)]: the text is assigned to [textContent] of a fresh
    element and read back through [innerHTML].  The HTML fragment
    serialisation of a text node replaces [&], [<], [>] and U+00A0 by their
    character references and keeps every other code unit. *)
Definition escapeChar (c : jschar) : jsstring :=
  if (c =? 38)%N then js "&amp;"
  else if (c =? 60)%N then js "&lt;"
  else if (c =? 62)%N then js "&gt;"
  else if (c =? 160)%N then js "&nbsp;"
  else [c].

Definition sanitizeHTML (str : jsstring) : jsstring :=
  if isValidNonEmptyString str then flat_map escapeChar str else [].

(** ** Objects used as tables *)

(** The outcome of reading [o[k]] on an object literal [o]. *)
Inductive Property (A : Type) : Type :=
  | Own (a : A)                  (* an entry of the table *)
  | Inherited (p : jsstring)     (* a member of [Object.prototype] *)
  | Missing.                     (* [undefined] *)
Arguments Own {A} a.
Arguments Inherited {A} p.
Arguments Missing {A}.

Definition objectPrototypeNames : list jsstring :=
  map js [ "constructor"; "hasOwnProperty"; "isPrototypeOf";
           "propertyIsEnumerable"; "toLocaleString"; "toString"; "valueOf";
           "__defineGetter__"; "__defineSetter__"; "__lookupGetter__";
           "__lookupSetter__"; "__proto__" ].

Fixpoint ownProperty {A} (o : list (jsstring * A)) (k : jsstring) : option A :=
  match o with
  | [] => None
  | (k', a) :: o' => if decide (k' = k) then Some a else ownProperty o' k
  end.

Definition getProperty {A} (o : list (jsstring * A)) (k : jsstring)
  : Property A :=
  match ownProperty o k with
  | Some a => Own a
  | None => if decide (k ∈ objectPrototypeNames) then Inherited k else Missing
  end.

(** Truthiness of [o[k]]: entries are objects, inherited members are
    functions or [Object.prototype] itself. *)
Definition truthy {A} (p : Property A) : bool :=
  match p with Missing => false | _ => true end.

(** [x.name] for an inherited member [x]: the name of the function, or
    [None] ([undefined]) for [Object.prototype] reached through
    [__proto__]. *)
Definition inheritedName (p : jsstring) : option jsstring :=
  if decide (p = js "constructor") then Some (js "Object")
  else if decide (p = js "__proto__") then None
  else Some p.

(** [o[k] = a]: an existing key keeps its place, a new one goes last. *)
Fixpoint setProperty {A} (o : list (jsstring * A)) (k : jsstring) (a : A)
  : list (jsstring * A) :=
  match o with
  | [] => [(k, a)]
  | (k', a') :: o' =>
      if decide (k' = k) then (k, a) :: o' else (k', a') :: setProperty o' k a
  end.

(** [delete o[k]] *)
Definition deleteProperty {A} (o : list (jsstring * A)) (k : jsstring)
  : list (jsstring * A) :=
  List.filter (fun e => negb (bool_decide (e.1 = k))) o.

(** [Object.entries(o).find(([, data]) => f data)] *)
Fixpoint findEntry {A} (f : A -> bool) (o : list (jsstring * A))
  : option (jsstring * A) :=
  match o with
  | [] => None
  | (k, a) :: o' => if f a then Some (k, a) else findEntry f o'
  end.

(** ** Configuration and filter catalog *)

Module CONFIG.
Definition MAX_CUSTOM_SITES : nat := 50.
Definition MAX_SITE_NAME_LENGTH : nat := 20.
End CONFIG.

Definition DEFAULT_SITES : list jsstring :=
  map js ["reddit"; "github"; "eksisozluk"; "donanimhaber"].

(** The five filter types, in the property order of [currentFilters]. *)
Inductive FilterType : Type :=
  | SearchLang | InterfaceLang | Region | Site | Time.

#[global] Instance FilterType_eq_dec : EqDecision FilterType.
Proof. solve_decision. Defined.

(** The property name of a filter type. *)
Definition filterTypeName (t : FilterType) : jsstring :=
  match t with
  | SearchLang => js "searchLang"
  | InterfaceLang => js "interfaceLang"
  | Region => js "region"
  | Site => js "site"
  | Time => js "time"
  end.

(** Entries of the catalog.  The display-only members [icon] and
    [description] of the language and region entries are never read by the
    engine and are left out. *)
Record SearchLangDef := { sl_name : jsstring; sl_short : jsstring }.

Record InterfaceLangDef :=
  { il_name : jsstring; il_short : jsstring; googleLang : option jsstring }.

Record RegionDef :=
  { rg_name : jsstring; rg_short : jsstring; googleRegion : option jsstring }.

Record TimeDef := { tm_name : jsstring; tm_short : jsstring; param : jsstring }.

Record SiteDef :=
  { st_name : jsstring; st_short : jsstring; query : jsstring;
    domain : jsstring; icon : jsstring }.

Module filters.

Definition searchLang : list (jsstring * SearchLangDef) :=
  [ (js "all", {| sl_name := js "All Languages"; sl_short := js "ALL" |});
    (js "tr", {| sl_name := js "Turkish Only"; sl_short := js "TR" |});
    (js "en", {| sl_name := js "English Only"; sl_short := js "EN" |}) ].

Definition interfaceLang : list (jsstring * InterfaceLangDef) :=
  [ (js "auto", {| il_name := js "Auto Detect"; il_short := js "AUTO";
                   googleLang := None |});
    (js "tr", {| il_name := js "Turkish UI"; il_short := js "TR";
                 googleLang := Some (js "tr") |});
    (js "en", {| il_name := js "English UI"; il_short := js "EN";
                 googleLang := Some (js "en") |}) ].

Definition region : list (jsstring * RegionDef) :=
  [ (js "auto", {| rg_name := js "Auto Detect"; rg_short := js "AUTO";
                   googleRegion := None |});
    (js "tr", {| rg_name := js "Turkey"; rg_short := js "TR";
                 googleRegion := Some (js "TR") |});
    (js "us", {| rg_name := js "United States"; rg_short := js "US";
                 googleRegion := Some (js "US") |}) ].

Definition time : list (jsstring * TimeDef) :=
  [ (js "all", {| tm_name := js "All Time"; tm_short := js "ALL";
                  param := [] |});
    (js "day", {| tm_name := js "Today"; tm_short := js "TODAY";
                  param := js "d" |});
    (js "week", {| tm_name := js "This Week"; tm_short := js "WEEK";
                   param := js "w" |});
    (js "month", {| tm_name := js "This Month"; tm_short := js "MONTH";
                    param := js "m" |});
    (js "year", {| tm_name := js "This Year"; tm_short := js "YEAR";
                   param := js "y" |});
    (js "2year", {| tm_name := js "Last 2 Years"; tm_short := js "2 YEARS";
                    param := js "custom:2y" |}) ].

(** The built-in entries of [filters.site]; custom sites are added to and
    removed from the copy held in the world. *)
Definition site : list (jsstring * SiteDef) :=
  [ (js "reddit",
      {| st_name := js "Reddit"; st_short := js "REDDIT";
         query := js "site:reddit.com"; domain := js "reddit.com";
         icon := js "https://reddit.com/favicon.ico" |});
    (js "github",
      {| st_name := js "GitHub"; st_short := js "GITHUB";
         query := js "site:github.com"; domain := js "github.com";
         icon := js "https://github.com/favicon.ico" |});
    (js "eksisozluk",
      {| st_name := js "Ek" ++ [351%N] ++ js "i S" ++ [246%N] ++ js "zl"
                    ++ [252%N] ++ js "k";
         st_short := js "EK" ++ [350%N; 304%N];
         query := js "site:eksisozluk.com"; domain := js "eksisozluk.com";
         icon := js "https://eksisozluk.com/favicon.ico" |});
    (js "donanimhaber",
      {| st_name := js "DONANIMHABER"; st_short := js "DH";
         query := js "site:forum.donanimhaber.com";
         domain := js "forum.donanimhaber.com";
         icon := js "https://donanimhaber.com/favicon.ico" |}) ].

End filters.

(** The neutral value of a filter type, as every reset in the script
    computes it. *)
Definition defaultValue (t : FilterType) : jsstring :=
  match t with
  | InterfaceLang | Region => js "auto"
  | _ => js "all"
  end.

(** ** Script state *)

Record CurrentFilters := {
  searchLang : jsstring;
  interfaceLang : jsstring;
  region : jsstring;
  site : jsstring;
  time : jsstring
}.

Record PersistenceSettings := {
  persistSearchLang : bool;
  persistInterfaceLang : bool;
  persistRegion : bool;
  persistSite : bool;
  persistTime : bool
}.

(** [currentFilters[t]] and [currentFilters[t] = v] *)
Definition getFilter (cf : CurrentFilters) (t : FilterType) : jsstring :=
  match t with
  | SearchLang => searchLang cf
  | InterfaceLang => interfaceLang cf
  | Region => region cf
  | Site => site cf
  | Time => time cf
  end.

Definition setFilter (cf : CurrentFilters) (t : FilterType) (v : jsstring)
  : CurrentFilters :=
  match t with
  | SearchLang =>
      {| searchLang := v; interfaceLang := interfaceLang cf;
         region := region cf; site := site cf; time := time cf |}
  | InterfaceLang =>
      {| searchLang := searchLang cf; interfaceLang := v;
         region := region cf; site := site cf; time := time cf |}
  | Region =>
      {| searchLang := searchLang cf; interfaceLang := interfaceLang cf;
         region := v; site := site cf; time := time cf |}
  | Site =>
      {| searchLang := searchLang cf; interfaceLang := interfaceLang cf;
         region := region cf; site := v; time := time cf |}
  | Time =>
      {| searchLang := searchLang cf; interfaceLang := interfaceLang cf;
         region := region cf; site := site cf; time := v |}
  end.

(** [persistenceSettings[t]] and [persistenceSettings[t] = b] *)
Definition getPersist (ps : PersistenceSettings) (t : FilterType) : bool :=
  match t with
  | SearchLang => persistSearchLang ps
  | InterfaceLang => persistInterfaceLang ps
  | Region => persistRegion ps
  | Site => persistSite ps
  | Time => persistTime ps
  end.

Definition setPersist (ps : PersistenceSettings) (t : FilterType) (b : bool)
  : PersistenceSettings :=
  match t with
  | SearchLang =>
      {| persistSearchLang := b;
         persistInterfaceLang := persistInterfaceLang ps;
         persistRegion := persistRegion ps; persistSite := persistSite ps;
         persistTime := persistTime ps |}
  | InterfaceLang =>
      {| persistSearchLang := persistSearchLang ps;
         persistInterfaceLang := b;
         persistRegion := persistRegion ps; persistSite := persistSite ps;
         persistTime := persistTime ps |}
  | Region =>
      {| persistSearchLang := persistSearchLang ps;
         persistInterfaceLang := persistInterfaceLang ps;
         persistRegion := b; persistSite := persistSite ps;
         persistTime := persistTime ps |}
  | Site =>
      {| persistSearchLang := persistSearchLang ps;
         persistInterfaceLang := persistInterfaceLang ps;
         persistRegion := persistRegion ps; persistSite := b;
         persistTime := persistTime ps |}
  | Time =>
      {| persistSearchLang := persistSearchLang ps;
         persistInterfaceLang := persistInterfaceLang ps;
         persistRegion := persistRegion ps; persistSite := persistSite ps;
         persistTime := b |}
  end.

(** ** Addresses *)

(** What the script reads of a [URL] object: the path and the ordered
    name/value pairs of [searchParams]; [origin] and [hash] stand for the
    parts it never touches. *)
Record URL := {
  origin : jsstring;
  pathname : jsstring;
  searchParams : list (jsstring * jsstring);
  hash : jsstring
}.

(** [window.location]: the address as [new URL(window.location.href)]
    decodes it, and the raw query string [window.location.search]. *)
Record Location := { href : URL; search : jsstring }.

Module URLSearchParams.

(** [params.get(name)]; [None] is [null]. *)
Fixpoint get (ps : list (jsstring * jsstring)) (name : jsstring)
  : option jsstring :=
  match ps with
  | [] => None
  | (n, v) :: ps' => if decide (n = name) then Some v else get ps' name
  end.

(** [params.delete(name)] removes every pair of that name. *)
Definition delete (ps : list (jsstring * jsstring)) (name : jsstring)
  : list (jsstring * jsstring) :=
  List.filter (fun p => negb (bool_decide (p.1 = name))) ps.

(** The list update of [set]: the first pair of that name is overwritten
    and the others are removed, or a pair is appended when there is none. *)
Fixpoint setPair (ps : list (jsstring * jsstring)) (name value : jsstring)
  : list (jsstring * jsstring) :=
  match ps with
  | [] => [(name, value)]
  | (n, v) :: ps' =>
      if decide (n = name) then (name, value) :: delete ps' name
      else (n, v) :: setPair ps' name value
  end.

(** [params.set(name, value)]: the value is stored as a [USVString].  The
    names the script passes are ASCII literals, which the conversion
    leaves as they are. *)
Definition set (ps : list (jsstring * jsstring)) (name value : jsstring)
  : list (jsstring * jsstring) :=
  setPair ps name (Str.toUSVString value).

(** [params.get(name) || ''] *)
Definition getOrEmpty (ps : list (jsstring * jsstring)) (name : jsstring)
  : jsstring :=
  default [] (get ps name).

End URLSearchParams.

Definition withParams (u : URL) (ps : list (jsstring * jsstring)) : URL :=
  {| origin := origin u; pathname := pathname u; searchParams := ps;
     hash := hash u |}.

(** ** The world *)

Inductive Task : Type :=
  | NavigateTo (target : URL)     (* [window.location.href = ...] *)
  | RunApplyFilters.              (* [applyFilters()] *)

Inductive Effect : Type :=
  | Toast (message kind : jsstring)          (* call of [showToast] *)
  | SetItem (key value : jsstring)           (* [localStorage.setItem] *)
  | RemoveItem (key : jsstring)              (* [localStorage.removeItem] *)
  | SetTimeout (delay : Z) (task : Task)     (* [setTimeout(task, delay)] *)
  | ConsoleWarn (operation : jsstring)       (* [console.warn] in an operation *)
  | Uncaught (operation : jsstring).         (* [TypeError] leaving an operation *)

Record World := {
  filtersSite : list (jsstring * SiteDef);   (* [filters.site] *)
  persistenceSettings : PersistenceSettings;
  currentFilters : CurrentFilters;
  localStorage : gmap jsstring jsstring;
  location : Location;
  effects : list Effect
}.

Definition withCurrentFilters (w : World) (cf : CurrentFilters) : World :=
  {| filtersSite := filtersSite w;
     persistenceSettings := persistenceSettings w;
     currentFilters := cf; localStorage := localStorage w;
     location := location w; effects := effects w |}.

Definition withPersistenceSettings (w : World) (ps : PersistenceSettings)
  : World :=
  {| filtersSite := filtersSite w; persistenceSettings := ps;
     currentFilters := currentFilters w; localStorage := localStorage w;
     location := location w; effects := effects w |}.

Definition withFiltersSite (w : World) (s : list (jsstring * SiteDef))
  : World :=
  {| filtersSite := s; persistenceSettings := persistenceSettings w;
     currentFilters := currentFilters w; localStorage := localStorage w;
     location := location w; effects := effects w |}.

Definition emit (w : World) (e : Effect) : World :=
  {| filtersSite := filtersSite w;
     persistenceSettings := persistenceSettings w;
     currentFilters := currentFilters w; localStorage := localStorage w;
     location := location w; effects := e :: effects w |}.

(** [localStorage.setItem(key, value)] and [localStorage.removeItem(key)];
    the store is taken to accept every write. *)
Definition setItem (w : World) (key value : jsstring) : World :=
  {| filtersSite := filtersSite w;
     persistenceSettings := persistenceSettings w;
     currentFilters := currentFilters w;
     localStorage := <[key := value]> (localStorage w);
     location := location w;
     effects := SetItem key value :: effects w |}.

Definition removeItem (w : World) (key : jsstring) : World :=
  {| filtersSite := filtersSite w;
     persistenceSettings := persistenceSettings w;
     currentFilters := currentFilters w;
     localStorage := base.delete key (localStorage w);
     location := location w;
     effects := RemoveItem key :: effects w |}.

(** [showToast(message, kind)]: the call is recorded; whether the toast is
    drawn or dropped as a duplicate is decided by the presentation layer. *)
Definition showToast (w : World) (message kind : jsstring) : World :=
  emit w (Toast message kind).

(** [`googleSearch${filterType.charAt(0).toUpperCase() + filterType.slice(1)}`] *)
Definition capitalize (s : jsstring) : jsstring :=
  match s with
  | c :: s' => Str.toUpperCaseAscii c :: s'
  | [] => []
  end.

Definition getStorageKey (filterType : FilterType) : jsstring :=
  js "googleSearch" ++ capitalize (filterTypeName filterType).

Definition getPersistStorageKey (filterType : FilterType) : jsstring :=
  js "googleSearchPersist" ++ capitalize (filterTypeName filterType).

(** [isSearchPage()] *)
Definition isSearchPage (w : World) : bool :=
  bool_decide (pathname (href (location w)) = js "/search")
  && Str.includes (search (location w)) (js "q=").

(** ** Start-up: persistence flags and initial selection *)

(** [x || d] for a value read from the store: [null] and the empty string
    are falsy. *)
Definition orDefault (x : option jsstring) (d : jsstring) : jsstring :=
  match x with
  | Some (c :: s) => c :: s
  | _ => d
  end.

(** The initialiser of [persistenceSettings]. *)
Definition loadPersistenceSettings (ls : gmap jsstring jsstring)
  : PersistenceSettings :=
  {| persistSearchLang :=
       negb (bool_decide (ls !! js "googleSearchPersistSearchLang"
                          = Some (js "false")));
     persistInterfaceLang :=
       negb (bool_decide (ls !! js "googleSearchPersistInterfaceLang"
                          = Some (js "false")));
     persistRegion :=
       bool_decide (ls !! js "googleSearchPersistRegion" = Some (js "true"));
     persistTime :=
       bool_decide (ls !! js "googleSearchPersistTime" = Some (js "true"));
     persistSite :=
       bool_decide (ls !! js "googleSearchPersistSite" = Some (js "true")) |}.

(** The initialiser of [currentFilters]. *)
Definition loadCurrentFilters (ps : PersistenceSettings)
    (ls : gmap jsstring jsstring) : CurrentFilters :=
  {| searchLang :=
       if persistSearchLang ps
       then orDefault (ls !! js "googleSearchSearchLang") (js "all")
       else js "all";
     interfaceLang :=
       if persistInterfaceLang ps
       then orDefault (ls !! js "googleSearchInterfaceLang") (js "auto")
       else js "auto";
     region :=
       if persistRegion ps
       then orDefault (ls !! js "googleSearchRegion") (js "auto")
       else js "auto";
     site :=
       if persistSite ps
       then orDefault (ls !! js "googleSearchSite") (js "all")
       else js "all";
     time :=
       if persistTime ps
       then orDefault (ls !! js "googleSearchTime") (js "all")
       else js "all" |}.

(** The script state right after the top-level initialisers have run. *)
Definition loadInitial (sites : list (jsstring * SiteDef))
    (ls : gmap jsstring jsstring) (loc : Location) : World :=
  let ps := loadPersistenceSettings ls in
  {| filtersSite := sites; persistenceSettings := ps;
     currentFilters := loadCurrentFilters ps ls; localStorage := ls;
     location := loc; effects := [] |}.

(** ** Names shown in messages *)

Definition getFilterName (filterType : FilterType) : jsstring :=
  match filterType with
  | SearchLang => js "Results Language"
  | InterfaceLang => js "Interface Language"
  | Region => js "Geographic Region"
  | Site => js "Site Filter"
  | Time => js "Time Filter"
  end.

Definition mapOwn {A B} (f : A -> B) (p : Property A) : Property B :=
  match p with
  | Own a => Own (f a)
  | Inherited k => Inherited k
  | Missing => Missing
  end.

(** [filters[filterType][value]], projected on [name]. *)
Definition entryName (w : World) (filterType : FilterType) (value : jsstring)
  : Property jsstring :=
  match filterType with
  | SearchLang => mapOwn sl_name (getProperty filters.searchLang value)
  | InterfaceLang => mapOwn il_name (getProperty filters.interfaceLang value)
  | Region => mapOwn rg_name (getProperty filters.region value)
  | Site => mapOwn st_name (getProperty (filtersSite w) value)
  | Time => mapOwn tm_name (getProperty filters.time value)
  end.

(** [`${x.name}`]: [None] when [x] is [undefined], where reading [name]
    throws a [TypeError]. *)
Definition nameText (p : Property jsstring) : option jsstring :=
  match p with
  | Own n => Some n
  | Inherited k => Some (default (js "undefined") (inheritedName k))
  | Missing => None
  end.

(** A string that is truthy: neither [null]/[undefined] nor empty. *)
Definition truthyString (x : option jsstring) : option jsstring :=
  match x with
  | Some (c :: s) => Some (c :: s)
  | _ => None
  end.

(** ** Interface language and region: isolated navigations *)

Definition applyInterfaceLanguage (w : World) (langCode : jsstring) : World :=
  if decide (langCode = []) then w
  else
    let currentUrl := href (location w) in
    match nameText (mapOwn il_name (getProperty filters.interfaceLang langCode)) with
    | None => emit w (ConsoleWarn (js "applyInterfaceLanguage"))
    | Some filterName =>
        let message := js "Switching to " ++ filterName ++ js "..." in
        if decide (langCode = js "auto") then
          let target :=
            withParams currentUrl
              (URLSearchParams.delete (searchParams currentUrl) (js "hl")) in
          emit (showToast w message (js "info"))
               (SetTimeout 800 (NavigateTo target))
        else
          match getProperty filters.interfaceLang langCode with
          | Own interfaceData =>
              match truthyString (googleLang interfaceData) with
              | Some lang =>
                  let target :=
                    withParams currentUrl
                      (URLSearchParams.set (searchParams currentUrl)
                         (js "hl") lang) in
                  emit (showToast w message (js "info"))
                       (SetTimeout 800 (NavigateTo target))
              | None => w
              end
          | _ => w
          end
    end.

Definition applyRegionChange (w : World) (regionCode : jsstring) : World :=
  if decide (regionCode = []) then w
  else
    let currentUrl := href (location w) in
    match nameText (mapOwn rg_name (getProperty filters.region regionCode)) with
    | None => emit w (ConsoleWarn (js "applyRegionChange"))
    | Some filterName =>
        let message := js "Switching to " ++ filterName ++ js "..." in
        if decide (regionCode = js "auto") then
          let target :=
            withParams currentUrl
              (URLSearchParams.delete (searchParams currentUrl) (js "gl")) in
          emit (showToast w message (js "info"))
               (SetTimeout 800 (NavigateTo target))
        else
          match getProperty filters.region regionCode with
          | Own regionData =>
              match truthyString (googleRegion regionData) with
              | Some reg =>
                  let target :=
                    withParams currentUrl
                      (URLSearchParams.set (searchParams currentUrl)
                         (js "gl") reg) in
                  emit (showToast w message (js "info"))
                       (SetTimeout 800 (NavigateTo target))
              | None => w
              end
          | _ => w
          end
    end.

(** ** Persistence toggle and selection *)

(** [b.toString()] *)
Definition boolText (b : bool) : jsstring :=
  if b then js "true" else js "false".

Definition togglePersistence (w : World) (filterType : FilterType) : World :=
  let enabled := negb (getPersist (persistenceSettings w) filterType) in
  let w1 :=
    withPersistenceSettings w
      (setPersist (persistenceSettings w) filterType enabled) in
  let w2 := setItem w1 (getPersistStorageKey filterType) (boolText enabled) in
  let w3 :=
    if negb enabled then
      removeItem
        (withCurrentFilters w2
           (setFilter (currentFilters w2) filterType (defaultValue filterType)))
        (getStorageKey filterType)
    else
      let currentValue := getFilter (currentFilters w2) filterType in
      setItem w2 (getStorageKey filterType) currentValue in
  let status := if enabled then js "enabled" else js "disabled" in
  showToast w3
    (getFilterName filterType ++ js " persistence " ++ status) (js "success").

(** The write shared by the three branches of [selectFilter]:
    [if (persistenceSettings[filterType]) localStorage.setItem(...)]. *)
Definition persistIfEnabled (w : World) (filterType : FilterType)
    (value : jsstring) : World :=
  if getPersist (persistenceSettings w) filterType
  then setItem w (getStorageKey filterType) value
  else w.

(** Reading [name] of an entry that does not exist throws after the state
    has been updated; nothing in [selectFilter] catches it. *)
Definition selectFilter (w : World) (filterType : FilterType)
    (value : jsstring) : World :=
  if decide (getFilter (currentFilters w) filterType = value) then w
  else
    let w1 :=
      withCurrentFilters w (setFilter (currentFilters w) filterType value) in
    match filterType with
    | InterfaceLang =>
        applyInterfaceLanguage (persistIfEnabled w1 filterType value) value
    | Region =>
        applyRegionChange (persistIfEnabled w1 filterType value) value
    | _ =>
        let w2 := persistIfEnabled w1 filterType value in
        let w3 :=
          if isSearchPage w2 then emit w2 (SetTimeout 200 RunApplyFilters)
          else w2 in
        match nameText (entryName w3 filterType value) with
        | Some filterName =>
            showToast w3 (filterName ++ js " selected") (js "success")
        | None => emit w3 (Uncaught (js "selectFilter"))
        end
    end.

(** ** Calendar dates

    A [Date] built from local calendar fields is represented by the number
    of its local day (day 0 is 1970-01-01); every date the engine builds is
    a local midnight.  The host time zone enters as [utcOffset], the offset
    from UTC (local time minus UTC, in milliseconds) in force at the
    midnight of each local day. *)

Module JsDate.

#[local] Open Scope Z_scope.

Definition msPerDay : Z := 86400000.

(** Day number of a proleptic Gregorian date, [m] in 1..12. *)
Definition daysFromCivil (y m d : Z) : Z :=
  let y' := if m <=? 2 then y - 1 else y in
  let era := y' / 400 in
  let yoe := y' - era * 400 in
  let mp := if 2 <? m then m - 3 else m + 9 in
  let doy := (153 * mp + 2) / 5 + d - 1 in
  let doe := yoe * 365 + yoe / 4 - yoe / 100 + doy in
  era * 146097 + doe - 719468.

(** The year, month index (0..11) and day of month of a day number. *)
Definition civilFromDays (z : Z) : Z * Z * Z :=
  let z' := z + 719468 in
  let era := z' / 146097 in
  let doe := z' - era * 146097 in
  let yoe := (doe - doe / 1460 + doe / 36524 - doe / 146096) / 365 in
  let doy := doe - (365 * yoe + yoe / 4 - yoe / 100) in
  let mp := (5 * doy + 2) / 153 in
  let d := doy - (153 * mp + 2) / 5 + 1 in
  let m := if mp <? 10 then mp + 3 else mp - 9 in
  let y := yoe + era * 400 + (if m <=? 2 then 1 else 0) in
  (y, m - 1, d).

(** ECMAScript [MakeDay(year, month, date)]: months and days out of range
    carry over. *)
Definition MakeDay (year month date : Z) : Z :=
  let ym := year + month / 12 in
  let mn := month mod 12 in
  daysFromCivil ym (mn + 1) 1 + date - 1.

(** [new Date(year, monthIndex, day)]; a year in 0..99 means 1900 + year. *)
Definition make (year monthIndex day : Z) : Z :=
  let yr :=
    if (0 <=? year) && (year <=? 99) then 1900 + year else year in
  MakeDay yr monthIndex day.

Definition getFullYear (t : Z) : Z := (civilFromDays t).1.1.
Definition getMonth (t : Z) : Z := (civilFromDays t).1.2.
Definition getDate (t : Z) : Z := (civilFromDays t).2.

(** [date.setFullYear(year)] *)
Definition setFullYear (t : Z) (year : Z) : Z :=
  MakeDay year (getMonth t) (getDate t).

(** [endDate - startDate], in milliseconds: the difference of the two
    time values, each its local midnight less the offset in force. *)
Definition diff (utcOffset : Z -> Z) (endDate startDate : Z) : Z :=
  (endDate - startDate) * msPerDay - (utcOffset endDate - utcOffset startDate).

End JsDate.

Definition formatSearchDate (date : Z) : jsstring :=
  let month := (JsDate.getMonth date + 1)%Z in
  let day := JsDate.getDate date in
  let year := JsDate.getFullYear date in
  Str.ofZ month ++ js "/" ++ Str.ofZ day ++ js "/" ++ Str.ofZ year.

(** [createTimeFilterValue(timeParam)]; [today] is the local day that
    [new Date()] returns. *)
Definition createTimeFilterValue (today : Z) (timeParam : jsstring)
  : jsstring :=
  if Str.startsWith timeParam (js "custom:")
     && bool_decide (nth 1 (Str.split 58 timeParam) [] = js "2y")
  then
    let twoYearsAgo :=
      JsDate.setFullYear today (JsDate.getFullYear today - 2)%Z in
    let startDate := formatSearchDate twoYearsAgo in
    let endDate := formatSearchDate today in
    js "cdr:1,cd_min:" ++ startDate ++ js ",cd_max:" ++ endDate
  else js "qdr:" ++ timeParam.

(** ** Outbound apply *)

(** The longest prefix of [s] whose code units satisfy [f]. *)
Fixpoint takeWhile (f : jschar -> bool) (s : jsstring) : jsstring :=
  match s with
  | c :: s' => if f c then c :: takeWhile f s' else []
  | [] => []
  end.

(** Length of the match of [/\s*site:\S+/] at the start of [s], if any.
    The leading run of white space is taken whole: a shorter run would put
    a white-space character where [s] of [site:] is required. *)
Definition matchSiteOperator (s : jsstring) : option nat :=
  let ws := takeWhile Str.isWhiteSpace s in
  let rest := drop (length ws) s in
  if Str.startsWith rest (js "site:") then
    let operand :=
      takeWhile (fun c => negb (Str.isWhiteSpace c)) (drop 5 rest) in
    match operand with
    | [] => None
    | _ => Some (length ws + 5 + length operand)%nat
    end
  else None.

(** [s.replace(/\s*site:\S+/g, '')]; [skip] counts the code units of the
    current match still to be dropped. *)
Fixpoint removeSiteOperators (skip : nat) (s : jsstring) : jsstring :=
  match s with
  | [] => []
  | c :: s' =>
      match skip with
      | S k => removeSiteOperators k s'
      | O =>
          match matchSiteOperator s with
          | Some (S k) => removeSiteOperators k s'
          | _ => c :: removeSiteOperators O s'
          end
      end
  end.

(** [s.replace(/\s+/g, ' ')]; [inRun] tells that the previous code unit was
    white space. *)
Fixpoint collapseWhiteSpace (inRun : bool) (s : jsstring) : jsstring :=
  match s with
  | [] => []
  | c :: s' =>
      if Str.isWhiteSpace c then
        if inRun then collapseWhiteSpace true s'
        else 32%N :: collapseWhiteSpace true s'
      else c :: collapseWhiteSpace false s'
  end.

Definition cleanQuery (searchQuery : jsstring) : jsstring :=
  Str.trim (collapseWhiteSpace false (removeSiteOperators O searchQuery)).

(** [filters.site[key].query] inside a template or as the argument of
    [includes]: [None] when the entry is [undefined] and the read throws,
    the text [undefined] for an inherited member. *)
Definition siteQueryText (sites : list (jsstring * SiteDef)) (key : jsstring)
  : option jsstring :=
  match getProperty sites key with
  | Own d => Some (query d)
  | Inherited _ => Some (js "undefined")
  | Missing => None
  end.

(** [filters.time[key].param] where a string method is called on it next:
    [None] when that throws. *)
Definition timeParamOf (key : jsstring) : option jsstring :=
  match getProperty filters.time key with
  | Own d => Some (param d)
  | _ => None
  end.

(** [interfaceData && interfaceData.googleLang], as a truthy string. *)
Definition googleLangOf (key : jsstring) : option jsstring :=
  match getProperty filters.interfaceLang key with
  | Own d => truthyString (googleLang d)
  | _ => None
  end.

Definition googleRegionOf (key : jsstring) : option jsstring :=
  match getProperty filters.region key with
  | Own d => truthyString (googleRegion d)
  | _ => None
  end.

(** The five blocks of [applyFilters], one per parameter. *)

(** The new value of [q]: the query without site operators, followed by
    the fragment of the selected site. *)
Definition paramQ (sites : list (jsstring * SiteDef)) (cf : CurrentFilters)
    (searchQuery : jsstring) : option jsstring :=
  let clean := cleanQuery searchQuery in
  if decide (site cf = js "all") then Some clean
  else
    siteQuery ← siteQueryText sites (site cf);
    Some (Str.trim (clean ++ js " " ++ siteQuery)).

Definition paramLr (cf : CurrentFilters) (params : list (jsstring * jsstring))
  : list (jsstring * jsstring) :=
  if decide (searchLang cf = js "all")
  then URLSearchParams.delete params (js "lr")
  else URLSearchParams.set params (js "lr") (js "lang_" ++ searchLang cf).

Definition paramTbs (today : Z) (cf : CurrentFilters)
    (params : list (jsstring * jsstring))
  : option (list (jsstring * jsstring)) :=
  if decide (time cf = js "all")
  then Some (URLSearchParams.delete params (js "tbs"))
  else
    timeParam ← timeParamOf (time cf);
    Some (URLSearchParams.set params (js "tbs")
            (createTimeFilterValue today timeParam)).

Definition paramHl (cf : CurrentFilters) (params : list (jsstring * jsstring))
  : list (jsstring * jsstring) :=
  if decide (interfaceLang cf = js "auto")
  then URLSearchParams.delete params (js "hl")
  else match googleLangOf (interfaceLang cf) with
       | Some lang => URLSearchParams.set params (js "hl") lang
       | None => params
       end.

Definition paramGl (cf : CurrentFilters) (params : list (jsstring * jsstring))
  : list (jsstring * jsstring) :=
  if decide (region cf = js "auto")
  then URLSearchParams.delete params (js "gl")
  else match googleRegionOf (region cf) with
       | Some reg => URLSearchParams.set params (js "gl") reg
       | None => params
       end.

(** [applyFilters()]: the address assigned to [window.location.href], or
    [None] when a [TypeError] is thrown before the assignment. *)
Definition applyFilters (w : World) (today : Z) : option URL :=
  let cf := currentFilters w in
  let currentUrl := href (location w) in
  let params := searchParams currentUrl in
  searchQuery ←
    paramQ (filtersSite w) cf (URLSearchParams.getOrEmpty params (js "q"));
  let params := URLSearchParams.set params (js "q") searchQuery in
  let params := paramLr cf params in
  params ← paramTbs today cf params;
  let params := paramHl cf params in
  let params := paramGl cf params in
  Some (withParams currentUrl params).

(** ** Consistency check *)

(** The five blocks of [checkCurrentFilters]; each tells whether the check
    goes on ([true]) or returns [false]. *)
Definition checkQ (sites : list (jsstring * SiteDef)) (cf : CurrentFilters)
    (q : jsstring) : option bool :=
  if decide (site cf = js "all") then Some true
  else
    expectedSite ← siteQueryText sites (site cf);
    Some (Str.includes q expectedSite).

Definition checkLr (cf : CurrentFilters) (lr : jsstring) : bool :=
  if decide (searchLang cf = js "all") then true
  else bool_decide (lr = js "lang_" ++ searchLang cf).

Definition checkTbs (cf : CurrentFilters) (tbs : jsstring) : option bool :=
  if decide (time cf = js "all") then Some true
  else
    timeParam ← timeParamOf (time cf);
    if Str.startsWith timeParam (js "custom:") then
      if bool_decide (nth 1 (Str.split 58 timeParam) [] = js "2y")
      then Some (Str.startsWith tbs (js "cdr:1,cd_min:"))
      else Some true
    else Some (bool_decide (tbs = js "qdr:" ++ timeParam)).

Definition checkHl (cf : CurrentFilters) (hl : jsstring) : bool :=
  if decide (interfaceLang cf = js "auto") then bool_decide (hl = [])
  else match googleLangOf (interfaceLang cf) with
       | Some expectedHl => bool_decide (hl = expectedHl)
       | None => true
       end.

Definition checkGl (cf : CurrentFilters) (gl : jsstring) : bool :=
  if decide (region cf = js "auto") then bool_decide (gl = [])
  else match googleRegionOf (region cf) with
       | Some expectedGl => bool_decide (gl = expectedGl)
       | None => true
       end.

(** [checkCurrentFilters(url)]; [None] when a [TypeError] is thrown. *)
Definition checkCurrentFilters (w : World) (url : URL) : option bool :=
  let cf := currentFilters w in
  let params := searchParams url in
  let q := URLSearchParams.getOrEmpty params (js "q") in
  let lr := URLSearchParams.getOrEmpty params (js "lr") in
  let tbs := URLSearchParams.getOrEmpty params (js "tbs") in
  let hl := URLSearchParams.getOrEmpty params (js "hl") in
  let gl := URLSearchParams.getOrEmpty params (js "gl") in
  siteOk ← checkQ (filtersSite w) cf q;
  if negb siteOk then Some false
  else if negb (checkLr cf lr) then Some false
  else
    timeOk ← checkTbs cf tbs;
    if negb timeOk then Some false
    else if negb (checkHl cf hl) then Some false
    else Some (checkGl cf gl).

(** ** Inbound parse *)

(** A run of at most [n] decimal digits at the start of [s], and what
    follows it. *)
Fixpoint spanDigits (n : nat) (s : jsstring) : jsstring * jsstring :=
  match n, s with
  | S n', c :: s' =>
      if Str.isDigit c
      then let '(d, r) := spanDigits n' s' in (c :: d, r)
      else ([], s)
  | _, _ => ([], s)
  end.

(** [\d{lo,hi}] followed by something that is not a digit: the longest run
    is the only one that can be continued. *)
Definition digits (lo hi : nat) (s : jsstring) : option (jsstring * jsstring) :=
  let '(d, r) := spanDigits hi s in
  if (lo <=? length d)%nat then Some (d, r) else None.

Definition literal (p s : jsstring) : option jsstring :=
  if Str.startsWith s p then Some (drop (length p) s) else None.

(** [(\d{1,2}\/\d{1,2}\/\d{4})] at the start of [s]: the captured text and
    the rest. *)
Definition dateGroup (s : jsstring) : option (jsstring * jsstring) :=
  '(m, s1) ← digits 1 2 s;
  s2 ← literal (js "/") s1;
  '(d, s3) ← digits 1 2 s2;
  s4 ← literal (js "/") s3;
  '(y, s5) ← digits 4 4 s4;
  Some (m ++ js "/" ++ d ++ js "/" ++ y, s5).

Definition dateRangeAt (s : jsstring) : option (jsstring * jsstring) :=
  s1 ← literal (js "cd_min:") s;
  '(g1, s2) ← dateGroup s1;
  s3 ← literal (js ",cd_max:") s2;
  '(g2, _) ← dateGroup s3;
  Some (g1, g2).

(** [tbs.match(/cd_min:(...),cd_max:(...)/)]: the two groups of the
    leftmost match. *)
Fixpoint dateMatch (tbs : jsstring) : option (jsstring * jsstring) :=
  match dateRangeAt tbs with
  | Some groups => Some groups
  | None =>
      match tbs with
      | _ :: tbs' => dateMatch tbs'
      | [] => None
      end
  end.

(** [parseDate]: the three fields are runs of digits, so none is [NaN]. *)
Definition parseDate (dateStr : jsstring) : Z :=
  match map Str.Number (Str.split 47 dateStr) with
  | month :: day :: year :: _ => JsDate.make year (month - 1) day
  | _ => 0%Z
  end.

Section TimeZone.

(** The UTC offset of the host time zone at the midnight of each local
    day. *)
Variable utcOffset : Z -> Z.

(** [(endDate - startDate) / (365.25 * 24 * 60 * 60 * 1000)], as an exact
    quotient.  The numerator and the divisor are integers that doubles hold
    exactly, and ten times a bound times the divisor is an integer too: a
    quotient that is not equal to a bound is away from it by at least
    1/(10 * divisor), far more than the rounding of the division and of the
    literals [1.8] and [2.2].  The comparisons of the script therefore have
    the outcome they have on the exact quotient. *)
Definition yearsDiff (startDate endDate : Z) : Q :=
  inject_Z (JsDate.diff utcOffset endDate startDate)
  / ((36525 # 100) * 24 * 60 * 60 * 1000).

Definition isTwoYearSpan (startDate endDate : Z) : bool :=
  Qle_bool (18 # 10) (yearsDiff startDate endDate)
  && Qle_bool (yearsDiff startDate endDate) (22 # 10).

Definition syncCustomDateRange (cf : CurrentFilters) (tbs : jsstring)
  : CurrentFilters :=
  match dateMatch tbs with
  | None => cf
  | Some (min, max) =>
      let startDate := parseDate min in
      let endDate := parseDate max in
      if isTwoYearSpan startDate endDate
      then setFilter cf Time (js "2year")
      else cf
  end.

(** The five blocks of [syncFiltersFromURL], one per parameter. *)

(** [Object.entries(filters.interfaceLang).find(([, data]) =>
    data.googleLang === hl)?.[0]] *)
Definition interfaceLangFor (hl : jsstring) : option jsstring :=
  fst <$> findEntry (fun data => bool_decide (googleLang data = Some hl))
            filters.interfaceLang.

Definition regionFor (gl : jsstring) : option jsstring :=
  fst <$> findEntry (fun data => bool_decide (googleRegion data = Some gl))
            filters.region.

(** The first site whose fragment is not empty and occurs in the query. *)
Definition siteFor (sites : list (jsstring * SiteDef)) (q : jsstring)
  : option jsstring :=
  fst <$> findEntry
            (fun data => negb (bool_decide (query data = []))
                         && Str.includes q (query data))
            sites.

Definition timeFor (tbs : jsstring) : option jsstring :=
  let timeParam := Str.removeFirst tbs (js "qdr:") in
  fst <$> findEntry (fun data => bool_decide (param data = timeParam))
            filters.time.

Definition syncInterfaceLang (hl : jsstring) (cf : CurrentFilters)
  : CurrentFilters :=
  if decide (hl = []) then cf
  else setFilter cf InterfaceLang (orDefault (interfaceLangFor hl) (js "auto")).

Definition syncRegion (gl : jsstring) (cf : CurrentFilters) : CurrentFilters :=
  if decide (gl = []) then cf
  else setFilter cf Region (orDefault (regionFor gl) (js "auto")).

Definition syncSite (sites : list (jsstring * SiteDef)) (q : jsstring)
    (cf : CurrentFilters) : CurrentFilters :=
  match siteFor sites q with
  | Some key => setFilter cf Site key
  | None => cf
  end.

Definition syncSearchLang (lr : jsstring) (cf : CurrentFilters)
  : CurrentFilters :=
  if decide (lr = []) then cf
  else
    let langCode := Str.removeFirst lr (js "lang_") in
    if truthy (getProperty filters.searchLang langCode)
    then setFilter cf SearchLang langCode
    else cf.

Definition syncTime (tbs : jsstring) (cf : CurrentFilters) : CurrentFilters :=
  if decide (tbs = []) then cf
  else if Str.startsWith tbs (js "cdr:1,cd_min:")
  then syncCustomDateRange cf tbs
  else
    match timeFor tbs with
    | Some key => setFilter cf Time key
    | None => cf
    end.

Definition syncFiltersFromURL (w : World) : World :=
  let params := searchParams (href (location w)) in
  let q := URLSearchParams.getOrEmpty params (js "q") in
  let lr := URLSearchParams.getOrEmpty params (js "lr") in
  let tbs := URLSearchParams.getOrEmpty params (js "tbs") in
  let hl := URLSearchParams.getOrEmpty params (js "hl") in
  let gl := URLSearchParams.getOrEmpty params (js "gl") in
  let cf := syncRegion gl (syncInterfaceLang hl (currentFilters w)) in
  if negb (isSearchPage w) then withCurrentFilters w cf
  else
    withCurrentFilters w
      (syncTime tbs (syncSearchLang lr (syncSite (filtersSite w) q cf))).

(** What the parse recognises in [tbs]: a two-year date range when the
    value starts like a date range, a relative-duration token otherwise. *)
Definition twoYearRange (tbs : jsstring) : bool :=
  match dateMatch tbs with
  | Some (min, max) => isTwoYearSpan (parseDate min) (parseDate max)
  | None => false
  end.

Definition recognizedTime (tbs : jsstring) : bool :=
  if Str.startsWith tbs (js "cdr:1,cd_min:") then twoYearRange tbs
  else bool_decide (is_Some (timeFor tbs)).

End TimeZone.

(** ** Custom sites *)

Module JSON.

Definition hexDigit (n : N) : jschar :=
  if (n <? 10)%N then (48 + n)%N else (87 + n)%N.

(** [\uXXXX] with lower-case hexadecimal digits. *)
Definition unicodeEscape (c : jschar) : jsstring :=
  js "\u" ++ [ hexDigit (c / 4096 mod 16); hexDigit (c / 256 mod 16);
               hexDigit (c / 16 mod 16); hexDigit (c mod 16) ]%N.

Definition quoteUnit (c : jschar) : jsstring :=
  if (c =? 8)%N then js "\b"
  else if (c =? 9)%N then js "\t"
  else if (c =? 10)%N then js "\n"
  else if (c =? 12)%N then js "\f"
  else if (c =? 13)%N then js "\r"
  else if (c =? 34)%N then [92; 34]%N
  else if (c =? 92)%N then [92; 92]%N
  else if (c <? 32)%N then unicodeEscape c
  else [c].

(** The body of [QuoteJSONString]: control characters, the quote, the
    backslash and unpaired surrogates are escaped. *)
Fixpoint quoteBody (s : jsstring) : jsstring :=
  match s with
  | [] => []
  | c :: s' =>
      if Str.isHighSurrogate c then
        match s' with
        | d :: s'' =>
            if Str.isLowSurrogate d then c :: d :: quoteBody s''
            else unicodeEscape c ++ quoteBody s'
        | [] => unicodeEscape c
        end
      else if Str.isLowSurrogate c then unicodeEscape c ++ quoteBody s'
      else quoteUnit c ++ quoteBody s'
  end.

Definition quote (s : jsstring) : jsstring := [34%N] ++ quoteBody s ++ [34%N].

Fixpoint join (sep : jsstring) (parts : list jsstring) : jsstring :=
  match parts with
  | [] => []
  | [p] => p
  | p :: ps => p ++ sep ++ join sep ps
  end.

Definition member (k v : jsstring) : jsstring := quote k ++ js ":" ++ v.

(** A site entry; its members were created in this order. *)
Definition stringifySite (d : SiteDef) : jsstring :=
  js "{"
  ++ join (js ",")
       [ member (js "name") (quote (st_name d));
         member (js "short") (quote (st_short d));
         member (js "query") (quote (query d));
         member (js "domain") (quote (domain d));
         member (js "icon") (quote (icon d)) ]
  ++ js "}".

(** [JSON.stringify(customSites)] *)
Definition stringify (o : list (jsstring * SiteDef)) : jsstring :=
  js "{"
  ++ join (js ",") (map (fun e => member e.1 (stringifySite e.2)) o)
  ++ js "}".

End JSON.

Definition isDefaultSite (key : jsstring) : bool :=
  bool_decide (key ∈ DEFAULT_SITES).

Definition saveCustomSites (w : World) : World :=
  let customSites :=
    List.filter (fun e => negb (isDefaultSite e.1)) (filtersSite w) in
  setItem w (js "googleSearchCustomSites") (JSON.stringify customSites).

(** [cleanUrl.replace(/\./g, '_').replace(/[^a-zA-Z0-9_]/g, '')] *)
Definition siteKeyOf (cleanUrl : jsstring) : jsstring :=
  List.filter (fun c => Str.isAlnum c || (c =? 95)%N)
    (map (fun c => if (c =? 46)%N then 95%N else c) cleanUrl).

(** An entry of the object that [JSON.parse] returns for the stored custom
    sites, for entries whose members are strings or missing. *)
Record StoredSite := {
  stored_name : option jsstring;
  stored_short : option jsstring;
  stored_query : option jsstring;
  stored_domain : option jsstring;
  stored_icon : option jsstring
}.

(** [isValidNonEmptyString(x)] for a member that may be missing. *)
Definition isValidMember (x : option jsstring) : bool :=
  match x with
  | Some s => isValidNonEmptyString s
  | None => false
  end.

Definition isValidSiteData (siteData : StoredSite) : bool :=
  isValidMember (stored_name siteData)
  && isValidMember (stored_domain siteData)
  && isValidMember (stored_query siteData).

Section CustomSites.

(** [String.prototype.toUpperCase], the Unicode case mapping of the
    host. *)
Variable toUpperCase : jsstring -> jsstring.

(** The entry that [loadCustomSites] builds from a stored one; only
    [name], [short] and the key are sanitized. *)
Definition validatedSite (value : StoredSite) : SiteDef :=
  let name := default [] (stored_name value) in
  let domain := default [] (stored_domain value) in
  {| st_name := sanitizeHTML name;
     st_short :=
       sanitizeHTML
         (default (take 12 (toUpperCase name))
            (truthyString (stored_short value)));
     query := default [] (stored_query value);
     domain := domain;
     icon :=
       default (js "https://" ++ domain ++ js "/favicon.ico")
         (truthyString (stored_icon value)) |}.

(** [loadCustomSites()], from the entries of the parsed object on:
    [filters.site] after [Object.assign(filters.site, validatedSites)].
    An assignment to the key [__proto__] creates no entry. *)
Definition loadCustomSites (sites : list (jsstring * SiteDef))
    (parsed : list (jsstring * StoredSite)) : list (jsstring * SiteDef) :=
  let validatedSites :=
    fold_left
      (fun acc e =>
         if isValidNonEmptyString e.1 && isValidSiteData e.2
            && negb (bool_decide (sanitizeHTML e.1 = js "__proto__"))
         then setProperty acc (sanitizeHTML e.1) (validatedSite e.2)
         else acc)
      parsed [] in
  fold_left (fun acc e => setProperty acc e.1 e.2) validatedSites sites.

(** [addCustomSite()]; [siteName] and [siteUrl] are what the two prompts
    return ([None] when the dialog is dismissed).  The second prompt is
    shown only if the name was accepted. *)
Definition addCustomSite (w : World) (siteName siteUrl : option jsstring)
  : World :=
  let customSiteCount :=
    (Z.of_nat (length (filtersSite w)) - Z.of_nat (length DEFAULT_SITES))%Z in
  if (Z.of_nat CONFIG.MAX_CUSTOM_SITES <=? customSiteCount)%Z then
    showToast w (js "Maximum number of custom sites reached") (js "warning")
  else
    match siteName with
    | None => w
    | Some siteName =>
        if negb (isValidNonEmptyString siteName) then w
        else
          let trimmedName := Str.trim siteName in
          if (CONFIG.MAX_SITE_NAME_LENGTH <? length trimmedName)%nat then
            showToast w (js "Site name too long") (js "warning")
          else
            let sanitizedName := sanitizeHTML trimmedName in
            if negb (bool_decide (sanitizedName = trimmedName)) then
              showToast w (js "Invalid characters in site name")
                (js "warning")
            else
              match siteUrl with
              | None => w
              | Some siteUrl =>
                  if negb (isValidNonEmptyString siteUrl) then w
                  else
                    let cleanUrl := cleanURLDomain siteUrl in
                    if negb (isValidURL siteUrl) then
                      showToast w (js "Invalid URL format") (js "warning")
                    else
                      let siteKey := siteKeyOf cleanUrl in
                      if truthy (getProperty (filtersSite w) siteKey) then
                        showToast w (js "Site already exists") (js "warning")
                      else
                        let siteData :=
                          {| st_name := sanitizedName;
                             st_short := take 12 (toUpperCase sanitizedName);
                             query := js "site:" ++ cleanUrl;
                             domain := cleanUrl;
                             icon := js "https://" ++ cleanUrl
                                     ++ js "/favicon.ico" |} in
                        let w1 :=
                          withFiltersSite w
                            (setProperty (filtersSite w) siteKey siteData) in
                        showToast (saveCustomSites w1)
                          (sanitizedName ++ js " added successfully")
                          (js "success")
              end
    end.

End CustomSites.

(** [removeCustomSite(siteKey)]; [confirmed] is the answer to the
    confirmation dialog, asked only for an existing custom site. *)
Definition removeCustomSite (w : World) (siteKey : jsstring)
    (confirmed : bool) : World :=
  if decide (siteKey = []) then emit w (ConsoleWarn (js "removeCustomSite"))
  else if negb (truthy (getProperty (filtersSite w) siteKey)) then
    showToast w (js "Site not found") (js "warning")
  else if isDefaultSite siteKey then
    showToast w (js "Cannot remove default sites") (js "warning")
  else if confirmed then
    let w1 := withFiltersSite w (deleteProperty (filtersSite w) siteKey) in
    let w2 :=
      if decide (site (currentFilters w1) = siteKey) then
        let w' :=
          withCurrentFilters w1 (setFilter (currentFilters w1) Site (js "all")) in
        if persistSite (persistenceSettings w')
        then setItem w' (js "googleSearchSite") (js "all")
        else w'
      else w1 in
    showToast (saveCustomSites w2) (js "Site removed successfully")
      (js "success")
  else w.

(** ** Catalog membership and sample worlds *)

(** [k] is a key of the table [o] itself. *)
Definition hasOwn {A} (o : list (jsstring * A)) (k : jsstring) : bool :=
  bool_decide (is_Some (ownProperty o k)).

(** [value] is a code of the definition set of [filterType]. *)
Definition inCatalog (sites : list (jsstring * SiteDef))
    (filterType : FilterType) (value : jsstring) : bool :=
  match filterType with
  | SearchLang => hasOwn filters.searchLang value
  | InterfaceLang => hasOwn filters.interfaceLang value
  | Region => hasOwn filters.region value
  | Site => hasOwn sites value
  | Time => hasOwn filters.time value
  end.

(** A legal value of a category: its neutral value or a code of its
    definition set.  ([filters.site] has no entry for the neutral value
    [all]; the other four tables list theirs.) *)
Definition validValue (sites : list (jsstring * SiteDef))
    (filterType : FilterType) (value : jsstring) : bool :=
  bool_decide (value = defaultValue filterType)
  || inCatalog sites filterType value.

Definition allFilterTypes : list FilterType :=
  [SearchLang; InterfaceLang; Region; Site; Time].

(** The invariant of the filter state. *)
Definition validState (sites : list (jsstring * SiteDef))
    (cf : CurrentFilters) : bool :=
  forallb (fun t => validValue sites t (getFilter cf t)) allFilterTypes.

(** A site fragment that [trim] and the conversion to a [USVString] leave
    as it is: no white space at either end, no unpaired surrogate. *)
Definition stableFragment (q : jsstring) : Prop :=
  Str.trim q = q /\ Str.toUSVString q = q.

Definition fragmentsStable (sites : list (jsstring * SiteDef)) : Prop :=
  Forall (fun e => stableFragment (query e.2)) sites.

(** Two worlds that differ at most in their effect traces. *)
Definition sameState (w w' : World) : Prop :=
  filtersSite w' = filtersSite w
  /\ persistenceSettings w' = persistenceSettings w
  /\ currentFilters w' = currentFilters w
  /\ localStorage w' = localStorage w
  /\ location w' = location w.

(** [w'] is [w] after an operation that refused its input with the warning
    [message]: nothing but the toast happened. *)
Definition rejectedWith (w w' : World) (message : jsstring) : Prop :=
  sameState w w' /\ effects w' = Toast message (js "warning") :: effects w.

(** [target] is [current] with the single parameter [name] set to [value]
    or, for [None], removed: the other pairs are the same, in the same
    order, and so are the path and the rest of the address. *)
Definition differsOnlyIn (name : jsstring) (value : option jsstring)
    (current target : URL) : Prop :=
  origin target = origin current
  /\ pathname target = pathname current
  /\ hash target = hash current
  /\ URLSearchParams.delete (searchParams target) name
     = URLSearchParams.delete (searchParams current) name
  /\ URLSearchParams.get (searchParams target) name = value.

Module Sample.

(** [https://www.google.com/search?q=foo] *)
Definition address (params : list (jsstring * jsstring)) (raw : jsstring)
  : Location :=
  {| href := {| origin := js "https://www.google.com";
                pathname := js "/search";
                searchParams := params; hash := [] |};
     search := raw |}.

Definition resultsPage : Location :=
  address [(js "q", js "foo")] (js "?q=foo").

Definition allOn : PersistenceSettings :=
  {| persistSearchLang := true; persistInterfaceLang := true;
     persistRegion := true; persistSite := true; persistTime := true |}.

Definition allOff : PersistenceSettings :=
  {| persistSearchLang := false; persistInterfaceLang := false;
     persistRegion := false; persistSite := false; persistTime := false |}.

Definition neutral : CurrentFilters :=
  {| searchLang := js "all"; interfaceLang := js "auto";
     region := js "auto"; site := js "all"; time := js "all" |}.

Definition world (sites : list (jsstring * SiteDef))
    (ps : PersistenceSettings) (cf : CurrentFilters) (loc : Location)
  : World :=
  {| filtersSite := sites; persistenceSettings := ps; currentFilters := cf;
     localStorage := ∅; location := loc; effects := [] |}.

(** A custom site as [addCustomSite] creates it. *)
Definition twitter : jsstring * SiteDef :=
  (js "twitter_com",
   {| st_name := js "Twitter"; st_short := js "TWITTER";
      query := js "site:twitter.com"; domain := js "twitter.com";
      icon := js "https://twitter.com/favicon.ico" |}).

(** A stored custom site that [loadCustomSites] accepts: its [query] only
    has to be a string that is not blank, here one that ends in a space. *)
Definition storedPadded : jsstring * StoredSite :=
  (js "x_com",
   {| stored_name := Some (js "X"); stored_short := Some (js "X");
      stored_query := Some (js "site:x.com ");
      stored_domain := Some (js "x.com");
      stored_icon := Some (js "https://x.com/favicon.ico") |}).

(** Another one, whose [query] ends in an unpaired surrogate (written
    [\ud800] in the stored JSON text). *)
Definition storedUnpaired : jsstring * StoredSite :=
  (js "x_com",
   {| stored_name := Some (js "X"); stored_short := Some (js "X");
      stored_query := Some (js "site:x.com" ++ [55296%N]);
      stored_domain := Some (js "x.com");
      stored_icon := Some (js "https://x.com/favicon.ico") |}).

(** The entry of [filters.site] that [storedPadded] becomes. *)
Definition padded : jsstring * SiteDef :=
  (js "x_com",
   {| st_name := js "X"; st_short := js "X";
      query := js "site:x.com "; domain := js "x.com";
      icon := js "https://x.com/favicon.ico" |}).

(** Two time zones: UTC, and one whose offset moves between one and two
    hours. *)
Definition utc (day : Z) : Z := 0.

Definition shifting (day : Z) : Z :=
  if (day mod 7 <? 2)%Z then 7200000%Z else 3600000%Z.

(** ASCII upper-casing, standing for the case mapping of the host. *)
Definition upper (s : jsstring) : jsstring := map Str.toUpperCaseAscii s.

End Sample.

(** * Further operations of the engine *)

(** ** Clearing *)

Definition clearFilter (w : World) (filterType : FilterType) : World :=
  let w1 :=
    withCurrentFilters w
      (setFilter (currentFilters w) filterType (defaultValue filterType)) in
  let w2 := persistIfEnabled w1 filterType (defaultValue filterType) in
  let w3 :=
    if isSearchPage w2 then emit w2 (SetTimeout 200 RunApplyFilters)
    else w2 in
  showToast w3 (getFilterName filterType ++ js " cleared") (js "success").

Definition clearSiteFilter (w : World) : World := clearFilter w Site.
Definition clearTimeFilter (w : World) : World := clearFilter w Time.

(** [hasActiveFilters()] *)
Definition hasActiveFilters (cf : CurrentFilters) : bool :=
  existsb (fun key => negb (bool_decide (getFilter cf key = defaultValue key)))
    allFilterTypes.

(** The body of the [forEach] of [clearAllFilters] for one filter type. *)
Definition resetFilter (w : World) (filterType : FilterType) : World :=
  persistIfEnabled
    (withCurrentFilters w
       (setFilter (currentFilters w) filterType (defaultValue filterType)))
    filterType (defaultValue filterType).

Definition clearAllFilters (w : World) : World :=
  if negb (hasActiveFilters (currentFilters w)) then w
  else
    let w1 := fold_left resetFilter allFilterTypes w in
    let w2 :=
      if isSearchPage w1 then emit w1 (SetTimeout 200 RunApplyFilters)
      else w1 in
    showToast w2 (js "All filters cleared") (js "success").

(** ** The badge of the button *)

(** [filters[key][val]], projected on [short]; an inherited member has no
    [short]. *)
Definition entryShort (w : World) (filterType : FilterType) (value : jsstring)
  : Property jsstring :=
  match filterType with
  | SearchLang => mapOwn sl_short (getProperty filters.searchLang value)
  | InterfaceLang => mapOwn il_short (getProperty filters.interfaceLang value)
  | Region => mapOwn rg_short (getProperty filters.region value)
  | Site => mapOwn st_short (getProperty (filtersSite w) value)
  | Time => mapOwn tm_short (getProperty filters.time value)
  end.

(** The array [active] of [getActiveFiltersInfo]; [None] is an element
    that is [undefined]. *)
Definition activeShorts (w : World) : list (option jsstring) :=
  flat_map
    (fun key =>
       let val := getFilter (currentFilters w) key in
       if negb (bool_decide (val = defaultValue key))
       then match entryShort w key val with
            | Own short => [Some short]
            | Inherited _ => [None]
            | Missing => []
            end
       else [])
    allFilterTypes.

(** [getActiveFiltersInfo()]: [count] and [text]; [join] prints an
    [undefined] element as the empty string. *)
Definition getActiveFiltersInfo (w : World) : nat * jsstring :=
  let active := activeShorts w in
  (length active, JSON.join (js " + ") (map (default []) active)).

(** ** Toasts

    [toastState] and the test of [showToast] that drops a repeated message;
    [now] is what [Date.now()] returns. *)

Record ToastState := {
  lastMessage : option jsstring;
  lastTimestamp : Z
}.

Module Toasts.

Definition initial : ToastState :=
  {| lastMessage := None; lastTimestamp := 0 |}.

(** [showToast(message)], on a page that has a body: the new [toastState]
    and the text of the toast that is put on the page, if one is. *)
Definition showToast (ts : ToastState) (now : Z) (message : jsstring)
  : ToastState * option jsstring :=
  if negb (isValidNonEmptyString message) then (ts, None)
  else
    let sanitizedMessage := sanitizeHTML (Str.trim message) in
    if bool_decide (lastMessage ts = Some sanitizedMessage)
       && (now - lastTimestamp ts <? 1000)%Z
    then (ts, None)
    else ({| lastMessage := Some sanitizedMessage; lastTimestamp := now |},
          Some sanitizedMessage).

(** What [clearAllToasts()] leaves of [toastState]. *)
Definition clearAllToasts (ts : ToastState) : ToastState := initial.

End Toasts.

(** ** Start-up sequence *)

(** The world after a navigation to [target]; [raw] is the query string
    of the new address. *)
Definition navigated (w : World) (target : URL) (raw : jsstring) : World :=
  {| filtersSite := filtersSite w;
     persistenceSettings := persistenceSettings w;
     currentFilters := currentFilters w; localStorage := localStorage w;
     location := {| href := target; search := raw |};
     effects := effects w |}.

Section StartUp.

Variable utcOffset : Z -> Z.


End StartUp.

(** ** The panel and its click listener *)

(** The state that the panel adds to the engine. *)
Record Panel := {
  engine : World;
  autoOpenPanel : bool;
  isOpen : bool;               (* [globalState.isOpen] *)
  settingsCollapsed : bool     (* [globalState.settingsCollapsed] *)
}.

Definition withEngine (p : Panel) (w : World) : Panel :=
  {| engine := w; autoOpenPanel := autoOpenPanel p; isOpen := isOpen p;
     settingsCollapsed := settingsCollapsed p |}.

(** The panel right after the top-level initialisers have run. *)
Definition loadPanel (sites : list (jsstring * SiteDef))
    (ls : gmap jsstring jsstring) (loc : Location) : Panel :=
  {| engine := loadInitial sites ls loc;
     autoOpenPanel :=
       negb (bool_decide (ls !! js "googleSearchAutoOpen" = Some (js "false")));
     isOpen := false;
     settingsCollapsed := true |}.

(** [togglePanel()], with the button and the panel on the page. *)
Definition togglePanel (p : Panel) : Panel :=
  {| engine := engine p; autoOpenPanel := autoOpenPanel p;
     isOpen := negb (isOpen p); settingsCollapsed := settingsCollapsed p |}.

Definition toggleAutoOpen (p : Panel) : Panel :=
  let autoOpen := negb (autoOpenPanel p) in
  let w1 := setItem (engine p) (js "googleSearchAutoOpen") (boolText autoOpen) in
  let status := if autoOpen then js "enabled" else js "disabled" in
  let w2 := showToast w1 (js "Auto-open panel " ++ status) (js "success") in
  let p1 :=
    {| engine := w2; autoOpenPanel := autoOpen; isOpen := isOpen p;
       settingsCollapsed := settingsCollapsed p |} in
  if autoOpen && negb (isOpen p1) then togglePanel p1
  else if negb autoOpen && isOpen p1 then togglePanel p1
  else p1.

(** [toggleSettingsCollapse()], with the settings block on the page. *)
Definition toggleSettingsCollapse (p : Panel) : Panel :=
  let collapsed := negb (settingsCollapsed p) in
  let message :=
    if collapsed then js "Settings collapsed" else js "Settings expanded" in
  {| engine := showToast (engine p) message (js "info");
     autoOpenPanel := autoOpenPanel p; isOpen := isOpen p;
     settingsCollapsed := collapsed |}.

(** [dataset.filter] of a toggle switch of the panel markup. *)
Inductive ToggleName : Type :=
  | AutoOpen
  | Persistence (filterType : FilterType).

(** A click on the panel, as the listener of [setupPanelEvents] sees it:
    what [e.target.closest(selector)] finds for each selector of the
    listener, with the data attributes of the element found ([None] for an
    attribute that is not there), and what the user answers to the dialogs
    the click may open.  [dataset.type] and [dataset.filter] are those the
    panel markup carries. *)
Record Click := {
  filterElement : option (option FilterType * option jsstring);
  removeBtn : option (option jsstring);
  clearFiltersBtn : bool;
  clearSiteFilterBtn : bool;
  clearTimeFilterBtn : bool;
  addSiteBtn : bool;
  settingsToggle : bool;
  toggleSwitch : option (option ToggleName);
  promptedName : option jsstring;
  promptedUrl : option jsstring;
  confirmAnswer : bool
}.

Section PanelEvents.

Variable toUpperCase : jsstring -> jsstring.

(** The click listener of [setupPanelEvents]. *)
Definition panelClick (p : Panel) (e : Click) : Panel :=
  match filterElement e with
  | Some (Some type, Some (c :: value)) =>
      withEngine p (selectFilter (engine p) type (c :: value))
  | _ =>
      match removeBtn e with
      | Some site =>
          withEngine p
            (removeCustomSite (engine p) (default [] site) (confirmAnswer e))
      | None =>
          if clearFiltersBtn e then
            withEngine p (clearAllFilters (engine p))
          else if clearSiteFilterBtn e then
            withEngine p (clearSiteFilter (engine p))
          else if clearTimeFilterBtn e then
            withEngine p (clearTimeFilter (engine p))
          else if addSiteBtn e then
            withEngine p
              (addCustomSite toUpperCase (engine p)
                 (promptedName e) (promptedUrl e))
          else if settingsToggle e then toggleSettingsCollapse p
          else
            match toggleSwitch e with
            | Some (Some AutoOpen) => toggleAutoOpen p
            | Some (Some (Persistence filterType)) =>
                withEngine p (togglePersistence (engine p) filterType)
            | _ => p
            end
      end
  end.

End PanelEvents.

(** The value that a click on a filter element asks for is a code of the
    catalog as it is at the time of the click. *)
Definition legalClick (p : Panel) (e : Click) : bool :=
  match filterElement e with
  | Some (Some type, Some value) =>
      validValue (filtersSite (engine p)) type value
  | _ => true
  end.




(** ** Predicates on queries *)

(** Wherever [site:] occurs in [o], white space follows or [o] ends: [o]
    has no site operator with an operand. *)
Definition noSiteOperator (o : jsstring) : Prop :=
  forall a c b, o = a ++ js "site:" ++ c :: b -> Str.isWhiteSpace c = true.

(** [o] is empty or starts with white space. *)
Definition startsBlank (o : jsstring) : Prop :=
  match o with
  | [] => True
  | x :: _ => Str.isWhiteSpace x = true
  end.

(** ** Parameters of the address *)

(** The parameters that [applyFilters] writes. *)
Definition engineParams : list jsstring :=
  [js "q"; js "lr"; js "tbs"; js "hl"; js "gl"].

(** The pairs of the other parameters, in their order. *)
Definition otherParams (ps : list (jsstring * jsstring))
  : list (jsstring * jsstring) :=
  List.filter (fun p => negb (bool_decide (p.1 ∈ engineParams))) ps.

(** No suffix of [o] is white space only: [o] is empty or ends with a
    visible character. *)
Definition noBlankSuffix (o : jsstring) : Prop :=
  forall a b, o = a ++ b -> b <> [] -> forallb Str.isWhiteSpace b = false.

(** A site operand: not empty, no white space. *)
Definition isOperand (host : jsstring) : Prop :=
  host <> [] /\ forallb (fun c => negb (Str.isWhiteSpace c)) host = true.

(** * Properties *)

(** ** Basic facts about the state *)

Lemma getFilter_setFilter cf t v : getFilter (setFilter cf t v) t = v.
Proof. by destruct t. Qed.

Lemma getFilter_setFilter_ne cf t t' v :
  t <> t' -> getFilter (setFilter cf t v) t' = getFilter cf t'.
Proof. by destruct t, t'. Qed.

Lemma getPersist_setPersist ps t b : getPersist (setPersist ps t b) t = b.
Proof. by destruct t. Qed.

Lemma setFilter_same cf t : setFilter cf t (getFilter cf t) = cf.
Proof. by destruct cf, t. Qed.

Lemma sameState_refl w : sameState w w.
Proof. by repeat split. Qed.

Lemma sameState_emit w e : sameState w (emit w e).
Proof. by repeat split. Qed.

Lemma sameState_trans w1 w2 w3 :
  sameState w1 w2 -> sameState w2 w3 -> sameState w1 w3.
Proof.
  intros (? & ? & ? & ? & ?) (? & ? & ? & ? & ?).
  repeat split; congruence.
Qed.

Lemma applyInterfaceLanguage_sameState w c :
  sameState w (applyInterfaceLanguage w c).
Proof.
  unfold applyInterfaceLanguage.
  repeat (case_decide || case_match);
    auto using sameState_refl, sameState_emit.
  all: by repeat split.
Qed.

Lemma applyRegionChange_sameState w c :
  sameState w (applyRegionChange w c).
Proof.
  unfold applyRegionChange.
  repeat (case_decide || case_match);
    auto using sameState_refl, sameState_emit.
  all: by repeat split.
Qed.

Lemma persistIfEnabled_currentFilters w t v :
  currentFilters (persistIfEnabled w t v) = currentFilters w.
Proof. unfold persistIfEnabled. by case_match. Qed.

Lemma persistIfEnabled_persistenceSettings w t v :
  persistenceSettings (persistIfEnabled w t v) = persistenceSettings w.
Proof. unfold persistIfEnabled. by case_match. Qed.

(** After [selectFilter] the selection of the category is the requested
    value, whatever the value is. *)
Lemma selectFilter_currentFilters w t v :
  currentFilters (selectFilter w t v) = setFilter (currentFilters w) t v.
Proof.
  unfold selectFilter. case_decide as Heq.
  - by rewrite <- Heq, setFilter_same.
  - destruct t.
    2: { destruct (applyInterfaceLanguage_sameState
                     (persistIfEnabled
                        (withCurrentFilters w
                           (setFilter (currentFilters w) InterfaceLang v))
                        InterfaceLang v) v) as (_ & _ & -> & _).
         by rewrite persistIfEnabled_currentFilters. }
    2: { destruct (applyRegionChange_sameState
                     (persistIfEnabled
                        (withCurrentFilters w
                           (setFilter (currentFilters w) Region v))
                        Region v) v) as (_ & _ & -> & _).
         by rewrite persistIfEnabled_currentFilters. }
    all: repeat case_match; unfold showToast, emit;
      cbn [currentFilters]; by rewrite persistIfEnabled_currentFilters.
Qed.

Lemma persistIfEnabled_localStorage w t v :
  localStorage (persistIfEnabled w t v)
  = if getPersist (persistenceSettings w) t
    then <[getStorageKey t := v]> (localStorage w)
    else localStorage w.
Proof. unfold persistIfEnabled. by case_match. Qed.

Lemma selectFilter_localStorage w t v :
  getFilter (currentFilters w) t <> v ->
  localStorage (selectFilter w t v)
  = if getPersist (persistenceSettings w) t
    then <[getStorageKey t := v]> (localStorage w)
    else localStorage w.
Proof.
  intros Hne.
  transitivity
    (localStorage
       (persistIfEnabled
          (withCurrentFilters w (setFilter (currentFilters w) t v)) t v));
    [| rewrite persistIfEnabled_localStorage; reflexivity ].
  unfold selectFilter. case_decide; [done |].
  destruct t.
  2: { by destruct (applyInterfaceLanguage_sameState
                      (persistIfEnabled
                         (withCurrentFilters w
                            (setFilter (currentFilters w) InterfaceLang v))
                         InterfaceLang v) v) as (_ & _ & _ & -> & _). }
  2: { by destruct (applyRegionChange_sameState
                      (persistIfEnabled
                         (withCurrentFilters w
                            (setFilter (currentFilters w) Region v))
                         Region v) v) as (_ & _ & _ & -> & _). }
  all: by repeat case_match.
Qed.

(** ** Selection *)

(** C8.  Selecting the code that is already selected returns at once: the
    world, and with it the selection, the store and the trace of store
    writes, is the one before the call.  Two identical calls in a row
    therefore leave the world the first call produced. *)
Theorem selectFilter_idempotent w t v :
  (getFilter (currentFilters w) t = v -> selectFilter w t v = w)
  /\ selectFilter (selectFilter w t v) t v = selectFilter w t v.
Proof.
  assert (Hnoop : forall w0, getFilter (currentFilters w0) t = v ->
                             selectFilter w0 t v = w0).
  { intros w0 H. unfold selectFilter. by rewrite decide_True. }
  split; [apply Hnoop |].
  apply Hnoop. rewrite selectFilter_currentFilters.
  apply getFilter_setFilter.
Qed.

Lemma selectFilter_idempotent_witness :
  let w := Sample.world filters.site Sample.allOn Sample.neutral
             Sample.resultsPage in
  selectFilter w SearchLang (js "all") = w
  /\ selectFilter (selectFilter w Time (js "week")) Time (js "week")
     = selectFilter w Time (js "week").
Proof.
  intros w. split.
  - apply (proj1 (selectFilter_idempotent w SearchLang (js "all"))).
    reflexivity.
  - apply (proj2 (selectFilter_idempotent w Time (js "week"))).
Defined.

(** C3, as stated, fails: a code that [filters.site] does not contain is
    selected and stored like any other. *)
Lemma selectFilter_accepts_unknown_code :
  let w := Sample.world filters.site Sample.allOn Sample.neutral
             Sample.resultsPage in
  let w' := selectFilter w Site (js "twitter_com") in
  getProperty (filtersSite w) (js "twitter_com") = Missing
  /\ inCatalog (filtersSite w) Site (js "twitter_com") = false
  /\ site (currentFilters w) = js "all"
  /\ site (currentFilters w') = js "twitter_com"
  /\ localStorage w !! js "googleSearchSite" = None
  /\ localStorage w' !! js "googleSearchSite" = Some (js "twitter_com").
Proof. vm_compute. by repeat split. Qed.

(** C3, amended.  [selectFilter] does not consult the catalog.  For every
    category and every code other than the current selection, in the
    catalog or not, the selection of that category becomes the code and
    the other categories keep theirs; the code is written under the
    category's key when its persistence flag is on, and the store is left
    alone when it is off. *)
Theorem selectFilter_unvalidated w t v :
  getFilter (currentFilters w) t <> v ->
  let w' := selectFilter w t v in
  getFilter (currentFilters w') t = v
  /\ (forall t', t' <> t ->
        getFilter (currentFilters w') t' = getFilter (currentFilters w) t')
  /\ (getPersist (persistenceSettings w) t = true ->
        localStorage w' = <[getStorageKey t := v]> (localStorage w))
  /\ (getPersist (persistenceSettings w) t = false ->
        localStorage w' = localStorage w).
Proof.
  intros Hne w'. subst w'.
  rewrite selectFilter_currentFilters, selectFilter_localStorage by done.
  repeat split.
  - apply getFilter_setFilter.
  - intros t' Ht'. by apply getFilter_setFilter_ne.
  - by intros ->.
  - by intros ->.
Qed.

Lemma selectFilter_unvalidated_witness :
  let w := Sample.world filters.site Sample.allOn Sample.neutral
             Sample.resultsPage in
  let w' := selectFilter w Site (js "twitter_com") in
  getFilter (currentFilters w') Site = js "twitter_com"
  /\ localStorage w' = <[js "googleSearchSite" := js "twitter_com"]> ∅.
Proof.
  intros w w'.
  assert (Hne : getFilter (currentFilters w) Site <> js "twitter_com")
    by (vm_compute; discriminate).
  destruct (selectFilter_unvalidated w Site (js "twitter_com") Hne)
    as (Hsel & _ & Hon & _).
  split; [exact Hsel | exact (Hon eq_refl)].
Defined.

(** ** Persistence toggle *)

(** C2, as stated, fails: switching persistence off also resets the
    selection held in memory. *)
Lemma togglePersistence_resets_selection :
  let w := Sample.world filters.site Sample.allOn
             (setFilter Sample.neutral SearchLang (js "tr"))
             Sample.resultsPage in
  let w' := togglePersistence w SearchLang in
  getPersist (persistenceSettings w) SearchLang = true
  /\ getPersist (persistenceSettings w') SearchLang = false
  /\ getFilter (currentFilters w) SearchLang = js "tr"
  /\ getFilter (currentFilters w') SearchLang = js "all"
  /\ getFilter (currentFilters w') SearchLang
     <> getFilter (currentFilters w) SearchLang.
Proof. vm_compute. by repeat split. Qed.

(** C2, amended.  Switching a category's persistence off removes the
    category's key from the store and resets the selection held in memory
    to the category's neutral value; switching it on writes the selection
    held in memory to the store and leaves the selection as it is. *)
Theorem togglePersistence_spec w t :
  let w' := togglePersistence w t in
  (getPersist (persistenceSettings w) t = true ->
     getPersist (persistenceSettings w') t = false
     /\ localStorage w' !! getStorageKey t = None
     /\ currentFilters w' = setFilter (currentFilters w) t (defaultValue t))
  /\ (getPersist (persistenceSettings w) t = false ->
     getPersist (persistenceSettings w') t = true
     /\ localStorage w' !! getStorageKey t
        = Some (getFilter (currentFilters w) t)
     /\ currentFilters w' = currentFilters w).
Proof.
  intros w'. subst w'. unfold togglePersistence.
  split; intros Hflag; rewrite Hflag; cbn [negb];
    unfold showToast, emit, removeItem, setItem, withCurrentFilters,
      withPersistenceSettings;
    cbn [persistenceSettings localStorage currentFilters].
  - split; [apply getPersist_setPersist |].
    split; [apply lookup_delete_eq | done].
  - split; [apply getPersist_setPersist |].
    split; [apply lookup_insert_eq | done].
Qed.

Lemma togglePersistence_spec_witness :
  let off := Sample.world filters.site Sample.allOff
               (setFilter Sample.neutral Region (js "tr"))
               Sample.resultsPage in
  let on := Sample.world filters.site Sample.allOn
              (setFilter Sample.neutral Region (js "tr"))
              Sample.resultsPage in
  (localStorage (togglePersistence on Region) !! js "googleSearchRegion" = None
   /\ region (currentFilters (togglePersistence on Region)) = js "auto")
  /\ (localStorage (togglePersistence off Region) !! js "googleSearchRegion"
      = Some (js "tr")
      /\ region (currentFilters (togglePersistence off Region)) = js "tr").
Proof.
  intros off on. split.
  - destruct (proj1 (togglePersistence_spec on Region) eq_refl)
      as (_ & Hstore & Hcf).
    split; [exact Hstore | by rewrite Hcf].
  - destruct (proj2 (togglePersistence_spec off Region) eq_refl)
      as (_ & Hstore & Hcf).
    split; [exact Hstore | by rewrite Hcf].
Defined.

(** ** Start-up *)

(** The literal keys of the initialisers are the keys [getStorageKey]
    computes. *)
Lemma loadCurrentFilters_getFilter ps ls t :
  getFilter (loadCurrentFilters ps ls) t
  = if getPersist ps t
    then orDefault (ls !! getStorageKey t) (defaultValue t)
    else defaultValue t.
Proof. by destruct t. Qed.

Lemma validValue_default sites t : validValue sites t (defaultValue t) = true.
Proof. unfold validValue. by rewrite bool_decide_eq_true_2. Qed.

(** C4, as stated, fails: a stored code that the catalog does not contain
    becomes the initial selection. *)
Lemma loadInitial_keeps_unknown_code :
  let ls : gmap jsstring jsstring :=
    {[ js "googleSearchSearchLang" := js "zz" ]} in
  let w := loadInitial filters.site ls Sample.resultsPage in
  getPersist (persistenceSettings w) SearchLang = true
  /\ getProperty filters.searchLang (js "zz") = Missing
  /\ searchLang (currentFilters w) = js "zz"
  /\ validState (filtersSite w) (currentFilters w) = false.
Proof. vm_compute. by repeat split. Qed.

(** C4, amended.  For every category: with the persistence flag off the
    initial value is the category's neutral value whatever is stored; with
    the flag on it is the stored value when one is present and not empty,
    and the neutral value otherwise.  The stored value is not looked up in
    the catalog, so the state invariant holds after start-up when every
    non-empty value stored for a persisted category is a legal value of
    that category. *)
Theorem loadInitial_spec sites ls loc :
  let w := loadInitial sites ls loc in
  (forall t, getPersist (persistenceSettings w) t = false ->
             getFilter (currentFilters w) t = defaultValue t)
  /\ (forall t, getPersist (persistenceSettings w) t = true ->
                getFilter (currentFilters w) t
                = orDefault (ls !! getStorageKey t) (defaultValue t))
  /\ ((forall t v, getPersist (persistenceSettings w) t = true ->
                   ls !! getStorageKey t = Some v -> v <> [] ->
                   validValue sites t v = true) ->
      validState sites (currentFilters w) = true).
Proof.
  intros w. subst w. unfold loadInitial.
  cbn [persistenceSettings currentFilters].
  set (ps := loadPersistenceSettings ls).
  split; [| split].
  - intros t Hoff. by rewrite loadCurrentFilters_getFilter, Hoff.
  - intros t Hon. by rewrite loadCurrentFilters_getFilter, Hon.
  - intros Hstored. unfold validState. apply forallb_forall.
    intros t _. rewrite loadCurrentFilters_getFilter.
    destruct (getPersist ps t) eqn:Hflag; [| apply validValue_default].
    destruct (ls !! getStorageKey t) as [[| c s] |] eqn:Hls;
      cbn [orDefault]; try apply validValue_default.
    by apply Hstored.
Qed.

Lemma loadInitial_spec_witness :
  let ls : gmap jsstring jsstring :=
    {[ js "googleSearchSearchLang" := js "tr" ]} in
  let stale : gmap jsstring jsstring :=
    {[ js "googleSearchRegion" := js "us" ]} in
  region (currentFilters (loadInitial filters.site stale Sample.resultsPage))
  = js "auto"
  /\ searchLang (currentFilters (loadInitial filters.site ls Sample.resultsPage))
     = js "tr"
  /\ validState filters.site
       (currentFilters (loadInitial filters.site ls Sample.resultsPage))
     = true.
Proof.
  intros ls stale.
  destruct (loadInitial_spec filters.site stale Sample.resultsPage)
    as (Hoff & _ & _).
  destruct (loadInitial_spec filters.site ls Sample.resultsPage)
    as (_ & Hon & Hinv).
  split; [exact (Hoff Region eq_refl) |].
  split; [exact (Hon SearchLang eq_refl) |].
  apply Hinv. intros t v Hflag Hls Hv.
  destruct t; vm_compute in Hls; try discriminate.
  injection Hls as <-. reflexivity.
Defined.

(** ** Query parameters *)

Module ParamFacts.
Import URLSearchParams.

Lemma get_delete_eq ps n : get (delete ps n) n = None.
Proof.
  induction ps as [| [m v] ps IH]; [done |].
  unfold delete in *. cbn [List.filter fst].
  destruct (bool_decide_reflect (m = n)) as [-> | Hne]; cbn [negb]; [done |].
  cbn [get]. by rewrite decide_False.
Qed.

Lemma get_delete_ne ps n m : n <> m -> get (delete ps n) m = get ps m.
Proof.
  intros Hnm. induction ps as [| [k v] ps IH]; [done |].
  unfold delete in *. cbn [List.filter fst].
  destruct (bool_decide_reflect (k = n)) as [-> | Hne]; cbn [negb get].
  - by rewrite decide_False.
  - by rewrite IH.
Qed.

Lemma get_setPair_eq ps n v : get (setPair ps n v) n = Some v.
Proof.
  induction ps as [| [k x] ps IH]; cbn [setPair get].
  - by rewrite decide_True.
  - case_decide; cbn [get]; [by rewrite decide_True |].
    by rewrite decide_False.
Qed.

Lemma get_setPair_ne ps n m v : n <> m -> get (setPair ps n v) m = get ps m.
Proof.
  intros Hnm. induction ps as [| [k x] ps IH]; cbn [setPair get].
  - by rewrite decide_False.
  - case_decide as Hk; cbn [get].
    + subst k. rewrite !decide_False by done. by apply get_delete_ne.
    + by rewrite IH.
Qed.

Lemma get_set_eq ps n v : get (set ps n v) n = Some (Str.toUSVString v).
Proof. apply get_setPair_eq. Qed.

Lemma get_set_ne ps n m v : n <> m -> get (set ps n v) m = get ps m.
Proof. apply get_setPair_ne. Qed.

Lemma delete_idemp ps n : delete (delete ps n) n = delete ps n.
Proof.
  induction ps as [| [k v] ps IH]; [done |].
  unfold delete in *. cbn [List.filter fst].
  destruct (bool_decide_reflect (k = n)) as [-> | Hne]; cbn [negb]; [done |].
  cbn [List.filter fst]. rewrite bool_decide_eq_false_2 by done.
  cbn [negb]. by rewrite IH.
Qed.

(** [set] touches the pairs of its own name only. *)
Lemma delete_setPair ps n v : delete (setPair ps n v) n = delete ps n.
Proof.
  induction ps as [| [k x] ps IH]; cbn [setPair].
  - unfold delete. cbn [List.filter fst].
    by rewrite bool_decide_eq_true_2.
  - case_decide as Hk.
    + subst k. unfold delete at 1 3. cbn [List.filter fst].
      rewrite bool_decide_eq_true_2 by done. cbn [negb].
      apply delete_idemp.
    + unfold delete in *. cbn [List.filter fst].
      rewrite bool_decide_eq_false_2 by done. cbn [negb].
      by rewrite IH.
Qed.

Lemma delete_set ps n v : delete (set ps n v) n = delete ps n.
Proof. apply delete_setPair. Qed.

Lemma getOrEmpty_get ps n v : get ps n = Some v -> getOrEmpty ps n = v.
Proof. unfold getOrEmpty. by intros ->. Qed.

Lemma getOrEmpty_none ps n : get ps n = None -> getOrEmpty ps n = [].
Proof. unfold getOrEmpty. by intros ->. Qed.

End ParamFacts.

(** ** Isolated navigations *)

Lemma applyInterfaceLanguage_own w code d :
  ownProperty filters.interfaceLang code = Some d ->
  let currentUrl := href (location w) in
  applyInterfaceLanguage w code
  = emit (showToast w (js "Switching to " ++ il_name d ++ js "...") (js "info"))
      (SetTimeout 800
         (NavigateTo
            (withParams currentUrl
               match googleLang d with
               | Some lang =>
                   URLSearchParams.set (searchParams currentUrl) (js "hl") lang
               | None =>
                   URLSearchParams.delete (searchParams currentUrl) (js "hl")
               end))).
Proof.
  unfold filters.interfaceLang. cbn [ownProperty].
  intros H. repeat case_decide; simplify_eq; reflexivity.
Qed.

Lemma applyRegionChange_own w code d :
  ownProperty filters.region code = Some d ->
  let currentUrl := href (location w) in
  applyRegionChange w code
  = emit (showToast w (js "Switching to " ++ rg_name d ++ js "...") (js "info"))
      (SetTimeout 800
         (NavigateTo
            (withParams currentUrl
               match googleRegion d with
               | Some reg =>
                   URLSearchParams.set (searchParams currentUrl) (js "gl") reg
               | None =>
                   URLSearchParams.delete (searchParams currentUrl) (js "gl")
               end))).
Proof.
  unfold filters.region. cbn [ownProperty].
  intros H. repeat case_decide; simplify_eq; reflexivity.
Qed.

Lemma differsOnlyIn_withParams name value u :
  (forall v, value = Some v -> Str.toUSVString v = v) ->
  differsOnlyIn name value u
    (withParams u
       match value with
       | Some v => URLSearchParams.set (searchParams u) name v
       | None => URLSearchParams.delete (searchParams u) name
       end).
Proof.
  intros Hv.
  unfold differsOnlyIn, withParams. cbn [origin pathname hash searchParams].
  repeat split; destruct value as [v |];
    auto using ParamFacts.delete_set, ParamFacts.delete_idemp,
      ParamFacts.get_delete_eq.
  rewrite ParamFacts.get_set_eq. f_equal. by apply Hv.
Qed.

(** The parameter values of the catalog are plain ASCII. *)
Lemma googleLang_wellFormed code d v :
  ownProperty filters.interfaceLang code = Some d ->
  googleLang d = Some v -> Str.toUSVString v = v.
Proof.
  unfold filters.interfaceLang. cbn [ownProperty].
  intros H Hv. repeat case_decide; simplify_eq; cbn in Hv; by simplify_eq.
Qed.

Lemma googleRegion_wellFormed code d v :
  ownProperty filters.region code = Some d ->
  googleRegion d = Some v -> Str.toUSVString v = v.
Proof.
  unfold filters.region. cbn [ownProperty].
  intros H Hv. repeat case_decide; simplify_eq; cbn in Hv; by simplify_eq.
Qed.

(** C9.  For every interface-language code of the catalog,
    [applyInterfaceLanguage] shows a toast and schedules, 800 ms later, one
    navigation whose target differs from the current address only in [hl]:
    set to the code's Google language, removed for [auto].  Nothing else in
    the world changes.  [applyRegionChange] does the same with [gl]. *)
Theorem isolated_navigation w code :
  (forall d, ownProperty filters.interfaceLang code = Some d ->
     exists message target,
       effects (applyInterfaceLanguage w code)
       = SetTimeout 800 (NavigateTo target)
         :: Toast message (js "info") :: effects w
       /\ sameState w (applyInterfaceLanguage w code)
       /\ differsOnlyIn (js "hl") (googleLang d) (href (location w)) target)
  /\ (forall d, ownProperty filters.region code = Some d ->
     exists message target,
       effects (applyRegionChange w code)
       = SetTimeout 800 (NavigateTo target)
         :: Toast message (js "info") :: effects w
       /\ sameState w (applyRegionChange w code)
       /\ differsOnlyIn (js "gl") (googleRegion d) (href (location w)) target).
Proof.
  split; intros d Hd.
  - rewrite (applyInterfaceLanguage_own w code d Hd).
    eexists _, _. split; [reflexivity |].
    split; [by repeat split |].
    apply differsOnlyIn_withParams. intros v.
    apply (googleLang_wellFormed code d v Hd).
  - rewrite (applyRegionChange_own w code d Hd).
    eexists _, _. split; [reflexivity |].
    split; [by repeat split |].
    apply differsOnlyIn_withParams. intros v.
    apply (googleRegion_wellFormed code d v Hd).
Qed.

Lemma isolated_navigation_witness :
  let w := Sample.world filters.site Sample.allOn Sample.neutral
             (Sample.address
                [(js "q", js "foo"); (js "hl", js "en"); (js "gl", js "TR")]
                (js "?q=foo&hl=en&gl=TR")) in
  (exists message target,
     effects (applyInterfaceLanguage w (js "tr"))
     = SetTimeout 800 (NavigateTo target)
       :: Toast message (js "info") :: effects w
     /\ sameState w (applyInterfaceLanguage w (js "tr"))
     /\ differsOnlyIn (js "hl") (Some (js "tr")) (href (location w)) target)
  /\ (exists message target,
     effects (applyRegionChange w (js "auto"))
     = SetTimeout 800 (NavigateTo target)
       :: Toast message (js "info") :: effects w
     /\ sameState w (applyRegionChange w (js "auto"))
     /\ differsOnlyIn (js "gl") None (href (location w)) target).
Proof.
  intros w. split.
  - exact (proj1 (isolated_navigation w (js "tr")) _ eq_refl).
  - exact (proj2 (isolated_navigation w (js "auto")) _ eq_refl).
Defined.

(** ** Removing a custom site *)

Lemma ownProperty_delete_eq {A} (o : list (jsstring * A)) k :
  ownProperty (deleteProperty o k) k = None.
Proof.
  induction o as [| [k' a] o IH]; [done |].
  unfold deleteProperty in *. cbn [List.filter fst].
  destruct (bool_decide_reflect (k' = k)) as [-> | Hne]; cbn [negb]; [done |].
  cbn [ownProperty]. by rewrite decide_False.
Qed.

Lemma ownProperty_delete_ne {A} (o : list (jsstring * A)) k k' :
  k <> k' -> ownProperty (deleteProperty o k) k' = ownProperty o k'.
Proof.
  intros Hkk. induction o as [| [k0 a] o IH]; [done |].
  unfold deleteProperty in *. cbn [List.filter fst].
  destruct (bool_decide_reflect (k0 = k)) as [-> | Hne];
    cbn [negb ownProperty].
  - by rewrite decide_False.
  - by rewrite IH.
Qed.

Lemma removeCustomSite_confirmed w siteKey d :
  siteKey <> [] ->
  ownProperty (filtersSite w) siteKey = Some d ->
  isDefaultSite siteKey = false ->
  removeCustomSite w siteKey true
  = let w1 := withFiltersSite w (deleteProperty (filtersSite w) siteKey) in
    let w2 :=
      if decide (site (currentFilters w) = siteKey) then
        let w' :=
          withCurrentFilters w1 (setFilter (currentFilters w) Site (js "all")) in
        if persistSite (persistenceSettings w)
        then setItem w' (js "googleSearchSite") (js "all")
        else w'
      else w1 in
    showToast (saveCustomSites w2) (js "Site removed successfully")
      (js "success").
Proof.
  intros Hkey Hown Hdef. unfold removeCustomSite.
  rewrite decide_False by done.
  unfold getProperty. rewrite Hown, Hdef. reflexivity.
Qed.

(** C10.  Removing the custom site that is currently selected, once the
    user has confirmed, takes its entry out of [filters.site], resets the
    selection held in memory to [all], and writes [all] under
    [googleSearchSite] exactly when the site persistence flag is on: with
    the flag off the only store write is the one of the custom-site list
    and [googleSearchSite] keeps its content.  Whatever key is passed and
    whatever the user answers, a site selection that is [all] or an entry
    of [filters.site] before the call is so after it. *)
Theorem removeCustomSite_selected w siteKey :
  (forall d,
     siteKey <> [] ->
     ownProperty (filtersSite w) siteKey = Some d ->
     isDefaultSite siteKey = false ->
     site (currentFilters w) = siteKey ->
     let w' := removeCustomSite w siteKey true in
     site (currentFilters w') = js "all"
     /\ ownProperty (filtersSite w') siteKey = None
     /\ (exists saved,
           effects w'
           = Toast (js "Site removed successfully") (js "success")
             :: SetItem (js "googleSearchCustomSites") saved
             :: (if persistSite (persistenceSettings w)
                 then [SetItem (js "googleSearchSite") (js "all")]
                 else [])
             ++ effects w)
     /\ localStorage w' !! js "googleSearchSite"
        = if persistSite (persistenceSettings w)
          then Some (js "all")
          else localStorage w !! js "googleSearchSite")
  /\ (forall confirmed,
        validValue (filtersSite w) Site (site (currentFilters w)) = true ->
        let w' := removeCustomSite w siteKey confirmed in
        validValue (filtersSite w') Site (site (currentFilters w')) = true).
Proof.
  split.
  - intros d Hkey Hown Hdef Hsel w'. subst w'.
    rewrite (removeCustomSite_confirmed w siteKey d) by done.
    cbv zeta. rewrite decide_True by done.
    assert (Hk : js "googleSearchCustomSites" <> js "googleSearchSite")
      by (vm_compute; discriminate).
    destruct (persistSite (persistenceSettings w)) eqn:Hflag;
      unfold showToast, emit, saveCustomSites, setItem, withCurrentFilters,
        withFiltersSite;
      cbn [currentFilters filtersSite effects localStorage setFilter site].
    + repeat split.
      * apply ownProperty_delete_eq.
      * eexists. reflexivity.
      * rewrite lookup_insert_ne by done. apply lookup_insert_eq.
    + repeat split.
      * apply ownProperty_delete_eq.
      * eexists. reflexivity.
      * by rewrite lookup_insert_ne.
  - intros confirmed Hvalid w'. subst w'. unfold removeCustomSite.
    case_decide; [done |].
    destruct (truthy _); cbn [negb]; [| done].
    destruct (isDefaultSite siteKey); [done |].
    destruct confirmed; [| done].
    case_decide as Hsel.
    + transitivity (validValue
                      (deleteProperty (filtersSite w) siteKey) Site (js "all"));
        [by destruct (persistSite _) | apply validValue_default].
    + unfold showToast, emit, saveCustomSites, setItem, withFiltersSite in *.
      cbn [currentFilters filtersSite] in *.
      unfold validValue, inCatalog, hasOwn in *.
      by rewrite ownProperty_delete_ne.
Qed.

Lemma removeCustomSite_selected_witness :
  let w := Sample.world (filters.site ++ [Sample.twitter]) Sample.allOn
             (setFilter Sample.neutral Site (js "twitter_com"))
             Sample.resultsPage in
  let w' := removeCustomSite w (js "twitter_com") true in
  site (currentFilters w') = js "all"
  /\ ownProperty (filtersSite w') (js "twitter_com") = None
  /\ localStorage w' !! js "googleSearchSite" = Some (js "all")
  /\ validValue (filtersSite w') Site (site (currentFilters w')) = true.
Proof.
  intros w w'.
  assert (Hkey : js "twitter_com" <> []) by (vm_compute; discriminate).
  destruct (proj1 (removeCustomSite_selected w (js "twitter_com"))
              Sample.twitter.2 Hkey eq_refl eq_refl eq_refl)
    as (Hsel & Hgone & _ & Hstore).
  pose proof (proj2 (removeCustomSite_selected w (js "twitter_com"))
                true eq_refl) as Hvalid.
  exact (conj Hsel (conj Hgone (conj Hstore Hvalid))).
Defined.

(** ** Validation of a custom site *)

Lemma escapeChar_length c : (1 <= length (escapeChar c))%nat.
Proof. unfold escapeChar. repeat case_match; cbn; lia. Qed.

Lemma flat_map_escapeChar_length s :
  (length s <= length (flat_map escapeChar s))%nat.
Proof.
  induction s as [| c s IH]; cbn [flat_map]; [done |].
  rewrite length_app. pose proof (escapeChar_length c). cbn [length]. lia.
Qed.

(** A name that contains [&], [<], [>] or U+00A0 does not sanitize to
    itself. *)
Lemma sanitizeHTML_markup s c :
  In c s -> In c [38; 60; 62; 160]%N -> sanitizeHTML s <> s.
Proof.
  intros Hin Hc. unfold sanitizeHTML.
  destruct (isValidNonEmptyString s); [| by destruct s].
  intros Heq. apply (f_equal length) in Heq. revert Heq.
  induction s as [| x s IH]; [done |].
  cbn [flat_map]. rewrite length_app. cbn [length].
  pose proof (flat_map_escapeChar_length s).
  pose proof (escapeChar_length x).
  destruct Hin as [-> | Hin].
  - assert (2 <= length (escapeChar c))%nat; [| lia].
    cbn in Hc. destruct Hc as [<- | [<- | [<- | [<- | []]]]]; cbn; lia.
  - intros Heq. apply IH; [done | lia].
Qed.

Lemma isValidNonEmptyString_true s :
  Str.trim s <> [] -> isValidNonEmptyString s = true.
Proof.
  intros H. unfold isValidNonEmptyString.
  by rewrite bool_decide_eq_false_2.
Qed.

(** C7.  While the limit of custom sites is not reached, [addCustomSite]
    refuses
    - a name whose trimmed length exceeds 20, with "Site name too long";
    - a name of legal length that HTML-escaping would change, with "Invalid
      characters in site name";
    - after an accepted name, a non-blank domain input that does not match
      the host pattern once scheme and path are stripped, with "Invalid URL
      format";
    and in each case nothing but the toast happens: [filters.site], the
    store and the selection are what they were. *)
Theorem addCustomSite_rejects toUpperCase w siteName siteUrl :
  (Z.of_nat (length (filtersSite w)) - Z.of_nat (length DEFAULT_SITES)
   < Z.of_nat CONFIG.MAX_CUSTOM_SITES)%Z ->
  let trimmedName := Str.trim siteName in
  ((CONFIG.MAX_SITE_NAME_LENGTH < length trimmedName)%nat ->
     rejectedWith w
       (addCustomSite toUpperCase w (Some siteName) siteUrl)
       (js "Site name too long"))
  /\ (trimmedName <> [] ->
      (length trimmedName <= CONFIG.MAX_SITE_NAME_LENGTH)%nat ->
      sanitizeHTML trimmedName <> trimmedName ->
      rejectedWith w
        (addCustomSite toUpperCase w (Some siteName) siteUrl)
        (js "Invalid characters in site name"))
  /\ (trimmedName <> [] ->
      (length trimmedName <= CONFIG.MAX_SITE_NAME_LENGTH)%nat ->
      sanitizeHTML trimmedName = trimmedName ->
      forall url,
        siteUrl = Some url ->
        Str.trim url <> [] ->
        URL_VALIDATION_REGEX_test (cleanURLDomain url) = false ->
        rejectedWith w
          (addCustomSite toUpperCase w (Some siteName) siteUrl)
          (js "Invalid URL format")).
Proof.
  intros Hcap trimmedName. unfold addCustomSite.
  rewrite (proj2 (Z.leb_gt _ _)) by exact Hcap.
  fold trimmedName.
  split; [| split].
  - intros Hlong.
    rewrite isValidNonEmptyString_true
      by (intros E; fold trimmedName in E; rewrite E in Hlong; cbn in Hlong; lia).
    cbn [negb]. rewrite (proj2 (Nat.ltb_lt _ _)) by exact Hlong.
    split; [by repeat split | reflexivity].
  - intros Hne Hlen Hbad.
    rewrite isValidNonEmptyString_true by exact Hne.
    cbn [negb]. rewrite (proj2 (Nat.ltb_ge _ _)) by exact Hlen.
    rewrite bool_decide_eq_false_2 by exact Hbad. cbn [negb].
    split; [by repeat split | reflexivity].
  - intros Hne Hlen Hok url -> Hurl Hpattern.
    rewrite isValidNonEmptyString_true by exact Hne.
    cbn [negb]. rewrite (proj2 (Nat.ltb_ge _ _)) by exact Hlen.
    rewrite bool_decide_eq_true_2 by exact Hok. cbn [negb].
    rewrite (isValidNonEmptyString_true url) by exact Hurl. cbn [negb].
    unfold isValidURL.
    rewrite (isValidNonEmptyString_true url) by exact Hurl.
    rewrite Hpattern, andb_false_r. cbn [negb].
    split; [by repeat split | reflexivity].
Qed.

(** The three rejections of the specification:
    [("a" * 21, "x.com")], [("<b>x</b>", "x.com")] and
    [("ok", "not a domain")]. *)
Lemma addCustomSite_rejects_witness :
  let w := Sample.world filters.site Sample.allOn Sample.neutral
             Sample.resultsPage in
  rejectedWith w
    (addCustomSite Sample.upper w (Some (js "aaaaaaaaaaaaaaaaaaaaa"))
       (Some (js "x.com")))
    (js "Site name too long")
  /\ rejectedWith w
       (addCustomSite Sample.upper w (Some (js "<b>x</b>"))
          (Some (js "x.com")))
       (js "Invalid characters in site name")
  /\ rejectedWith w
       (addCustomSite Sample.upper w (Some (js "ok"))
          (Some (js "not a domain")))
       (js "Invalid URL format").
Proof.
  intros w.
  assert (Hcap : (Z.of_nat (length (filtersSite w))
                  - Z.of_nat (length DEFAULT_SITES)
                  < Z.of_nat CONFIG.MAX_CUSTOM_SITES)%Z)
    by (vm_compute; reflexivity).
  split; [| split].
  - apply (proj1 (addCustomSite_rejects Sample.upper w
                    (js "aaaaaaaaaaaaaaaaaaaaa") (Some (js "x.com")) Hcap)).
    vm_compute. lia.
  - apply (proj1 (proj2 (addCustomSite_rejects Sample.upper w
                           (js "<b>x</b>") (Some (js "x.com")) Hcap))).
    + vm_compute. discriminate.
    + vm_compute. lia.
    + vm_compute. discriminate.
  - apply (proj2 (proj2 (addCustomSite_rejects Sample.upper w
                           (js "ok") (Some (js "not a domain")) Hcap))
             ltac:(vm_compute; discriminate) ltac:(vm_compute; lia)
             ltac:(vm_compute; reflexivity) (js "not a domain") eq_refl).
    + vm_compute. discriminate.
    + vm_compute. reflexivity.
Defined.

(** ** Inbound parse *)

Lemma syncInterfaceLang_other hl cf t :
  t <> InterfaceLang -> getFilter (syncInterfaceLang hl cf) t = getFilter cf t.
Proof.
  intros Ht. unfold syncInterfaceLang. case_decide; [done |].
  by apply getFilter_setFilter_ne.
Qed.

Lemma syncRegion_other gl cf t :
  t <> Region -> getFilter (syncRegion gl cf) t = getFilter cf t.
Proof.
  intros Ht. unfold syncRegion. case_decide; [done |].
  by apply getFilter_setFilter_ne.
Qed.

Lemma syncSite_other sites q cf t :
  t <> Site -> getFilter (syncSite sites q cf) t = getFilter cf t.
Proof.
  intros Ht. unfold syncSite. case_match; [| done].
  by apply getFilter_setFilter_ne.
Qed.

Lemma syncSearchLang_other lr cf t :
  t <> SearchLang -> getFilter (syncSearchLang lr cf) t = getFilter cf t.
Proof.
  intros Ht. unfold syncSearchLang. case_decide; [done |].
  case_match; [| done]. by apply getFilter_setFilter_ne.
Qed.

Lemma syncCustomDateRange_other utcOffset cf tbs t :
  t <> Time ->
  getFilter (syncCustomDateRange utcOffset cf tbs) t = getFilter cf t.
Proof.
  intros Ht. unfold syncCustomDateRange.
  repeat case_match; try done. by apply getFilter_setFilter_ne.
Qed.

Lemma syncTime_other utcOffset tbs cf t :
  t <> Time -> getFilter (syncTime utcOffset tbs cf) t = getFilter cf t.
Proof.
  intros Ht. unfold syncTime. case_decide; [done |].
  case_match; [by apply syncCustomDateRange_other |].
  case_match; [| done]. by apply getFilter_setFilter_ne.
Qed.

Lemma syncCustomDateRange_twoYearRange utcOffset cf tbs :
  syncCustomDateRange utcOffset cf tbs
  = if twoYearRange utcOffset tbs then setFilter cf Time (js "2year") else cf.
Proof.
  unfold syncCustomDateRange, twoYearRange.
  destruct (dateMatch tbs) as [[min max] |]; reflexivity.
Qed.

(** Each category is written by its own block only. *)
Lemma syncFiltersFromURL_getFilter utcOffset w t :
  let params := searchParams (href (location w)) in
  let cf := currentFilters w in
  getFilter (currentFilters (syncFiltersFromURL utcOffset w)) t
  = match t with
    | InterfaceLang =>
        getFilter
          (syncInterfaceLang (URLSearchParams.getOrEmpty params (js "hl")) cf) t
    | Region =>
        getFilter (syncRegion (URLSearchParams.getOrEmpty params (js "gl")) cf) t
    | Site =>
        if isSearchPage w
        then getFilter
               (syncSite (filtersSite w)
                  (URLSearchParams.getOrEmpty params (js "q")) cf) t
        else getFilter cf t
    | SearchLang =>
        if isSearchPage w
        then getFilter
               (syncSearchLang (URLSearchParams.getOrEmpty params (js "lr")) cf) t
        else getFilter cf t
    | Time =>
        if isSearchPage w
        then getFilter
               (syncTime utcOffset
                  (URLSearchParams.getOrEmpty params (js "tbs")) cf) t
        else getFilter cf t
    end.
Proof.
  intros params cf. unfold syncFiltersFromURL. fold params. fold cf.
  set (cf2 := syncRegion _ (syncInterfaceLang _ cf)).
  assert (Hcf2 : forall t', t' <> InterfaceLang -> t' <> Region ->
                            getFilter cf2 t' = getFilter cf t').
  { intros t' H1 H2. unfold cf2.
    by rewrite syncRegion_other, syncInterfaceLang_other. }
  destruct (isSearchPage w); cbn [negb];
    unfold withCurrentFilters; cbn [currentFilters].
  - destruct t.
    + rewrite syncTime_other by done.
      unfold syncSearchLang. case_decide.
      * by rewrite syncSite_other, Hcf2.
      * case_match; [by rewrite !getFilter_setFilter |].
        by rewrite syncSite_other, Hcf2.
    + rewrite syncTime_other, syncSearchLang_other, syncSite_other by done.
      unfold cf2. by rewrite syncRegion_other.
    + rewrite syncTime_other, syncSearchLang_other, syncSite_other by done.
      unfold cf2, syncRegion. case_decide.
      * by rewrite syncInterfaceLang_other.
      * by rewrite !getFilter_setFilter.
    + rewrite syncTime_other, syncSearchLang_other by done.
      unfold syncSite. case_match; [by rewrite !getFilter_setFilter |].
      by rewrite Hcf2.
    + unfold syncTime. case_decide.
      * by rewrite syncSearchLang_other, syncSite_other, Hcf2.
      * case_match.
        -- rewrite !syncCustomDateRange_twoYearRange.
           case_match; [by rewrite !getFilter_setFilter |].
           by rewrite syncSearchLang_other, syncSite_other, Hcf2.
        -- case_match; [by rewrite !getFilter_setFilter |].
           by rewrite syncSearchLang_other, syncSite_other, Hcf2.
  - destruct t; try (by apply Hcf2).
    + unfold cf2. by rewrite syncRegion_other.
    + unfold cf2, syncRegion. case_decide.
      * by rewrite syncInterfaceLang_other.
      * by rewrite !getFilter_setFilter.
Qed.

Lemma siteFor_nil sites : siteFor sites [] = None.
Proof.
  unfold siteFor. induction sites as [| [k d] sites IH]; [done |].
  cbn [findEntry]. destruct (query d) as [| c s] eqn:Hq; [done |].
  exact IH.
Qed.

(** C5, as stated, fails: an [hl] value that no interface-language
    definition carries puts the interface language back to [auto]. *)
Lemma syncFiltersFromURL_resets_on_unknown_hl :
  let w := Sample.world filters.site Sample.allOn
             (setFilter Sample.neutral InterfaceLang (js "tr"))
             (Sample.address [(js "q", js "foo"); (js "hl", js "de")]
                (js "?q=foo&hl=de")) in
  URLSearchParams.get (searchParams (href (location w))) (js "hl")
  = Some (js "de")
  /\ interfaceLangFor (js "de") = None
  /\ interfaceLang (currentFilters w) = js "tr"
  /\ interfaceLang (currentFilters (syncFiltersFromURL Sample.utc w))
     = js "auto".
Proof. vm_compute. by repeat split. Qed.

(** C5, amended.  For every starting state and every address:
    - [q] that is absent or in which no site fragment occurs, [lr] that is absent or names no
      property of the result-language table, and [tbs] that is absent or is
      neither a relative-duration token of the catalog nor a two-year date
      range, leave site, result language and time at their values before
      the parse (off a results page the three are not read at all);
    - [hl] or [gl] that is absent or empty leaves interface language or
      region at its value before the parse;
    - [hl] or [gl] that is present with a value no definition carries sets
      interface language or region to [auto]. *)
Theorem syncFiltersFromURL_unrecognized utcOffset w :
  let params := searchParams (href (location w)) in
  let q := URLSearchParams.getOrEmpty params (js "q") in
  let lr := URLSearchParams.getOrEmpty params (js "lr") in
  let tbs := URLSearchParams.getOrEmpty params (js "tbs") in
  let hl := URLSearchParams.getOrEmpty params (js "hl") in
  let gl := URLSearchParams.getOrEmpty params (js "gl") in
  let cf := currentFilters w in
  let cf' := currentFilters (syncFiltersFromURL utcOffset w) in
  (q = [] \/ siteFor (filtersSite w) q = None -> site cf' = site cf)
  /\ (lr = [] \/ truthy (getProperty filters.searchLang
                           (Str.removeFirst lr (js "lang_"))) = false ->
      searchLang cf' = searchLang cf)
  /\ (tbs = [] \/ recognizedTime utcOffset tbs = false -> time cf' = time cf)
  /\ (hl = [] -> interfaceLang cf' = interfaceLang cf)
  /\ (gl = [] -> region cf' = region cf)
  /\ (hl <> [] -> interfaceLangFor hl = None -> interfaceLang cf' = js "auto")
  /\ (gl <> [] -> regionFor gl = None -> region cf' = js "auto").
Proof.
  intros params q lr tbs hl gl cf cf'.
  pose proof (syncFiltersFromURL_getFilter utcOffset w) as H. cbv zeta in H.
  fold params cf cf' in H.
  pose proof (H Site) as HS. pose proof (H SearchLang) as HL.
  pose proof (H Time) as HT. pose proof (H InterfaceLang) as HI.
  pose proof (H Region) as HR. cbn [getFilter] in HS, HL, HT, HI, HR.
  fold q in HS. fold lr in HL. fold tbs in HT. fold hl in HI. fold gl in HR.
  repeat split.
  - intros Hq. rewrite HS. unfold syncSite.
    assert (Hnone : siteFor (filtersSite w) q = None)
      by (destruct Hq as [-> | ?]; [apply siteFor_nil | done]).
    rewrite Hnone. by case_match.
  - intros Hlr. rewrite HL. unfold syncSearchLang.
    destruct (isSearchPage w); [| done].
    case_decide; [done |]. destruct Hlr as [? | ->]; done.
  - intros Htbs. rewrite HT. unfold syncTime.
    destruct (isSearchPage w); [| done].
    case_decide; [done |]. destruct Htbs as [? | Hrec]; [done |].
    unfold recognizedTime in Hrec. case_match.
    + by rewrite syncCustomDateRange_twoYearRange, Hrec.
    + apply bool_decide_eq_false_1 in Hrec.
      destruct (timeFor tbs); [| done]. by destruct Hrec.
  - intros Hhl. rewrite HI. unfold syncInterfaceLang. by rewrite decide_True.
  - intros Hgl. rewrite HR. unfold syncRegion. by rewrite decide_True.
  - intros Hhl Hnone. rewrite HI. unfold syncInterfaceLang.
    by rewrite decide_False, Hnone.
  - intros Hgl Hnone. rewrite HR. unfold syncRegion.
    by rewrite decide_False, Hnone.
Qed.

Lemma syncFiltersFromURL_unrecognized_witness :
  let cf := {| searchLang := js "tr"; interfaceLang := js "en";
               region := js "us"; site := js "reddit"; time := js "week" |} in
  let w := Sample.world filters.site Sample.allOn cf
             (Sample.address
                [(js "q", js "foo"); (js "lr", js "lang_de");
                 (js "tbs", js "qdr:h"); (js "gl", js "FR")]
                (js "?q=foo&lr=lang_de&tbs=qdr%3Ah&gl=FR")) in
  let cf' := currentFilters (syncFiltersFromURL Sample.shifting w) in
  site cf' = js "reddit" /\ searchLang cf' = js "tr" /\ time cf' = js "week"
  /\ interfaceLang cf' = js "en" /\ region cf' = js "auto".
Proof.
  intros cf w cf'.
  destruct (syncFiltersFromURL_unrecognized Sample.shifting w)
    as (Hsite & Hlang & Htime & Hhl & _ & _ & Hgl).
  refine (conj (Hsite _) (conj (Hlang _) (conj (Htime _)
            (conj (Hhl _) (Hgl _ _))))).
  - right. vm_compute. reflexivity.
  - right. vm_compute. reflexivity.
  - right. vm_compute. reflexivity.
  - vm_compute. reflexivity.
  - vm_compute. discriminate.
  - vm_compute. reflexivity.
Defined.

(** ** Two-year detection *)

Lemma isTwoYearSpan_years utcOffset s e :
  isTwoYearSpan utcOffset s e = true
  <-> (18 # 10 <= yearsDiff utcOffset s e)%Q
      /\ (yearsDiff utcOffset s e <= 22 # 10)%Q.
Proof.
  unfold isTwoYearSpan. rewrite andb_true_iff, !Qle_bool_iff. reflexivity.
Qed.

(** In milliseconds: a span of 1.8 to 2.2 years. *)
Lemma yearsDiff_ms utcOffset s e :
  ((18 # 10 <= yearsDiff utcOffset s e)%Q
   <-> (56803680000 <= JsDate.diff utcOffset e s)%Z)
  /\ ((yearsDiff utcOffset s e <= 22 # 10)%Q
      <-> (JsDate.diff utcOffset e s <= 69426720000)%Z).
Proof.
  unfold yearsDiff. set (d := JsDate.diff utcOffset e s).
  change ((36525 # 100) * 24 * 60 * 60 * 1000)%Q
    with (3155760000000 # 100)%Q.
  unfold Qle, Qdiv, Qmult, Qinv, inject_Z.
  cbn [Qnum Qden].
  split; lia.
Qed.

(** In whole days, where both midnights have the same offset: 658 to 803
    days. *)
Lemma isTwoYearSpan_days utcOffset s e :
  utcOffset e = utcOffset s ->
  isTwoYearSpan utcOffset s e = true <-> (658 <= e - s <= 803)%Z.
Proof.
  intros Hoff. rewrite isTwoYearSpan_years.
  destruct (yearsDiff_ms utcOffset s e) as [-> ->].
  unfold JsDate.diff, JsDate.msPerDay. rewrite Hoff. lia.
Qed.

(** The two ranges of the specification, in any time zone whose offsets
    stay within a day of UTC. *)
Lemma isTwoYearSpan_726_days utcOffset :
  (forall day, - JsDate.msPerDay <= utcOffset day <= JsDate.msPerDay)%Z ->
  isTwoYearSpan utcOffset (parseDate (js "1/15/2023"))
    (parseDate (js "1/10/2025")) = true.
Proof.
  intros Hoff. apply isTwoYearSpan_years.
  destruct (yearsDiff_ms utcOffset (parseDate (js "1/15/2023"))
              (parseDate (js "1/10/2025"))) as [-> ->].
  change (parseDate (js "1/15/2023")) with 19372%Z.
  change (parseDate (js "1/10/2025")) with 20098%Z.
  pose proof (Hoff 19372%Z). pose proof (Hoff 20098%Z).
  unfold JsDate.diff, JsDate.msPerDay in *. lia.
Qed.

Lemma isTwoYearSpan_365_days utcOffset :
  (forall day, - JsDate.msPerDay <= utcOffset day <= JsDate.msPerDay)%Z ->
  isTwoYearSpan utcOffset (parseDate (js "1/15/2023"))
    (parseDate (js "1/15/2024")) = false.
Proof.
  intros Hoff. apply not_true_iff_false. rewrite isTwoYearSpan_years.
  destruct (yearsDiff_ms utcOffset (parseDate (js "1/15/2023"))
              (parseDate (js "1/15/2024"))) as [-> ->].
  change (parseDate (js "1/15/2023")) with 19372%Z.
  change (parseDate (js "1/15/2024")) with 19737%Z.
  pose proof (Hoff 19372%Z). pose proof (Hoff 19737%Z).
  unfold JsDate.diff, JsDate.msPerDay in *. lia.
Qed.

(** C6.  On a results page, in a time zone whose offsets stay within a day
    of UTC, parsing [tbs=cdr:1,cd_min:1/15/2023,cd_max:1/10/2025] sets the
    time filter to [2year], and parsing the one-year range
    [tbs=cdr:1,cd_min:1/15/2023,cd_max:1/15/2024] leaves it as it was.  In
    general, for a [tbs] in which the date pattern matches,
    [syncCustomDateRange] sets the time filter to [2year] when the span
    between the two parsed dates is between 1.8 and 2.2 years, and changes
    nothing when it is not. *)
Theorem two_year_detection utcOffset :
  ((forall day, - JsDate.msPerDay <= utcOffset day <= JsDate.msPerDay)%Z ->
   (forall w,
      isSearchPage w = true ->
      URLSearchParams.getOrEmpty (searchParams (href (location w))) (js "tbs")
      = js "cdr:1,cd_min:1/15/2023,cd_max:1/10/2025" ->
      time (currentFilters (syncFiltersFromURL utcOffset w)) = js "2year")
   /\ (forall w,
      isSearchPage w = true ->
      URLSearchParams.getOrEmpty (searchParams (href (location w))) (js "tbs")
      = js "cdr:1,cd_min:1/15/2023,cd_max:1/15/2024" ->
      time (currentFilters (syncFiltersFromURL utcOffset w))
      = time (currentFilters w)))
  /\ (forall cf tbs min max,
     dateMatch tbs = Some (min, max) ->
     let years := yearsDiff utcOffset (parseDate min) (parseDate max) in
     ((18 # 10 <= years)%Q /\ (years <= 22 # 10)%Q ->
        syncCustomDateRange utcOffset cf tbs = setFilter cf Time (js "2year"))
     /\ (~ ((18 # 10 <= years)%Q /\ (years <= 22 # 10)%Q) ->
        syncCustomDateRange utcOffset cf tbs = cf)).
Proof.
  split; [intros Hoff; split |].
  - intros w Hpage Htbs.
    pose proof (syncFiltersFromURL_getFilter utcOffset w Time) as H.
    cbv zeta in H. cbn [getFilter] in H. rewrite H, Hpage, Htbs.
    change (syncTime utcOffset (js "cdr:1,cd_min:1/15/2023,cd_max:1/10/2025")
              (currentFilters w))
      with (if isTwoYearSpan utcOffset (parseDate (js "1/15/2023"))
                 (parseDate (js "1/10/2025"))
            then setFilter (currentFilters w) Time (js "2year")
            else currentFilters w).
    by rewrite isTwoYearSpan_726_days.
  - intros w Hpage Htbs.
    pose proof (syncFiltersFromURL_getFilter utcOffset w Time) as H.
    cbv zeta in H. cbn [getFilter] in H. rewrite H, Hpage, Htbs.
    change (syncTime utcOffset (js "cdr:1,cd_min:1/15/2023,cd_max:1/15/2024")
              (currentFilters w))
      with (if isTwoYearSpan utcOffset (parseDate (js "1/15/2023"))
                 (parseDate (js "1/15/2024"))
            then setFilter (currentFilters w) Time (js "2year")
            else currentFilters w).
    by rewrite isTwoYearSpan_365_days.
  - intros cf tbs min max Hmatch years. unfold syncCustomDateRange.
    rewrite Hmatch. fold years.
    pose proof (isTwoYearSpan_years utcOffset (parseDate min) (parseDate max))
      as Hspan.
    fold years in Hspan.
    destruct (isTwoYearSpan utcOffset (parseDate min) (parseDate max)).
    + split; [done |]. intros Hout. destruct Hout. by apply Hspan.
    + split; [| done]. intros Hin. apply Hspan in Hin. discriminate.
Qed.

Lemma two_year_detection_witness :
  let w := Sample.world filters.site Sample.allOn Sample.neutral
             (Sample.address
                [(js "q", js "foo");
                 (js "tbs", js "cdr:1,cd_min:1/15/2023,cd_max:1/10/2025")]
                (js "?q=foo&tbs=cdr%3A1%2Ccd_min%3A1%2F15%2F2023%2Ccd_max%3A1%2F10%2F2025")) in
  let w1 := Sample.world filters.site Sample.allOn
              (setFilter Sample.neutral Time (js "week"))
              (Sample.address
                 [(js "q", js "foo");
                  (js "tbs", js "cdr:1,cd_min:1/15/2023,cd_max:1/15/2024")]
                 (js "?q=foo&tbs=cdr%3A1%2Ccd_min%3A1%2F15%2F2023%2Ccd_max%3A1%2F15%2F2024")) in
  time (currentFilters (syncFiltersFromURL Sample.shifting w)) = js "2year"
  /\ time (currentFilters (syncFiltersFromURL Sample.shifting w1)) = js "week"
  /\ syncCustomDateRange Sample.shifting Sample.neutral
       (js "cdr:1,cd_min:1/15/2023,cd_max:1/10/2025")
     = setFilter Sample.neutral Time (js "2year").
Proof.
  intros w w1.
  assert (Hoff : forall day,
             (- JsDate.msPerDay <= Sample.shifting day <= JsDate.msPerDay)%Z).
  { intros day. unfold Sample.shifting, JsDate.msPerDay.
    destruct (day mod 7 <? 2)%Z; lia. }
  destruct (two_year_detection Sample.shifting) as (Hex & Hgen).
  destruct (Hex Hoff) as (Htwo & Hone).
  split; [exact (Htwo w eq_refl eq_refl) |].
  split; [exact (Hone w1 eq_refl eq_refl) |].
  apply (proj1 (Hgen Sample.neutral
                  (js "cdr:1,cd_min:1/15/2023,cd_max:1/10/2025")
                  (js "1/15/2023") (js "1/10/2025") eq_refl)).
  split; vm_compute; discriminate.
Defined.

(** ** Strings: trimming and searching *)

Module StrFacts.
Import Str.

Lemma startsWith_app p s : startsWith (p ++ s) p = true.
Proof.
  induction p as [| c p IH]; [by destruct s |].
  cbn [app startsWith]. by rewrite N.eqb_refl, IH.
Qed.

Lemma includes_nil s : includes s [] = true.
Proof. by destruct s. Qed.

Lemma includes_startsWith s t : startsWith s t = true -> includes s t = true.
Proof. intros H. destruct s; cbn [includes]; by rewrite H. Qed.

Lemma includes_app a t b : includes (a ++ t ++ b) t = true.
Proof.
  induction a as [| c a IH].
  - change ([] ++ t ++ b) with (t ++ b).
    apply includes_startsWith, startsWith_app.
  - cbn [app includes]. rewrite IH. apply orb_true_r.
Qed.

Lemma includes_suffix a t : includes (a ++ t) t = true.
Proof. rewrite <- (app_nil_r t) at 1. apply includes_app. Qed.

Lemma trimStart_length s : (length (trimStart s) <= length s)%nat.
Proof.
  induction s as [| c s IH]; cbn [trimStart]; [done |].
  case_match; cbn [length]; lia.
Qed.

(** A non-empty string that [trimStart] keeps begins with a character
    that is not white space. *)
Lemma trimStart_fixed c s :
  trimStart (c :: s) = c :: s -> isWhiteSpace c = false.
Proof.
  cbn [trimStart]. destruct (isWhiteSpace c); [| done].
  intros E. apply (f_equal length) in E. cbn [length] in E.
  pose proof (trimStart_length s). lia.
Qed.

Lemma trimStart_same_length s :
  length (trimStart s) = length s -> trimStart s = s.
Proof.
  destruct s as [| c s]; [done |]. cbn [trimStart].
  destruct (isWhiteSpace c); [| done].
  cbn [length]. pose proof (trimStart_length s). lia.
Qed.

(** In front of a string that starts with a visible character,
    [trimStart] removes a prefix of what precedes it. *)
Lemma trimStart_app a c s :
  isWhiteSpace c = false ->
  exists a', trimStart (a ++ c :: s) = a' ++ c :: s.
Proof.
  intros Hc. induction a as [| x a IH]; cbn [app trimStart].
  - exists []. by rewrite Hc.
  - destruct (isWhiteSpace x); [exact IH |]. by exists (x :: a).
Qed.

Lemma trim_fixed_edges s :
  trim s = s -> trimStart s = s /\ trimStart (rev s) = rev s.
Proof.
  unfold trim, trimEnd. intros E.
  pose proof (trimStart_length (rev (trimStart (rev s)))) as H1.
  pose proof (trimStart_length (rev s)) as H2.
  rewrite E in H1. rewrite !length_rev in *.
  assert (Hrev : trimStart (rev s) = rev s).
  { apply trimStart_same_length. rewrite length_rev. lia. }
  split; [| done]. by rewrite Hrev, rev_involutive in E.
Qed.

Lemma trimEnd_app_fixed a c t :
  trimStart (rev (c :: t)) = rev (c :: t) ->
  trimEnd (a ++ c :: t) = a ++ c :: t.
Proof.
  intros He. unfold trimEnd. rewrite rev_app_distr.
  destruct (rev (c :: t)) as [| x r] eqn:Hr.
  - apply (f_equal length) in Hr. rewrite length_rev in Hr. discriminate.
  - pose proof (trimStart_fixed x r He) as Hx.
    cbn [app trimStart]. rewrite Hx.
    change (x :: r ++ rev a) with ((x :: r) ++ rev a).
    by rewrite <- Hr, <- rev_app_distr, rev_involutive.
Qed.

(** A string without white space at its ends survives [trim] when it is
    put at the end of another string. *)
Lemma trim_app_fixed a t :
  trim t = t -> exists a', trim (a ++ t) = a' ++ t.
Proof.
  intros E. destruct (trim_fixed_edges t E) as [Hs He].
  destruct t as [| c t]; [exists (trim (a ++ [])); by rewrite !app_nil_r |].
  unfold trim. rewrite (trimEnd_app_fixed a c t He).
  apply trimStart_app. exact (trimStart_fixed c t Hs).
Qed.

Lemma includes_trim_app a t :
  trim t = t -> includes (trim (a ++ t)) t = true.
Proof.
  intros E. destruct (trim_app_fixed a t E) as [a' ->].
  apply includes_suffix.
Qed.

(** After a separating space, what [trim] leaves in front of a trimmed
    string still ends in that space, or is nothing. *)
Lemma trimStart_space_app a c t :
  isWhiteSpace c = false ->
  trimStart (a ++ 32%N :: c :: t) = c :: t
  \/ exists a', trimStart (a ++ 32%N :: c :: t) = a' ++ 32%N :: c :: t.
Proof.
  intros Hc. induction a as [| x a IH]; cbn [app trimStart].
  - left. change (isWhiteSpace 32) with true. cbn [trimStart]. by rewrite Hc.
  - destruct (isWhiteSpace x); [exact IH |]. right. by exists (x :: a).
Qed.

Lemma trim_space_app a c t :
  trim (c :: t) = c :: t ->
  trim (a ++ 32%N :: c :: t) = c :: t
  \/ exists a', trim (a ++ 32%N :: c :: t) = a' ++ 32%N :: c :: t.
Proof.
  intros E. destruct (trim_fixed_edges _ E) as [Hs He].
  unfold trim.
  change (a ++ 32%N :: c :: t) with (a ++ [32%N] ++ c :: t).
  rewrite app_assoc, (trimEnd_app_fixed (a ++ [32%N]) c t He), <- app_assoc.
  apply trimStart_space_app. exact (trimStart_fixed c t Hs).
Qed.

(** *** Conversion to a [USVString] *)

Lemma toUSVString_cons c s :
  isSurrogate c = false -> toUSVString (c :: s) = c :: toUSVString s.
Proof.
  unfold isSurrogate. intros H. apply orb_false_iff in H as [Hh Hl].
  cbn [toUSVString]. by rewrite Hh, Hl.
Qed.

Lemma toUSVString_app_plain a s :
  forallb (fun c => negb (isSurrogate c)) a = true ->
  toUSVString (a ++ s) = a ++ toUSVString s.
Proof.
  induction a as [| c a IH]; [done |]. cbn [forallb app].
  rewrite andb_true_iff, negb_true_iff. intros [Hc Ha].
  by rewrite toUSVString_cons, IH.
Qed.

Lemma toUSVString_plain s :
  forallb (fun c => negb (isSurrogate c)) s = true -> toUSVString s = s.
Proof.
  intros H. rewrite <- (app_nil_r s) at 1.
  by rewrite toUSVString_app_plain, app_nil_r.
Qed.

(** A unit that is not a surrogate separates what precedes it from what
    follows. *)
Lemma toUSVString_sep x c s :
  isSurrogate c = false ->
  toUSVString (x ++ c :: s) = toUSVString (x ++ [c]) ++ toUSVString s.
Proof.
  intros Hc.
  assert (Hlow : isLowSurrogate c = false)
    by (unfold isSurrogate in Hc; by apply orb_false_iff in Hc as [_ ?]).
  remember (length x) as n eqn:Hn. revert x Hn.
  induction n as [n IH] using lt_wf_ind. intros x Hn.
  destruct x as [| h x]; cbn [app].
  - by rewrite !toUSVString_cons.
  - cbn [length] in Hn. cbn [toUSVString].
    destruct (isHighSurrogate h).
    + destruct x as [| d x]; cbn [app].
      * rewrite Hlow. by rewrite !toUSVString_cons.
      * cbn [length] in Hn. destruct (isLowSurrogate d).
        -- cbn [app]. f_equal. f_equal.
           apply (IH (length x) ltac:(lia) x eq_refl).
        -- cbn [app]. f_equal.
           apply (IH (length (d :: x)) ltac:(cbn [length]; lia) (d :: x)
                    eq_refl).
    + destruct (isLowSurrogate h); cbn [app]; f_equal;
        apply (IH (length x) ltac:(lia) x eq_refl).
Qed.

Lemma js_plain s : forallb (fun c => negb (isSurrogate c)) (js s) = true.
Proof.
  unfold js. apply forallb_forall. intros c Hc.
  apply in_map_iff in Hc as (a & <- & _).
  pose proof (N_ascii_bounded a) as Hb.
  unfold isSurrogate, isHighSurrogate, isLowSurrogate.
  apply negb_true_iff, orb_false_iff.
  split; apply andb_false_iff; left; apply N.leb_gt; lia.
Qed.

(** The query that [applyFilters] builds still contains the fragment after
    it is stored as a [USVString]. *)
Lemma includes_stored_query a t :
  trim t = t -> toUSVString t = t ->
  includes (toUSVString (trim (a ++ 32%N :: t))) t = true.
Proof.
  intros Htrim Husv. destruct t as [| c t]; [apply includes_nil |].
  destruct (trim_space_app a c t Htrim) as [-> | [a' ->]].
  - rewrite Husv. apply (includes_suffix []).
  - rewrite toUSVString_sep by reflexivity.
    rewrite Husv. apply includes_suffix.
Qed.

End StrFacts.

(** ** Round trip: apply, then check *)

Ltac name_ne :=
  let H := fresh in intros H; vm_compute in H; discriminate H.

Section Blocks.
Import URLSearchParams ParamFacts.

Variable cf : CurrentFilters.

(** Each block touches the pairs of its own parameter only. *)
Lemma paramLr_get_ne ps m : m <> js "lr" -> get (paramLr cf ps) m = get ps m.
Proof.
  intros Hm. unfold paramLr.
  case_decide; [apply get_delete_ne | apply get_set_ne]; done.
Qed.

Lemma paramTbs_get_ne today ps ps' m :
  paramTbs today cf ps = Some ps' -> m <> js "tbs" -> get ps' m = get ps m.
Proof.
  unfold paramTbs. intros H Hm. case_decide.
  - injection H as <-. by apply get_delete_ne.
  - destruct (timeParamOf (time cf)); [| done].
    injection H as <-. by apply get_set_ne.
Qed.

Lemma paramHl_get_ne ps m : m <> js "hl" -> get (paramHl cf ps) m = get ps m.
Proof.
  intros Hm. unfold paramHl.
  case_decide; [by apply get_delete_ne |].
  case_match; [by apply get_set_ne | done].
Qed.

Lemma paramGl_get_ne ps m : m <> js "gl" -> get (paramGl cf ps) m = get ps m.
Proof.
  intros Hm. unfold paramGl.
  case_decide; [by apply get_delete_ne |].
  case_match; [by apply get_set_ne | done].
Qed.

(** Each block of the check accepts what the matching block of the
    apply wrote. *)
Lemma checkLr_paramLr ps :
  Str.toUSVString (searchLang cf) = searchLang cf ->
  checkLr cf (getOrEmpty (paramLr cf ps) (js "lr")) = true.
Proof.
  intros Hsl. unfold checkLr, paramLr, getOrEmpty. case_decide; [done |].
  rewrite get_set_eq. cbn [default from_option id].
  apply bool_decide_eq_true_2.
  rewrite StrFacts.toUSVString_app_plain by apply StrFacts.js_plain.
  by rewrite Hsl.
Qed.

Lemma googleLangOf_wellFormed k v :
  googleLangOf k = Some v -> Str.toUSVString v = v.
Proof.
  unfold googleLangOf, getProperty.
  destruct (ownProperty filters.interfaceLang k) as [d |] eqn:Hd;
    [| by case_decide].
  destruct (googleLang d) as [[| c l] |] eqn:Hg; cbn [truthyString]; try done.
  intros [= <-]. exact (googleLang_wellFormed k d _ Hd Hg).
Qed.

Lemma googleRegionOf_wellFormed k v :
  googleRegionOf k = Some v -> Str.toUSVString v = v.
Proof.
  unfold googleRegionOf, getProperty.
  destruct (ownProperty filters.region k) as [d |] eqn:Hd;
    [| by case_decide].
  destruct (googleRegion d) as [[| c l] |] eqn:Hg; cbn [truthyString]; try done.
  intros [= <-]. exact (googleRegion_wellFormed k d _ Hd Hg).
Qed.

Lemma checkHl_paramHl ps : checkHl cf (getOrEmpty (paramHl cf ps) (js "hl")) = true.
Proof.
  unfold checkHl, paramHl, getOrEmpty. case_decide.
  - rewrite get_delete_eq. by apply bool_decide_eq_true_2.
  - destruct (googleLangOf (interfaceLang cf)) as [lang |] eqn:Hl; [| done].
    rewrite get_set_eq. cbn [default from_option id].
    apply bool_decide_eq_true_2. by apply googleLangOf_wellFormed in Hl.
Qed.

Lemma checkGl_paramGl ps : checkGl cf (getOrEmpty (paramGl cf ps) (js "gl")) = true.
Proof.
  unfold checkGl, paramGl, getOrEmpty. case_decide.
  - rewrite get_delete_eq. by apply bool_decide_eq_true_2.
  - destruct (googleRegionOf (region cf)) as [reg |] eqn:Hr; [| done].
    rewrite get_set_eq. cbn [default from_option id].
    apply bool_decide_eq_true_2. by apply googleRegionOf_wellFormed in Hr.
Qed.

Lemma timeParamOf_plain k timeParam :
  timeParamOf k = Some timeParam ->
  forallb (fun c => negb (Str.isSurrogate c)) timeParam = true.
Proof.
  unfold timeParamOf, getProperty, filters.time. cbn [ownProperty].
  intros H. repeat case_decide; simplify_eq; reflexivity.
Qed.

Lemma createTimeFilterValue_plain today timeParam :
  forallb (fun c => negb (Str.isSurrogate c)) timeParam = true ->
  forallb (fun c => negb (Str.isSurrogate c))
    (createTimeFilterValue today timeParam) = true.
Proof.
  intros Hp. unfold createTimeFilterValue, formatSearchDate, Str.ofZ.
  case_match; rewrite ?forallb_app, ?StrFacts.js_plain, ?Hp; reflexivity.
Qed.

Lemma checkTbs_paramTbs today ps ps' :
  paramTbs today cf ps = Some ps' ->
  checkTbs cf (getOrEmpty ps' (js "tbs")) = Some true.
Proof.
  unfold checkTbs, paramTbs, getOrEmpty. intros H.
  case_decide; [done |].
  destruct (timeParamOf (time cf)) as [timeParam |] eqn:Hp; [| done].
  injection H as <-. rewrite get_set_eq.
  cbn [mbind option_bind default from_option id].
  rewrite StrFacts.toUSVString_plain
    by (apply createTimeFilterValue_plain; by apply timeParamOf_plain in Hp).
  unfold createTimeFilterValue.
  destruct (Str.startsWith timeParam (js "custom:")); cbn [andb].
  - case_match; [| done]. by rewrite StrFacts.startsWith_app.
  - by rewrite bool_decide_eq_true_2.
Qed.

(** The value of [q] as [set] stores it. *)
Lemma checkQ_paramQ sites q0 q1 :
  paramQ sites cf q0 = Some q1 ->
  (forall d, site cf <> js "all" ->
             ownProperty sites (site cf) = Some d ->
             stableFragment (query d)) ->
  checkQ sites cf (Str.toUSVString q1) = Some true.
Proof.
  unfold checkQ, paramQ, siteQueryText, getProperty. intros H Hfrag.
  case_decide as Hall; [done |].
  destruct (ownProperty sites (site cf)) as [d |] eqn:Hown.
  - cbn [mbind option_bind] in *. apply (inj Some) in H. subst q1.
    destruct (Hfrag d Hall eq_refl) as [Htrim Husv].
    change (js " " ++ query d) with (32%N :: query d).
    by rewrite StrFacts.includes_stored_query.
  - case_decide; [| done].
    cbn [mbind option_bind] in *. apply (inj Some) in H. subst q1.
    change (js " " ++ js "undefined") with (32%N :: js "undefined").
    by rewrite StrFacts.includes_stored_query.
Qed.

End Blocks.

Lemma hasOwn_Some {A} (o : list (jsstring * A)) k :
  hasOwn o k = true -> exists a, ownProperty o k = Some a.
Proof. unfold hasOwn. intros H. by apply bool_decide_eq_true_1 in H. Qed.

(** In a valid state every read of the catalog that [applyFilters] makes
    finds an entry. *)
Lemma applyFilters_succeeds w today :
  validState (filtersSite w) (currentFilters w) = true ->
  exists q1 ps3,
    let cf := currentFilters w in
    let params := searchParams (href (location w)) in
    paramQ (filtersSite w) cf (URLSearchParams.getOrEmpty params (js "q"))
    = Some q1
    /\ paramTbs today cf (paramLr cf (URLSearchParams.set params (js "q") q1))
       = Some ps3
    /\ applyFilters w today
       = Some (withParams (href (location w)) (paramGl cf (paramHl cf ps3))).
Proof.
  unfold validState. rewrite forallb_forall. intros Hvalid.
  pose proof (Hvalid Site ltac:(cbn; tauto)) as Hsite.
  pose proof (Hvalid Time ltac:(cbn; tauto)) as Htime.
  unfold validValue, inCatalog in Hsite, Htime. cbn [getFilter] in Hsite, Htime.
  apply orb_true_iff in Hsite, Htime.
  set (cf := currentFilters w). fold cf in Hsite, Htime.
  set (params := searchParams (href (location w))).
  assert (Hq : exists q1,
             paramQ (filtersSite w) cf (URLSearchParams.getOrEmpty params (js "q"))
             = Some q1).
  { unfold paramQ.
    destruct (decide (site cf = js "all")) as [Hall | Hall];
      [eexists; reflexivity |].
    destruct Hsite as [Hdef | Hown].
    - apply bool_decide_eq_true_1 in Hdef. destruct Hall. exact Hdef.
    - apply hasOwn_Some in Hown as [d Hd].
      unfold siteQueryText, getProperty. rewrite Hd.
      eexists. reflexivity. }
  destruct Hq as [q1 Hq1].
  assert (Ht : exists ps3,
             paramTbs today cf (paramLr cf (URLSearchParams.set params (js "q") q1))
             = Some ps3).
  { unfold paramTbs.
    destruct (decide (time cf = js "all")) as [Hall | Hall];
      [eexists; reflexivity |].
    destruct Htime as [Hdef | Hown].
    - apply bool_decide_eq_true_1 in Hdef. destruct Hall. exact Hdef.
    - apply hasOwn_Some in Hown as [d Hd].
      unfold timeParamOf, getProperty. rewrite Hd.
      eexists. reflexivity. }
  destruct Ht as [ps3 Hps3].
  exists q1, ps3. cbv zeta. split; [done |]. split; [done |].
  unfold applyFilters. fold cf params. rewrite Hq1.
  cbn [mbind option_bind]. by rewrite Hps3.
Qed.

(** C1, as stated, fails.  [filters.site] may hold a custom entry whose
    fragment ends in white space, or has an unpaired surrogate in it:
    [loadCustomSites] takes [query] from the store as it is.  [applyFilters]
    trims the query it builds and stores it as a [USVString]; the check
    then looks for the fragment as the catalog has it. *)
Lemma round_trip_fails_on_unstable_fragment :
  let state := setFilter Sample.neutral Site (js "x_com") in
  let padded :=
    loadCustomSites Sample.upper filters.site [Sample.storedPadded] in
  let unpaired :=
    loadCustomSites Sample.upper filters.site [Sample.storedUnpaired] in
  let w1 := Sample.world padded Sample.allOn state Sample.resultsPage in
  let w2 := Sample.world unpaired Sample.allOn state Sample.resultsPage in
  padded = filters.site ++ [Sample.padded]
  /\ validState (filtersSite w1) (currentFilters w1) = true
  /\ (exists url,
        applyFilters w1 20000 = Some url
        /\ URLSearchParams.get (searchParams url) (js "q")
           = Some (js "foo site:x.com")
        /\ checkCurrentFilters w1 url = Some false)
  /\ validState (filtersSite w2) (currentFilters w2) = true
  /\ (exists url,
        applyFilters w2 20000 = Some url
        /\ URLSearchParams.get (searchParams url) (js "q")
           = Some (js "foo site:x.com" ++ [65533%N])
        /\ checkCurrentFilters w2 url = Some false).
Proof.
  split; [by vm_compute |]. split; [by vm_compute |].
  split; [eexists; by vm_compute |]. split; [by vm_compute |].
  eexists. by vm_compute.
Qed.

(** The codes of the fixed tables are plain ASCII. *)
Lemma validValue_searchLang_wellFormed sites v :
  validValue sites SearchLang v = true -> Str.toUSVString v = v.
Proof.
  unfold validValue, inCatalog, hasOwn. intros H.
  apply orb_true_iff in H as [H | H]; apply bool_decide_eq_true_1 in H.
  - by subst v.
  - destruct H as [d Hd]. revert Hd.
    unfold filters.searchLang. cbn [ownProperty].
    intros Hd. repeat case_decide; simplify_eq; reflexivity.
Qed.

(** C1, amended.  For every state whose five values are the neutral value
    or a code of the catalog, and whose selected site, if any, has a
    fragment without white space at either end and without unpaired
    surrogates (as the built-in sites and the sites made by
    [addCustomSite] have), the address that [applyFilters] builds from any
    current address, on any day, passes [checkCurrentFilters] with the same
    state. *)
Theorem round_trip w today :
  validState (filtersSite w) (currentFilters w) = true ->
  (forall d, site (currentFilters w) <> js "all" ->
             ownProperty (filtersSite w) (site (currentFilters w)) = Some d ->
             stableFragment (query d)) ->
  exists url,
    applyFilters w today = Some url
    /\ checkCurrentFilters w url = Some true.
Proof.
  intros Hvalid Hfrag.
  destruct (applyFilters_succeeds w today Hvalid) as (q1 & ps3 & Hq & Ht & Ha).
  cbv zeta in Hq, Ht, Ha.
  assert (Hsl : Str.toUSVString (searchLang (currentFilters w))
                = searchLang (currentFilters w)).
  { unfold validState in Hvalid. rewrite forallb_forall in Hvalid.
    apply (validValue_searchLang_wellFormed (filtersSite w)).
    apply (Hvalid SearchLang). cbn. tauto. }
  eexists. split; [exact Ha |].
  set (cf := currentFilters w) in *.
  set (params := searchParams (href (location w))) in *.
  unfold checkCurrentFilters, withParams. cbn [searchParams]. fold cf.
  set (final := paramGl cf (paramHl cf ps3)).
  assert (Hfq : URLSearchParams.getOrEmpty final (js "q")
                = Str.toUSVString q1).
  { unfold URLSearchParams.getOrEmpty, final.
    rewrite paramGl_get_ne, paramHl_get_ne by name_ne.
    rewrite (paramTbs_get_ne cf today _ _ _ Ht) by name_ne.
    rewrite paramLr_get_ne by name_ne.
    by rewrite ParamFacts.get_set_eq. }
  assert (Hflr : URLSearchParams.getOrEmpty final (js "lr")
                 = URLSearchParams.getOrEmpty
                     (paramLr cf (URLSearchParams.set params (js "q") q1))
                     (js "lr")).
  { unfold URLSearchParams.getOrEmpty, final.
    rewrite paramGl_get_ne, paramHl_get_ne by name_ne.
    by rewrite (paramTbs_get_ne cf today _ _ _ Ht) by name_ne. }
  assert (Hftbs : URLSearchParams.getOrEmpty final (js "tbs")
                  = URLSearchParams.getOrEmpty ps3 (js "tbs")).
  { unfold URLSearchParams.getOrEmpty, final.
    by rewrite paramGl_get_ne, paramHl_get_ne by name_ne. }
  assert (Hfhl : URLSearchParams.getOrEmpty final (js "hl")
                 = URLSearchParams.getOrEmpty (paramHl cf ps3) (js "hl")).
  { unfold URLSearchParams.getOrEmpty, final.
    by rewrite paramGl_get_ne by name_ne. }
  rewrite Hfq, Hflr, Hftbs, Hfhl.
  rewrite (checkQ_paramQ cf _ _ _ Hq Hfrag). cbn [mbind option_bind negb].
  rewrite checkLr_paramLr by exact Hsl. cbn [negb].
  rewrite (checkTbs_paramTbs cf today _ _ Ht). cbn [mbind option_bind negb].
  rewrite checkHl_paramHl. cbn [negb].
  unfold final. by rewrite checkGl_paramGl.
Qed.

Lemma round_trip_witness :
  let cf := {| searchLang := js "tr"; interfaceLang := js "en";
               region := js "us"; site := js "twitter_com";
               time := js "2year" |} in
  let w := Sample.world (filters.site ++ [Sample.twitter]) Sample.allOn cf
             (Sample.address
                [(js "q", js "foo site:reddit.com"); (js "hl", js "de")]
                (js "?q=foo+site%3Areddit.com&hl=de")) in
  exists url,
    applyFilters w 20000 = Some url
    /\ checkCurrentFilters w url = Some true.
Proof.
  intros cf w.
  apply (round_trip w 20000).
  - vm_compute. reflexivity.
  - intros d _ Hd. vm_compute in Hd. injection Hd as <-.
    vm_compute. by split.
Defined.

(** ** Fragments of the sites the engine itself creates

    The side condition of the round trip holds for the built-in sites and
    is kept by [addCustomSite]: a domain that passes the host pattern is
    made of letters, digits, dots and hyphens. *)

Lemma isHostChar_visible c :
  isHostChar c = true -> Str.isWhiteSpace c = false.
Proof.
  unfold isHostChar, Str.isAlnum, Str.isLetter, Str.isLower, Str.isUpper,
    Str.isDigit, Str.isWhiteSpace, Str.isLineTerminator.
  intros H. apply not_true_iff_false. intros Hw.
  rewrite !orb_true_iff, !andb_true_iff, !N.eqb_eq, !N.leb_le in H.
  rewrite !orb_true_iff, !andb_true_iff, !N.eqb_eq, !N.leb_le in Hw.
  lia.
Qed.

Lemma isHostChar_plain c :
  isHostChar c = true -> Str.isSurrogate c = false.
Proof.
  unfold isHostChar, Str.isAlnum, Str.isLetter, Str.isLower, Str.isUpper,
    Str.isDigit, Str.isSurrogate, Str.isHighSurrogate, Str.isLowSurrogate.
  intros H. apply not_true_iff_false. intros Hw.
  rewrite !orb_true_iff, !andb_true_iff, !N.eqb_eq, !N.leb_le in H.
  rewrite !orb_true_iff, !andb_true_iff, !N.leb_le in Hw.
  lia.
Qed.

Lemma isLetter_isHostChar c : Str.isLetter c = true -> isHostChar c = true.
Proof. unfold isHostChar, Str.isAlnum. by intros ->. Qed.

Lemma URL_VALIDATION_REGEX_hostChars s :
  URL_VALIDATION_REGEX_test s = true -> forallb isHostChar s = true.
Proof.
  unfold URL_VALIDATION_REGEX_test. rewrite existsb_exists.
  intros (i & _ & Hi).
  destruct (drop i s) as [| dot tld] eqn:Hdrop; [done |].
  rewrite !andb_true_iff in Hi.
  destruct Hi as ((((_ & Hhost) & Hdot) & _) & Htld).
  rewrite <- (take_drop i s), Hdrop.
  rewrite forallb_app. cbn [forallb].
  rewrite forallb_forall in Htld.
  rewrite Hhost. cbn [andb]. apply andb_true_iff. split.
  - unfold isHostChar. rewrite Hdot. by rewrite orb_true_r.
  - apply forallb_forall. intros c Hc. auto using isLetter_isHostChar.
Qed.

Lemma trimStart_visible t :
  forallb (fun c => negb (Str.isWhiteSpace c)) t = true -> Str.trimStart t = t.
Proof.
  destruct t as [| c t]; [done |]. cbn [forallb Str.trimStart].
  rewrite andb_true_iff. intros [Hc _].
  by destruct (Str.isWhiteSpace c).
Qed.

Lemma trim_visible t :
  forallb (fun c => negb (Str.isWhiteSpace c)) t = true -> Str.trim t = t.
Proof.
  intros H. unfold Str.trim, Str.trimEnd.
  assert (Hrev : forallb (fun c => negb (Str.isWhiteSpace c)) (rev t) = true).
  { rewrite forallb_forall in *. intros c Hc. apply H. by apply in_rev. }
  rewrite (trimStart_visible _ Hrev), rev_involutive.
  by apply trimStart_visible.
Qed.

(** [site:] in front of a run of host characters is a stable fragment. *)
Lemma stableFragment_site host :
  forallb isHostChar host = true -> stableFragment (js "site:" ++ host).
Proof.
  intros Hhost. rewrite forallb_forall in Hhost. split.
  - apply trim_visible. rewrite forallb_app. apply andb_true_iff.
    split; [reflexivity |]. apply forallb_forall. intros c Hc.
    by rewrite isHostChar_visible by auto.
  - apply StrFacts.toUSVString_plain. rewrite forallb_app.
    apply andb_true_iff. split; [apply StrFacts.js_plain |].
    apply forallb_forall. intros c Hc.
    by rewrite isHostChar_plain by auto.
Qed.

Lemma fragmentsStable_builtin : fragmentsStable filters.site.
Proof. unfold fragmentsStable. repeat constructor. Qed.

Lemma fragmentsStable_setProperty sites k d :
  fragmentsStable sites -> stableFragment (query d) ->
  fragmentsStable (setProperty sites k d).
Proof.
  unfold fragmentsStable. intros Hs Hd.
  induction sites as [| [k' d'] sites IH]; cbn [setProperty].
  - by constructor.
  - inversion Hs; subst. case_decide; constructor; auto.
Qed.

Lemma fragmentsStable_ownProperty sites k d :
  fragmentsStable sites -> ownProperty sites k = Some d ->
  stableFragment (query d).
Proof.
  unfold fragmentsStable. intros Hs.
  induction sites as [| [k' d'] sites IH]; cbn [ownProperty]; [done |].
  inversion Hs; subst. case_decide; [| by auto].
  by intros [= <-].
Qed.

Lemma addCustomSite_fragmentsStable toUpperCase w siteName siteUrl :
  fragmentsStable (filtersSite w) ->
  fragmentsStable (filtersSite (addCustomSite toUpperCase w siteName siteUrl)).
Proof.
  intros Hw. unfold addCustomSite.
  repeat case_match; try exact Hw.
  unfold showToast, emit, saveCustomSites, setItem, withFiltersSite.
  cbn [filtersSite].
  apply fragmentsStable_setProperty; [exact Hw |]. cbn [query].
  match goal with
  | H : negb (isValidURL ?u) = false |- _ =>
      apply negb_false_iff in H; unfold isValidURL in H;
      destruct (isValidNonEmptyString u); [| discriminate H];
      apply andb_true_iff in H as [_ Hre]
  end.
  by apply stableFragment_site, URL_VALIDATION_REGEX_hostChars.
Qed.

(** * Further properties *)

(** ** Storage keys *)

Lemma getStorageKey_inj t t' : getStorageKey t = getStorageKey t' -> t = t'.
Proof. destruct t, t'; intros H; try reflexivity; vm_compute in H; discriminate H. Qed.

Lemma getStorageKey_not_persist t t' :
  getStorageKey t <> getPersistStorageKey t'.
Proof. destruct t, t'; intros H; vm_compute in H; discriminate H. Qed.



(** ** Records *)

Lemma setFilter_setFilter cf t v v' :
  setFilter (setFilter cf t v) t v' = setFilter cf t v'.
Proof. by destruct t. Qed.

Lemma currentFilters_ext cf cf' :
  (forall t, getFilter cf t = getFilter cf' t) -> cf = cf'.
Proof.
  intros H. destruct cf, cf'.
  pose proof (H SearchLang). pose proof (H InterfaceLang).
  pose proof (H Region). pose proof (H Site). pose proof (H Time).
  cbn in *. congruence.
Qed.

Lemma persistenceSettings_ext ps ps' :
  (forall t, getPersist ps t = getPersist ps' t) -> ps = ps'.
Proof.
  intros H. destruct ps, ps'.
  pose proof (H SearchLang). pose proof (H InterfaceLang).
  pose proof (H Region). pose proof (H Site). pose proof (H Time).
  cbn in *. congruence.
Qed.

Lemma getPersist_setPersist_ne ps t t' b :
  t <> t' -> getPersist (setPersist ps t b) t' = getPersist ps t'.
Proof. by destruct t, t'. Qed.

Lemma hasActiveFilters_false cf :
  hasActiveFilters cf = false <-> forall t, getFilter cf t = defaultValue t.
Proof.
  unfold hasActiveFilters. rewrite <- not_true_iff_false, existsb_exists.
  split.
  - intros H t. destruct (decide (getFilter cf t = defaultValue t)) as [| Hne];
      [done |].
    destruct H. exists t. split; [destruct t; cbn; tauto |].
    by rewrite bool_decide_eq_false_2.
  - intros H (t & _ & Ht). rewrite bool_decide_eq_true_2 in Ht by apply H.
    discriminate.
Qed.

(** ** Clearing *)

Lemma resetFilter_currentFilters w t :
  currentFilters (resetFilter w t)
  = setFilter (currentFilters w) t (defaultValue t).
Proof. unfold resetFilter. by rewrite persistIfEnabled_currentFilters. Qed.

Lemma resetFilter_persistenceSettings w t :
  persistenceSettings (resetFilter w t) = persistenceSettings w.
Proof. unfold resetFilter. by rewrite persistIfEnabled_persistenceSettings. Qed.

Lemma resetFilter_localStorage w t :
  localStorage (resetFilter w t)
  = if getPersist (persistenceSettings w) t
    then <[getStorageKey t := defaultValue t]> (localStorage w)
    else localStorage w.
Proof. unfold resetFilter. rewrite persistIfEnabled_localStorage. reflexivity. Qed.

Lemma resetFilter_lookup w t t' :
  localStorage (resetFilter w t) !! getStorageKey t'
  = if decide (t = t') then
      if getPersist (persistenceSettings w) t
      then Some (defaultValue t)
      else localStorage w !! getStorageKey t'
    else localStorage w !! getStorageKey t'.
Proof.
  rewrite resetFilter_localStorage. case_decide as Ht.
  - subst t'. destruct (getPersist _ t); [apply lookup_insert_eq | done].
  - destruct (getPersist _ t); [| done].
    rewrite lookup_insert_ne; [done |]. intros E. by apply getStorageKey_inj in E.
Qed.

Lemma resetAll_spec w :
  let w' := fold_left resetFilter allFilterTypes w in
  (forall t, getFilter (currentFilters w') t = defaultValue t)
  /\ persistenceSettings w' = persistenceSettings w
  /\ (forall t, localStorage w' !! getStorageKey t
                = if getPersist (persistenceSettings w) t
                  then Some (defaultValue t)
                  else localStorage w !! getStorageKey t).
Proof.
  unfold allFilterTypes. cbn [fold_left]. split; [| split].
  - intros t. rewrite !resetFilter_currentFilters. by destruct t.
  - by rewrite !resetFilter_persistenceSettings.
  - intros t. rewrite !resetFilter_lookup, !resetFilter_persistenceSettings.
    destruct t; repeat (case_decide; try done).
Qed.

(** X1.  [clearAllFilters] does nothing when every category is neutral;
    otherwise every category is neutral afterwards, the flags are as
    before, and the store holds the neutral value for each category whose
    persistence is on and what it held for the others.  A second call in a
    row changes nothing: no second store write, toast or timer. *)
Theorem clearAllFilters_spec w :
  let w' := clearAllFilters w in
  (hasActiveFilters (currentFilters w) = false -> w' = w)
  /\ (forall t, getFilter (currentFilters w') t = defaultValue t)
  /\ persistenceSettings w' = persistenceSettings w
  /\ (hasActiveFilters (currentFilters w) = true ->
      forall t, localStorage w' !! getStorageKey t
                = if getPersist (persistenceSettings w) t
                  then Some (defaultValue t)
                  else localStorage w !! getStorageKey t)
  /\ clearAllFilters w' = w'.
Proof.
  intros w'.
  assert (Hneutral : forall t, getFilter (currentFilters w') t = defaultValue t).
  { subst w'. unfold clearAllFilters.
    destruct (hasActiveFilters (currentFilters w)) eqn:Hact; cbn [negb].
    - destruct (resetAll_spec w) as (Hcf & _).
      intros t. by destruct (isSearchPage _).
    - by apply hasActiveFilters_false. }
  split; [| split; [exact Hneutral | split; [| split]]].
  - intros Hact. subst w'. unfold clearAllFilters. by rewrite Hact.
  - subst w'. unfold clearAllFilters.
    destruct (hasActiveFilters (currentFilters w)); cbn [negb]; [| done].
    destruct (resetAll_spec w) as (_ & Hps & _).
    by destruct (isSearchPage _).
  - intros Hact t. subst w'. unfold clearAllFilters. rewrite Hact. cbn [negb].
    destruct (resetAll_spec w) as (_ & _ & Hls).
    specialize (Hls t). by destruct (isSearchPage _).
  - apply hasActiveFilters_false in Hneutral.
    unfold clearAllFilters at 1. by rewrite Hneutral.
Qed.

Lemma clearAllFilters_spec_witness :
  let w := Sample.world filters.site Sample.allOn Sample.neutral
             Sample.resultsPage in
  let busy := Sample.world filters.site Sample.allOn
                (setFilter Sample.neutral Time (js "week"))
                Sample.resultsPage in
  clearAllFilters w = w
  /\ localStorage (clearAllFilters busy) !! js "googleSearchTime"
     = Some (js "all").
Proof.
  intros w busy. split.
  - exact (proj1 (clearAllFilters_spec w) eq_refl).
  - exact (proj1 (proj2 (proj2 (proj2 (clearAllFilters_spec busy))))
             eq_refl Time).
Defined.

(** X2.  [clearFilter] leaves the selection that [selectFilter] with the
    neutral value leaves, and, when the category was not neutral already,
    the same store.  When it was, [selectFilter] does nothing while
    [clearFilter] still writes the neutral value if persistence is on. *)
Theorem clearFilter_selectFilter w t :
  let cleared := clearFilter w t in
  let selected := selectFilter w t (defaultValue t) in
  currentFilters cleared = currentFilters selected
  /\ getFilter (currentFilters cleared) t = defaultValue t
  /\ persistenceSettings cleared = persistenceSettings w
  /\ localStorage cleared
     = (if getPersist (persistenceSettings w) t
        then <[getStorageKey t := defaultValue t]> (localStorage w)
        else localStorage w)
  /\ (getFilter (currentFilters w) t <> defaultValue t ->
      localStorage cleared = localStorage selected).
Proof.
  intros cleared selected.
  assert (Hcf : currentFilters cleared
                = setFilter (currentFilters w) t (defaultValue t)).
  { subst cleared. unfold clearFilter, showToast, emit.
    destruct (isSearchPage _); cbn [currentFilters];
      by rewrite persistIfEnabled_currentFilters. }
  assert (Hls : localStorage cleared
                = if getPersist (persistenceSettings w) t
                  then <[getStorageKey t := defaultValue t]> (localStorage w)
                  else localStorage w).
  { subst cleared. unfold clearFilter, showToast, emit.
    destruct (isSearchPage _); cbn [localStorage];
      rewrite persistIfEnabled_localStorage; reflexivity. }
  split; [by rewrite Hcf; subst selected; rewrite selectFilter_currentFilters |].
  split; [rewrite Hcf; apply getFilter_setFilter |].
  split; [| split; [exact Hls |]].
  - subst cleared. unfold clearFilter, showToast, emit.
    destruct (isSearchPage _); cbn [persistenceSettings];
      by rewrite persistIfEnabled_persistenceSettings.
  - intros Hne. subst selected. by rewrite selectFilter_localStorage, Hls.
Qed.

Lemma clearFilter_selectFilter_witness :
  let w := Sample.world filters.site Sample.allOn
             (setFilter Sample.neutral Time (js "week"))
             Sample.resultsPage in
  localStorage (clearFilter w Time) = localStorage (selectFilter w Time (js "all")).
Proof.
  intros w.
  apply (proj2 (proj2 (proj2 (proj2 (clearFilter_selectFilter w Time))))).
  vm_compute. discriminate.
Defined.

(** ** What a reload restores *)












Lemma selectFilter_frame w t v :
  filtersSite (selectFilter w t v) = filtersSite w
  /\ persistenceSettings (selectFilter w t v) = persistenceSettings w
  /\ location (selectFilter w t v) = location w.
Proof.
  unfold selectFilter. case_decide; [done |].
  destruct t.
  2: { destruct (applyInterfaceLanguage_sameState
                   (persistIfEnabled
                      (withCurrentFilters w
                         (setFilter (currentFilters w) InterfaceLang v))
                      InterfaceLang v) v) as (-> & -> & _ & _ & ->).
       unfold persistIfEnabled. by case_match. }
  2: { destruct (applyRegionChange_sameState
                   (persistIfEnabled
                      (withCurrentFilters w
                         (setFilter (currentFilters w) Region v))
                      Region v) v) as (-> & -> & _ & _ & ->).
       unfold persistIfEnabled. by case_match. }
  all: unfold persistIfEnabled; by repeat case_match.
Qed.

Lemma clearFilter_fields w t :
  filtersSite (clearFilter w t) = filtersSite w
  /\ persistenceSettings (clearFilter w t) = persistenceSettings w
  /\ currentFilters (clearFilter w t)
     = setFilter (currentFilters w) t (defaultValue t)
  /\ localStorage (clearFilter w t)
     = (if getPersist (persistenceSettings w) t
        then <[getStorageKey t := defaultValue t]> (localStorage w)
        else localStorage w)
  /\ location (clearFilter w t) = location w.
Proof.
  unfold clearFilter, showToast, emit, persistIfEnabled.
  cbn [persistenceSettings withCurrentFilters].
  destruct (getPersist (persistenceSettings w) t);
    by destruct (isSearchPage _).
Qed.

Lemma resetFilter_fields w t :
  filtersSite (resetFilter w t) = filtersSite w
  /\ persistenceSettings (resetFilter w t) = persistenceSettings w
  /\ currentFilters (resetFilter w t)
     = setFilter (currentFilters w) t (defaultValue t)
  /\ localStorage (resetFilter w t)
     = (if getPersist (persistenceSettings w) t
        then <[getStorageKey t := defaultValue t]> (localStorage w)
        else localStorage w)
  /\ location (resetFilter w t) = location w.
Proof.
  unfold resetFilter, persistIfEnabled.
  cbn [persistenceSettings withCurrentFilters].
  by destruct (getPersist (persistenceSettings w) t).
Qed.

(** The outcomes of [addCustomSite]: nothing but a toast, or the new
    entry. *)
Lemma addCustomSite_cases toUpperCase w n u :
  let w' := addCustomSite toUpperCase w n u in
  sameState w w'
  \/ exists siteName siteUrl,
       n = Some siteName /\ u = Some siteUrl
       /\ (Z.of_nat (length (filtersSite w)) - Z.of_nat (length DEFAULT_SITES)
           < Z.of_nat CONFIG.MAX_CUSTOM_SITES)%Z
       /\ isValidNonEmptyString siteName = true
       /\ (length (Str.trim siteName) <= CONFIG.MAX_SITE_NAME_LENGTH)%nat
       /\ sanitizeHTML (Str.trim siteName) = Str.trim siteName
       /\ isValidURL siteUrl = true
       /\ truthy (getProperty (filtersSite w)
                    (siteKeyOf (cleanURLDomain siteUrl))) = false
       /\ w' = showToast
                 (saveCustomSites
                    (withFiltersSite w
                       (setProperty (filtersSite w)
                          (siteKeyOf (cleanURLDomain siteUrl))
                          {| st_name := Str.trim siteName;
                             st_short :=
                               take 12 (toUpperCase (Str.trim siteName));
                             query := js "site:" ++ cleanURLDomain siteUrl;
                             domain := cleanURLDomain siteUrl;
                             icon := js "https://" ++ cleanURLDomain siteUrl
                                     ++ js "/favicon.ico" |})))
                 (Str.trim siteName ++ js " added successfully")
                 (js "success").
Proof.
  intros w'. subst w'. unfold addCustomSite.
  destruct (_ <=? _)%Z eqn:Hcap;
    [left; apply sameState_emit |].
  destruct n as [siteName |]; [| left; apply sameState_refl].
  destruct (isValidNonEmptyString siteName) eqn:Hname; cbn [negb];
    [| left; apply sameState_refl].
  destruct (_ <? _)%nat eqn:Hlen; [left; apply sameState_emit |].
  destruct (bool_decide_reflect
              (sanitizeHTML (Str.trim siteName) = Str.trim siteName))
    as [Hsan | Hsan]; cbn [negb]; [| left; apply sameState_emit].
  destruct u as [siteUrl |]; [| left; apply sameState_refl].
  destruct (isValidNonEmptyString siteUrl) eqn:Hurl; cbn [negb];
    [| left; apply sameState_refl].
  destruct (isValidURL siteUrl) eqn:Hvalid; cbn [negb];
    [| left; apply sameState_emit].
  destruct (truthy _) eqn:Hexists; [left; apply sameState_emit |].
  right. exists siteName, siteUrl.
  apply Z.leb_gt in Hcap. apply Nat.ltb_ge in Hlen.
  rewrite !Hsan. by repeat split.
Qed.

(** The outcomes of [removeCustomSite]. *)
Lemma removeCustomSite_cases w siteKey confirmed :
  let w' := removeCustomSite w siteKey confirmed in
  sameState w w'
  \/ siteKey <> []
     /\ truthy (getProperty (filtersSite w) siteKey) = true
     /\ isDefaultSite siteKey = false
     /\ confirmed = true
     /\ filtersSite w' = deleteProperty (filtersSite w) siteKey
     /\ persistenceSettings w' = persistenceSettings w
     /\ currentFilters w'
        = (if decide (site (currentFilters w) = siteKey)
           then setFilter (currentFilters w) Site (js "all")
           else currentFilters w)
     /\ localStorage w'
        = <[js "googleSearchCustomSites" :=
              JSON.stringify
                (List.filter (fun e => negb (isDefaultSite e.1))
                   (deleteProperty (filtersSite w) siteKey))]>
            (if decide (site (currentFilters w) = siteKey)
             then if getPersist (persistenceSettings w) Site
                  then <[getStorageKey Site := js "all"]> (localStorage w)
                  else localStorage w
             else localStorage w)
     /\ location w' = location w.
Proof.
  intros w'. subst w'. unfold removeCustomSite.
  case_decide; [left; apply sameState_emit |].
  destruct (truthy _) eqn:Htruthy; cbn [negb]; [| left; apply sameState_emit].
  destruct (isDefaultSite siteKey) eqn:Hdef; [left; apply sameState_emit |].
  destruct confirmed; [| left; apply sameState_refl].
  right. cbn [withFiltersSite currentFilters].
  repeat (split; [done |]).
  case_decide; cbn [getPersist];
    [destruct (persistSite _) |]; by repeat split.
Qed.







Lemma togglePersistence_fields w t :
  let enabled := negb (getPersist (persistenceSettings w) t) in
  let ls1 :=
    <[getPersistStorageKey t := boolText enabled]> (localStorage w) in
  filtersSite (togglePersistence w t) = filtersSite w
  /\ persistenceSettings (togglePersistence w t)
     = setPersist (persistenceSettings w) t enabled
  /\ currentFilters (togglePersistence w t)
     = (if enabled then currentFilters w
        else setFilter (currentFilters w) t (defaultValue t))
  /\ localStorage (togglePersistence w t)
     = (if enabled then <[getStorageKey t := getFilter (currentFilters w) t]> ls1
        else base.delete (getStorageKey t) ls1)
  /\ location (togglePersistence w t) = location w.
Proof.
  unfold togglePersistence.
  destruct (getPersist (persistenceSettings w) t); cbn [negb];
    by repeat split.
Qed.

(** X4.  Toggling the persistence of a category twice in a row puts its
    flag back, in memory and in the store, but not its selection: whatever
    was selected, the category is at its neutral value afterwards, and the
    store holds the neutral value if the flag is on and nothing if it is
    off. *)
Theorem togglePersistence_twice w t :
  let w2 := togglePersistence (togglePersistence w t) t in
  persistenceSettings w2 = persistenceSettings w
  /\ localStorage w2 !! getPersistStorageKey t
     = Some (boolText (getPersist (persistenceSettings w) t))
  /\ currentFilters w2 = setFilter (currentFilters w) t (defaultValue t)
  /\ localStorage w2 !! getStorageKey t
     = (if getPersist (persistenceSettings w) t
        then Some (defaultValue t) else None).
Proof.
  intros w2. subst w2.
  destruct (togglePersistence_fields (togglePersistence w t) t)
    as (_ & -> & -> & -> & _).
  destruct (togglePersistence_fields w t) as (_ & -> & -> & -> & _).
  rewrite !getPersist_setPersist, negb_involutive.
  split; [| split; [| split]].
  - apply persistenceSettings_ext. intros t'.
    destruct (decide (t = t')) as [<- | Hne].
    + by rewrite getPersist_setPersist.
    + by rewrite !getPersist_setPersist_ne.
  - destruct (getPersist (persistenceSettings w) t); cbn [negb].
    + rewrite lookup_insert_ne by apply getStorageKey_not_persist.
      by rewrite lookup_insert_eq.
    + rewrite lookup_delete_ne by apply getStorageKey_not_persist.
      by rewrite lookup_insert_eq.
  - by destruct (getPersist (persistenceSettings w) t).
  - destruct (getPersist (persistenceSettings w) t); cbn [negb].
    + by rewrite lookup_insert_eq, getFilter_setFilter.
    + by rewrite lookup_delete_eq.
Qed.

(** ** The invariant of the filter state *)

Lemma validState_forall sites cf :
  validState sites cf = true
  <-> forall t, validValue sites t (getFilter cf t) = true.
Proof.
  unfold validState. rewrite forallb_forall. split.
  - intros H t. apply H. destruct t; cbn; tauto.
  - intros H t _. apply H.
Qed.

Lemma validState_setFilter sites cf t v :
  validState sites cf = true -> validValue sites t v = true ->
  validState sites (setFilter cf t v) = true.
Proof.
  rewrite !validState_forall. intros H Hv t'.
  destruct (decide (t = t')) as [<- | Hne].
  - by rewrite getFilter_setFilter.
  - by rewrite getFilter_setFilter_ne.
Qed.

Lemma validValue_other sites sites' t v :
  t <> Site -> validValue sites' t v = validValue sites t v.
Proof. by destruct t. Qed.

(** A table that keeps the entry of the selected site keeps the state
    valid. *)
Lemma validState_sites sites sites' cf :
  (hasOwn sites (site cf) = true -> hasOwn sites' (site cf) = true) ->
  validState sites cf = true -> validState sites' cf = true.
Proof.
  rewrite !validState_forall. intros Hs H t.
  destruct (decide (t = Site)) as [-> | Hne].
  - specialize (H Site). unfold validValue, inCatalog in *.
    cbn [getFilter] in *.
    apply orb_true_iff in H as [H | H]; apply orb_true_iff; auto.
  - rewrite (validValue_other sites) by done. apply H.
Qed.

Lemma ownProperty_setProperty_eq {A} (o : list (jsstring * A)) k a :
  ownProperty (setProperty o k a) k = Some a.
Proof.
  induction o as [| [k' a'] o IH]; cbn [setProperty ownProperty].
  - by rewrite decide_True.
  - case_decide; cbn [ownProperty]; [by rewrite decide_True |].
    by rewrite decide_False.
Qed.

Lemma ownProperty_setProperty_ne {A} (o : list (jsstring * A)) k k' a :
  k <> k' -> ownProperty (setProperty o k a) k' = ownProperty o k'.
Proof.
  intros Hne. induction o as [| [k0 a0] o IH]; cbn [setProperty ownProperty].
  - by rewrite decide_False.
  - case_decide; cbn [ownProperty]; [| by rewrite IH].
    subst k0. by rewrite !decide_False.
Qed.

Lemma hasOwn_setProperty {A} (o : list (jsstring * A)) k k' a :
  hasOwn o k' = true -> hasOwn (setProperty o k a) k' = true.
Proof.
  unfold hasOwn. intros H. apply bool_decide_eq_true_2.
  apply bool_decide_eq_true_1 in H.
  destruct (decide (k = k')) as [<- | Hne].
  - by rewrite ownProperty_setProperty_eq.
  - by rewrite ownProperty_setProperty_ne.
Qed.

Lemma fold_resetFilter_valid ts w :
  validState (filtersSite w) (currentFilters w) = true ->
  filtersSite (fold_left resetFilter ts w) = filtersSite w
  /\ validState (filtersSite w)
       (currentFilters (fold_left resetFilter ts w)) = true.
Proof.
  revert w. induction ts as [| t ts IH]; intros w H; [done |].
  cbn [fold_left].
  destruct (resetFilter_fields w t) as (Hs & _ & Hcf & _).
  destruct (IH (resetFilter w t)) as [IH1 IH2].
  - rewrite Hs, Hcf. apply validState_setFilter; [done |].
    apply validValue_default.
  - rewrite IH1, Hs. split; [done |]. by rewrite <- Hs.
Qed.

Lemma validState_reset_site sites sites' cf :
  validState sites cf = true ->
  validState sites' (setFilter cf Site (js "all")) = true.
Proof.
  rewrite !validState_forall. intros H t.
  destruct (decide (t = Site)) as [-> | Hne].
  - rewrite getFilter_setFilter. apply (validValue_default sites' Site).
  - rewrite getFilter_setFilter_ne by done.
    rewrite (validValue_other sites) by done. apply H.
Qed.

Lemma removeCustomSite_validState w k c :
  validState (filtersSite w) (currentFilters w) = true ->
  validState (filtersSite (removeCustomSite w k c))
    (currentFilters (removeCustomSite w k c)) = true.
Proof.
  intros Hw.
  destruct (removeCustomSite_cases w k c)
    as [(-> & _ & -> & _) | (_ & _ & _ & _ & -> & _ & -> & _)]; [done |].
  case_decide as Hsel.
  - by apply validState_reset_site with (sites := filtersSite w).
  - eapply validState_sites; [| exact Hw].
    unfold hasOwn. by rewrite ownProperty_delete_ne.
Qed.

Lemma addCustomSite_validState toUpperCase w n u :
  validState (filtersSite w) (currentFilters w) = true ->
  validState (filtersSite (addCustomSite toUpperCase w n u))
    (currentFilters (addCustomSite toUpperCase w n u)) = true.
Proof.
  intros Hw.
  destruct (addCustomSite_cases toUpperCase w n u)
    as [(-> & _ & -> & _) | (? & ? & _ & _ & _ & _ & _ & _ & _ & _ & ->)];
    [done |].
  unfold showToast, emit, saveCustomSites, setItem, withFiltersSite.
  cbn [filtersSite currentFilters].
  eapply validState_sites; [| exact Hw]. apply hasOwn_setProperty.
Qed.

Lemma clearAllFilters_validState w :
  validState (filtersSite w) (currentFilters w) = true ->
  validState (filtersSite (clearAllFilters w))
    (currentFilters (clearAllFilters w)) = true.
Proof.
  intros Hw. unfold clearAllFilters.
  destruct (hasActiveFilters _); cbn [negb]; [| done].
  destruct (fold_resetFilter_valid allFilterTypes w Hw) as [Hs Hcf].
  unfold showToast, emit.
  destruct (isSearchPage _); cbn [filtersSite currentFilters];
    by rewrite Hs.
Qed.

Lemma togglePersistence_validState w t :
  validState (filtersSite w) (currentFilters w) = true ->
  validState (filtersSite (togglePersistence w t))
    (currentFilters (togglePersistence w t)) = true.
Proof.
  intros Hw.
  destruct (togglePersistence_fields w t) as (-> & _ & -> & _).
  destruct (negb _); [done |].
  apply validState_setFilter; [done | apply validValue_default].
Qed.

Lemma clearFilter_validState w t :
  validState (filtersSite w) (currentFilters w) = true ->
  validState (filtersSite (clearFilter w t))
    (currentFilters (clearFilter w t)) = true.
Proof.
  intros Hw. destruct (clearFilter_fields w t) as (-> & _ & -> & _).
  apply validState_setFilter; [done | apply validValue_default].
Qed.

(** X5.  The invariant of the filter state is kept by every click on the
    panel, provided a click on a filter element carries a code of the
    catalog as it is then: after the click every category is at its
    neutral value or at a code of the catalog that the click leaves.  This
    covers selecting, clearing one or all categories, toggling a flag, and
    adding or removing a custom site with any answer to the dialogs. *)
Theorem panelClick_validState toUpperCase p e :
  validState (filtersSite (engine p)) (currentFilters (engine p)) = true ->
  legalClick p e = true ->
  let p' := panelClick toUpperCase p e in
  validState (filtersSite (engine p')) (currentFilters (engine p')) = true.
Proof.
  intros Hp Hlegal p'. subst p'. unfold panelClick.
  assert (Hrest :
    let p' :=
      match removeBtn e with
      | Some site =>
          withEngine p
            (removeCustomSite (engine p) (default [] site) (confirmAnswer e))
      | None =>
          if clearFiltersBtn e then withEngine p (clearAllFilters (engine p))
          else if clearSiteFilterBtn e then
            withEngine p (clearSiteFilter (engine p))
          else if clearTimeFilterBtn e then
            withEngine p (clearTimeFilter (engine p))
          else if addSiteBtn e then
            withEngine p
              (addCustomSite toUpperCase (engine p)
                 (promptedName e) (promptedUrl e))
          else if settingsToggle e then toggleSettingsCollapse p
          else
            match toggleSwitch e with
            | Some (Some AutoOpen) => toggleAutoOpen p
            | Some (Some (Persistence filterType)) =>
                withEngine p (togglePersistence (engine p) filterType)
            | _ => p
            end
      end in
    validState (filtersSite (engine p')) (currentFilters (engine p')) = true).
  { cbn zeta.
    destruct (removeBtn e) as [site |];
      [by apply removeCustomSite_validState |].
    destruct (clearFiltersBtn e); [by apply clearAllFilters_validState |].
    destruct (clearSiteFilterBtn e); [by apply clearFilter_validState |].
    destruct (clearTimeFilterBtn e); [by apply clearFilter_validState |].
    destruct (addSiteBtn e); [by apply addCustomSite_validState |].
    destruct (settingsToggle e); [exact Hp |].
    destruct (toggleSwitch e) as [[[| t] |] |]; try exact Hp.
    - unfold toggleAutoOpen, togglePanel. by repeat case_match.
    - by apply togglePersistence_validState. }
  unfold legalClick in Hlegal.
  destruct (filterElement e) as [[[type |] [[| c value] |]] |];
    try exact Hrest.
  cbn [engine withEngine].
  destruct (selectFilter_frame (engine p) type (c :: value)) as (-> & _).
  rewrite selectFilter_currentFilters. by apply validState_setFilter.
Qed.

Lemma panelClick_validState_witness :
  let p := loadPanel filters.site ∅ Sample.resultsPage in
  let e := {| filterElement := Some (Some Time, Some (js "week"));
              removeBtn := None; clearFiltersBtn := false;
              clearSiteFilterBtn := false; clearTimeFilterBtn := false;
              addSiteBtn := false; settingsToggle := false;
              toggleSwitch := None; promptedName := None;
              promptedUrl := None; confirmAnswer := false |} in
  let p' := panelClick Sample.upper p e in
  validState (filtersSite (engine p')) (currentFilters (engine p')) = true.
Proof.
  intros p e. apply (panelClick_validState Sample.upper p e).
  - vm_compute. reflexivity.
  - vm_compute. reflexivity.
Defined.

(** ** The badge of the button *)

Lemma hasOwn_getProperty {A} (o : list (jsstring * A)) k :
  hasOwn o k = true -> exists a, getProperty o k = Own a.
Proof.
  intros H. apply hasOwn_Some in H as [a Ha].
  exists a. unfold getProperty. by rewrite Ha.
Qed.

Lemma entryShort_own w t v :
  inCatalog (filtersSite w) t v = true -> exists s, entryShort w t v = Own s.
Proof.
  unfold inCatalog, entryShort. intros H.
  destruct t; apply hasOwn_getProperty in H as [a ->]; by eexists.
Qed.

(** X6.  In a valid state the number on the button is the number of
    categories that are not at their neutral value, and it is zero exactly
    when [hasActiveFilters] says that nothing is active. *)
Theorem getActiveFiltersInfo_count w :
  validState (filtersSite w) (currentFilters w) = true ->
  (getActiveFiltersInfo w).1
  = length (List.filter
              (fun t => negb (bool_decide (getFilter (currentFilters w) t
                                           = defaultValue t)))
              allFilterTypes)
  /\ ((getActiveFiltersInfo w).1 = 0%nat
      <-> hasActiveFilters (currentFilters w) = false).
Proof.
  intros Hw. rewrite validState_forall in Hw.
  unfold getActiveFiltersInfo, activeShorts. cbn [fst].
  set (f := fun key : FilterType => _).
  assert (Hcount : forall ts,
    length (flat_map f ts)
    = length (List.filter
                (fun t => negb (bool_decide (getFilter (currentFilters w) t
                                             = defaultValue t))) ts)).
  { induction ts as [| t ts IH]; [done |].
    change (flat_map f (t :: ts)) with (f t ++ flat_map f ts).
    cbn [List.filter]. rewrite length_app, IH. unfold f at 1. cbn zeta.
    destruct (bool_decide_reflect
                (getFilter (currentFilters w) t = defaultValue t))
      as [Heq | Hne]; cbn [negb]; [done |].
    specialize (Hw t). unfold validValue in Hw.
    rewrite bool_decide_eq_false_2 in Hw by done. cbn [orb] in Hw.
    apply entryShort_own in Hw as [s ->]. done. }
  split; [apply Hcount |].
  rewrite Hcount. unfold hasActiveFilters.
  generalize allFilterTypes. intros ts.
  induction ts as [| t ts IH]; [done |].
  cbn [List.filter existsb].
  destruct (negb _); cbn [orb length]; [split; discriminate | exact IH].
Qed.

Lemma getActiveFiltersInfo_count_witness :
  let w := Sample.world filters.site Sample.allOn
             (setFilter (setFilter Sample.neutral Time (js "week"))
                Site (js "github"))
             Sample.resultsPage in
  (getActiveFiltersInfo w).1 = 2%nat.
Proof.
  intros w.
  exact (proj1 (getActiveFiltersInfo_count w ltac:(vm_compute; reflexivity))).
Defined.

(** ** The inbound parse keeps the invariant and is idempotent *)

Lemma findEntry_hasOwn {A} (f : A -> bool) (o : list (jsstring * A)) k a :
  findEntry f o = Some (k, a) -> hasOwn o k = true.
Proof.
  unfold hasOwn. intros H. apply bool_decide_eq_true_2.
  induction o as [| [k' a'] o IH]; [done |].
  cbn [findEntry ownProperty] in *.
  case_decide; [by eexists |].
  destruct (f a'); [| by auto]. by simplify_eq.
Qed.

Lemma syncFiltersFromURL_frame utcOffset w :
  filtersSite (syncFiltersFromURL utcOffset w) = filtersSite w
  /\ persistenceSettings (syncFiltersFromURL utcOffset w)
     = persistenceSettings w
  /\ localStorage (syncFiltersFromURL utcOffset w) = localStorage w
  /\ location (syncFiltersFromURL utcOffset w) = location w
  /\ effects (syncFiltersFromURL utcOffset w) = effects w.
Proof. unfold syncFiltersFromURL. by destruct (isSearchPage w). Qed.

(** X7.  The inbound parse keeps the invariant of the filter state, for
    every address whose [lr] code is not the name of a member of
    [Object.prototype]: what it reads from the address is the neutral value
    or a code of the catalog. *)
Theorem syncFiltersFromURL_validState utcOffset w :
  validState (filtersSite w) (currentFilters w) = true ->
  Str.removeFirst
    (URLSearchParams.getOrEmpty (searchParams (href (location w))) (js "lr"))
    (js "lang_") ∉ objectPrototypeNames ->
  validState (filtersSite w)
    (currentFilters (syncFiltersFromURL utcOffset w)) = true.
Proof.
  intros Hw Hlr. rewrite validState_forall in *. intros t.
  rewrite syncFiltersFromURL_getFilter.
  destruct t.
  - destruct (isSearchPage w); [| apply Hw].
    unfold syncSearchLang. case_decide; [apply Hw |].
    destruct (truthy _) eqn:Htruthy; [| apply Hw].
    rewrite getFilter_setFilter. unfold validValue, inCatalog, hasOwn.
    apply orb_true_iff. right. apply bool_decide_eq_true_2.
    unfold getProperty in Htruthy.
    destruct (ownProperty filters.searchLang _); [by eexists |].
    by rewrite decide_False in Htruthy.
  - unfold syncInterfaceLang. case_decide; [apply Hw |].
    rewrite getFilter_setFilter. unfold interfaceLangFor.
    destruct (findEntry _ _) as [[k a] |] eqn:Hfind; cbn [fmap option_fmap option_map fst];
      [| reflexivity].
    destruct k as [| c k]; [reflexivity |]. cbn [orDefault].
    apply findEntry_hasOwn in Hfind. unfold validValue, inCatalog.
    rewrite Hfind. apply orb_true_r.
  - unfold syncRegion. case_decide; [apply Hw |].
    rewrite getFilter_setFilter. unfold regionFor.
    destruct (findEntry _ _) as [[k a] |] eqn:Hfind; cbn [fmap option_fmap option_map fst];
      [| reflexivity].
    destruct k as [| c k]; [reflexivity |]. cbn [orDefault].
    apply findEntry_hasOwn in Hfind. unfold validValue, inCatalog.
    rewrite Hfind. apply orb_true_r.
  - destruct (isSearchPage w); [| apply Hw].
    unfold syncSite, siteFor.
    destruct (findEntry _ _) as [[k a] |] eqn:Hfind; cbn [fmap option_fmap option_map fst];
      [| apply Hw].
    rewrite getFilter_setFilter.
    apply findEntry_hasOwn in Hfind. unfold validValue, inCatalog.
    rewrite Hfind. apply orb_true_r.
  - destruct (isSearchPage w); [| apply Hw].
    unfold syncTime. case_decide; [apply Hw |].
    case_match.
    + rewrite syncCustomDateRange_twoYearRange.
      case_match; [| apply Hw]. by rewrite getFilter_setFilter.
    + unfold timeFor.
      destruct (findEntry _ _) as [[k a] |] eqn:Hfind; cbn [fmap option_fmap option_map fst];
        [| apply Hw].
      rewrite getFilter_setFilter.
      apply findEntry_hasOwn in Hfind. unfold validValue, inCatalog.
      rewrite Hfind. apply orb_true_r.
Qed.

Lemma syncFiltersFromURL_validState_witness :
  let w := Sample.world filters.site Sample.allOn Sample.neutral
             (Sample.address
                [(js "q", js "foo site:github.com"); (js "lr", js "lang_tr");
                 (js "tbs", js "qdr:w")]
                (js "?q=foo+site%3Agithub.com&lr=lang_tr&tbs=qdr%3Aw")) in
  validState (filtersSite w)
    (currentFilters (syncFiltersFromURL Sample.utc w)) = true.
Proof.
  intros w. apply (syncFiltersFromURL_validState Sample.utc w).
  - vm_compute. reflexivity.
  - vm_compute. intros H. repeat (inversion H as [| ? ? ? H']; clear H; rename H' into H); inversion H.
Defined.

Lemma syncFiltersFromURL_withCurrentFilters utcOffset w :
  syncFiltersFromURL utcOffset w
  = withCurrentFilters w (currentFilters (syncFiltersFromURL utcOffset w)).
Proof. unfold syncFiltersFromURL. by destruct (isSearchPage w). Qed.

(** X8.  Parsing the address a second time changes nothing: every block of
    the parse either keeps the selection of its category or sets it to a
    value that the address alone determines. *)
Theorem syncFiltersFromURL_idempotent utcOffset w :
  syncFiltersFromURL utcOffset (syncFiltersFromURL utcOffset w)
  = syncFiltersFromURL utcOffset w.
Proof.
  set (w1 := syncFiltersFromURL utcOffset w).
  rewrite (syncFiltersFromURL_withCurrentFilters utcOffset w1).
  assert (Hcf : currentFilters (syncFiltersFromURL utcOffset w1)
                = currentFilters w1).
  { apply currentFilters_ext. intros t.
    rewrite (syncFiltersFromURL_getFilter utcOffset w1).
    destruct (syncFiltersFromURL_frame utcOffset w) as (Hs & _ & _ & Hloc & _).
    fold w1 in Hs, Hloc.
    assert (Hpage : isSearchPage w1 = isSearchPage w)
      by (unfold isSearchPage; by rewrite Hloc).
    rewrite Hpage, Hloc, Hs.
    pose proof (syncFiltersFromURL_getFilter utcOffset w t) as H1.
    fold w1 in H1. cbn zeta in H1.
    destruct t.
    - destruct (isSearchPage w); [| done].
      unfold syncSearchLang in *. case_decide; [done |].
      destruct (truthy _); [| done].
      by rewrite getFilter_setFilter in *.
    - unfold syncInterfaceLang in *. case_decide; [done |].
      by rewrite getFilter_setFilter in *.
    - unfold syncRegion in *. case_decide; [done |].
      by rewrite getFilter_setFilter in *.
    - destruct (isSearchPage w); [| done].
      unfold syncSite in *. destruct (siteFor _ _); [| done].
      by rewrite getFilter_setFilter in *.
    - destruct (isSearchPage w); [| done].
      unfold syncTime in *. case_decide; [done |].
      destruct (Str.startsWith _ _).
      + rewrite !syncCustomDateRange_twoYearRange in *.
        destruct (twoYearRange _ _); [| done].
        by rewrite getFilter_setFilter in *.
      + destruct (timeFor _); [| done].
        by rewrite getFilter_setFilter in *. }
  rewrite Hcf. by destruct w1.
Qed.

(** ** Custom sites *)

Lemma siteKeyOf_app a b : siteKeyOf (a ++ b) = siteKeyOf a ++ siteKeyOf b.
Proof. unfold siteKeyOf. by rewrite map_app, List.filter_app. Qed.

Lemma siteKeyOf_letters s :
  forallb Str.isLetter s = true -> siteKeyOf s = s.
Proof.
  unfold siteKeyOf. induction s as [| c s IH]; [done |].
  cbn [forallb map List.filter]. rewrite andb_true_iff. intros [Hc Hs].
  assert (Hdot : (c =? 46)%N = false).
  { apply N.eqb_neq. intros ->. vm_compute in Hc. discriminate Hc. }
  rewrite Hdot. unfold Str.isAlnum at 1. rewrite Hc. cbn [orb].
  by rewrite IH.
Qed.

(** The key made from a domain that passes the host pattern ends in an
    underscore followed by the letters of the top-level domain. *)
Lemma siteKeyOf_shape s :
  URL_VALIDATION_REGEX_test s = true ->
  exists host c tld,
    siteKeyOf s = siteKeyOf host ++ 95%N :: tld ++ [c]
    /\ Str.isLetter c = true.
Proof.
  unfold URL_VALIDATION_REGEX_test. rewrite existsb_exists.
  intros (i & _ & Hi).
  destruct (drop i s) as [| dot tld] eqn:Hdrop; [done |].
  rewrite !andb_true_iff in Hi.
  destruct Hi as ((((_ & _) & Hdot) & Hlen) & Htld).
  apply N.eqb_eq in Hdot. subst dot. apply Nat.leb_le in Hlen.
  destruct (rev tld) as [| c r] eqn:Hrev.
  { apply (f_equal (@length _)) in Hrev. rewrite length_rev in Hrev.
    cbn in Hrev. lia. }
  assert (Htld' : tld = rev r ++ [c]).
  { rewrite <- (rev_involutive tld), Hrev. reflexivity. }
  exists (take i s), c, (rev r).
  rewrite <- (take_drop i s) at 1. rewrite Hdrop, siteKeyOf_app.
  split.
  - f_equal. change (46%N :: tld) with ([46%N] ++ tld).
    rewrite siteKeyOf_app, (siteKeyOf_letters tld Htld), Htld'. reflexivity.
  - rewrite Htld', forallb_app in Htld. cbn [forallb] in Htld.
    rewrite !andb_true_iff in Htld. tauto.
Qed.

Lemma siteKeyOf_rev s :
  URL_VALIDATION_REGEX_test s = true ->
  exists c r, rev (siteKeyOf s) = c :: r
              /\ Str.isLetter c = true /\ 95%N ∈ r.
Proof.
  intros (host & c & tld & -> & Hc)%siteKeyOf_shape.
  exists c, (rev tld ++ 95%N :: rev (siteKeyOf host)).
  split; [| split; [done |]].
  - change (95%N :: tld ++ [c]) with ((95%N :: tld) ++ [c]).
    rewrite app_assoc, rev_app_distr. cbn [rev app].
    rewrite rev_app_distr. cbn [rev app]. by rewrite <- app_assoc.
  - apply elem_of_app. right. left.
Qed.

Lemma isValidURL_pattern u :
  isValidURL u = true -> URL_VALIDATION_REGEX_test (cleanURLDomain u) = true.
Proof.
  unfold isValidURL. destruct (isValidNonEmptyString u); [| done].
  by intros [_ H]%andb_true_iff.
Qed.

Lemma siteKeyOf_not_reserved u :
  isValidURL u = true ->
  siteKeyOf (cleanURLDomain u) <> []
  /\ siteKeyOf (cleanURLDomain u) <> js "all"
  /\ siteKeyOf (cleanURLDomain u) ∉ objectPrototypeNames.
Proof.
  intros (c & r & Hrev & Hc & Hr)%isValidURL_pattern%siteKeyOf_rev.
  assert (Hno : forall name : jsstring,
            match rev name with
            | [] => True
            | c' :: r' => Str.isLetter c' = false \/ 95%N ∉ r'
            end ->
            siteKeyOf (cleanURLDomain u) <> name).
  { intros name Hname E. rewrite E in Hrev. rewrite Hrev in Hname.
    destruct Hname as [Hname | Hname]; [congruence | done]. }
  assert (Hplain : forall l : jsstring,
            forallb (fun x => negb (x =? 95)%N) l = true -> 95%N ∉ l).
  { intros l Hl Hin. rewrite forallb_forall in Hl.
    apply list_elem_of_In, Hl in Hin. by rewrite N.eqb_refl in Hin. }
  split; [| split].
  - apply Hno. exact I.
  - apply Hno. right. by apply Hplain.
  - unfold objectPrototypeNames. cbn [map].
    rewrite !not_elem_of_cons. repeat split;
      try (apply Hno; first [ by left | right; by apply Hplain ]).
    apply not_elem_of_nil.
Qed.

Lemma truthy_hasOwn {A} (o : list (jsstring * A)) k :
  k ∉ objectPrototypeNames -> truthy (getProperty o k) = hasOwn o k.
Proof.
  intros Hk. unfold getProperty, hasOwn.
  destruct (ownProperty o k) eqn:Hown.
  - symmetry. apply bool_decide_eq_true_2. by eexists.
  - rewrite decide_False by done. symmetry. apply bool_decide_eq_false_2.
    by intros [? ?].
Qed.

(** X9.  The key that [addCustomSite] makes from a domain it accepts is
    never empty, never the neutral value [all] and never the name of a
    member of [Object.prototype]: the test [filters.site[siteKey]] is true
    exactly when the table has an entry with that key, so "Site already
    exists" is never reported for a key that is free. *)
Theorem siteKey_free u (sites : list (jsstring * SiteDef)) :
  isValidURL u = true ->
  let siteKey := siteKeyOf (cleanURLDomain u) in
  siteKey <> [] /\ siteKey <> js "all"
  /\ truthy (getProperty sites siteKey) = hasOwn sites siteKey.
Proof.
  intros Hu siteKey.
  destruct (siteKeyOf_not_reserved u Hu) as (H1 & H2 & H3).
  repeat split; [done .. |]. by apply truthy_hasOwn.
Qed.

Lemma siteKey_free_witness :
  truthy (getProperty filters.site (siteKeyOf (cleanURLDomain (js "https://twitter.com/home"))))
  = hasOwn filters.site (siteKeyOf (cleanURLDomain (js "https://twitter.com/home"))).
Proof.
  exact (proj2 (proj2 (siteKey_free (js "https://twitter.com/home") filters.site
                         ltac:(vm_compute; reflexivity)))).
Defined.

Lemma setProperty_new {A} (o : list (jsstring * A)) k a :
  ownProperty o k = None -> setProperty o k a = o ++ [(k, a)].
Proof.
  induction o as [| [k' a'] o IH]; [done |].
  cbn [ownProperty setProperty]. case_decide; [done |].
  intros Hnone. by rewrite IH.
Qed.

Lemma truthy_false_ownProperty {A} (o : list (jsstring * A)) k :
  truthy (getProperty o k) = false -> ownProperty o k = None.
Proof. unfold getProperty. by destruct (ownProperty o k). Qed.

Lemma hasOwn_truthy {A} (o : list (jsstring * A)) k :
  hasOwn o k = true -> truthy (getProperty o k) = true.
Proof. by intros [a ->]%hasOwn_getProperty. Qed.

Lemma isValidURL_nonEmpty u :
  isValidURL u = true -> isValidNonEmptyString u = true.
Proof. unfold isValidURL. by destruct (isValidNonEmptyString u). Qed.

(** X10.  What [addCustomSite] does with a name and a domain it accepts,
    below the limit and for a key that is free: the new entry goes last in
    [filters.site], with the trimmed name, the fragment [site:] followed by
    the cleaned domain, and the favicon address of that domain; the custom
    sites are written to the store; selection and flags are untouched. *)
Theorem addCustomSite_adds toUpperCase w siteName siteUrl :
  (length (filtersSite w)
   < length DEFAULT_SITES + CONFIG.MAX_CUSTOM_SITES)%nat ->
  isValidNonEmptyString siteName = true ->
  (length (Str.trim siteName) <= CONFIG.MAX_SITE_NAME_LENGTH)%nat ->
  sanitizeHTML (Str.trim siteName) = Str.trim siteName ->
  isValidURL siteUrl = true ->
  hasOwn (filtersSite w) (siteKeyOf (cleanURLDomain siteUrl)) = false ->
  let cleanUrl := cleanURLDomain siteUrl in
  let siteKey := siteKeyOf cleanUrl in
  let w' := addCustomSite toUpperCase w (Some siteName) (Some siteUrl) in
  filtersSite w'
  = filtersSite w
    ++ [(siteKey,
         {| st_name := Str.trim siteName;
            st_short := take 12 (toUpperCase (Str.trim siteName));
            query := js "site:" ++ cleanUrl;
            domain := cleanUrl;
            icon := js "https://" ++ cleanUrl ++ js "/favicon.ico" |})]
  /\ currentFilters w' = currentFilters w
  /\ persistenceSettings w' = persistenceSettings w
  /\ localStorage w'
     = <[js "googleSearchCustomSites" :=
           JSON.stringify
             (List.filter (fun e => negb (isDefaultSite e.1))
                (filtersSite w'))]> (localStorage w)
  /\ effects w'
     = Toast (Str.trim siteName ++ js " added successfully") (js "success")
       :: SetItem (js "googleSearchCustomSites")
            (JSON.stringify
               (List.filter (fun e => negb (isDefaultSite e.1))
                  (filtersSite w')))
       :: effects w.
Proof.
  intros Hcap Hname Hlen Hsan Hurl Hfree cleanUrl siteKey w'.
  assert (Htruthy : truthy (getProperty (filtersSite w) siteKey) = false).
  { rewrite truthy_hasOwn; [exact Hfree |].
    apply (siteKeyOf_not_reserved siteUrl Hurl). }
  assert (Hw' : w' = showToast
                 (saveCustomSites
                    (withFiltersSite w
                       (setProperty (filtersSite w) siteKey
                          {| st_name := Str.trim siteName;
                             st_short :=
                               take 12 (toUpperCase (Str.trim siteName));
                             query := js "site:" ++ cleanUrl;
                             domain := cleanUrl;
                             icon := js "https://" ++ cleanUrl
                                     ++ js "/favicon.ico" |})))
                 (Str.trim siteName ++ js " added successfully")
                 (js "success")).
  { subst w'. unfold addCustomSite.
    replace (_ <=? _)%Z with false
      by (symmetry; apply Z.leb_gt; lia).
    rewrite Hname. cbn [negb].
    replace (_ <? _)%nat with false by (symmetry; by apply Nat.ltb_ge).
    rewrite Hsan, bool_decide_eq_true_2 by done. cbn [negb].
    rewrite (isValidURL_nonEmpty _ Hurl), Hurl. cbn [negb].
    fold cleanUrl. fold siteKey. by rewrite Htruthy. }
  rewrite Hw'. unfold showToast, emit, saveCustomSites, setItem, withFiltersSite.
  cbn [filtersSite currentFilters persistenceSettings localStorage effects].
  rewrite setProperty_new by by apply truthy_false_ownProperty.
  by repeat split.
Qed.

Lemma addCustomSite_adds_witness :
  let w := Sample.world filters.site Sample.allOn Sample.neutral
             Sample.resultsPage in
  siteQueryText
    (filtersSite
       (addCustomSite Sample.upper w (Some (js " Twitter "))
          (Some (js "https://twitter.com/home"))))
    (js "twitter_com")
  = Some (js "site:twitter.com").
Proof.
  intros w.
  rewrite (proj1 (addCustomSite_adds Sample.upper w (js " Twitter ")
                    (js "https://twitter.com/home")
                    ltac:(vm_compute; lia) ltac:(vm_compute; reflexivity)
                    ltac:(vm_compute; lia) ltac:(vm_compute; reflexivity)
                    ltac:(vm_compute; reflexivity)
                    ltac:(vm_compute; reflexivity))).
  vm_compute. reflexivity.
Defined.

(** X11.  [addCustomSite] never changes or removes an entry of
    [filters.site], never lets the table grow beyond the built-in sites
    and the allowed number of custom sites, and never touches selection or
    flags; and when the key made from the entered domain is taken already,
    it changes nothing at all, whatever name was entered. *)
Theorem addCustomSite_conservative toUpperCase w siteName siteUrl :
  let w' := addCustomSite toUpperCase w siteName siteUrl in
  (forall k d, ownProperty (filtersSite w) k = Some d ->
               ownProperty (filtersSite w') k = Some d)
  /\ ((length (filtersSite w)
       <= length DEFAULT_SITES + CONFIG.MAX_CUSTOM_SITES)%nat ->
      (length (filtersSite w')
       <= length DEFAULT_SITES + CONFIG.MAX_CUSTOM_SITES)%nat)
  /\ currentFilters w' = currentFilters w
  /\ persistenceSettings w' = persistenceSettings w
  /\ (forall u, siteUrl = Some u ->
        hasOwn (filtersSite w) (siteKeyOf (cleanURLDomain u)) = true ->
        sameState w w').
Proof.
  intros w'. subst w'.
  destruct (addCustomSite_cases toUpperCase w siteName siteUrl)
    as [Hsame | (n & u & -> & -> & Hcap & _ & _ & _ & Hurl & Hfree & ->)].
  - pose proof Hsame as (Hs & Hps & Hcf & Hls & Hloc).
    rewrite Hs, Hps, Hcf. by repeat split.
  - unfold showToast, emit, saveCustomSites, setItem, withFiltersSite.
    cbn [filtersSite currentFilters persistenceSettings].
    pose proof (truthy_false_ownProperty _ _ Hfree) as Hnone.
    split; [| split; [| split; [done | split; [done |]]]].
    + intros k d Hk. rewrite ownProperty_setProperty_ne; [done |].
      intros <-. congruence.
    + intros _. rewrite setProperty_new, length_app by done.
      cbn [length]. lia.
    + intros u' [= <-] Hown. apply hasOwn_truthy in Hown. congruence.
Qed.

Lemma addCustomSite_conservative_witness :
  let w := Sample.world (filters.site ++ [Sample.twitter]) Sample.allOn
             Sample.neutral Sample.resultsPage in
  sameState w
    (addCustomSite Sample.upper w (Some (js "Birdsite"))
       (Some (js "http://twitter.com/explore"))).
Proof.
  intros w.
  apply (proj2 (proj2 (proj2 (proj2
           (addCustomSite_conservative Sample.upper w (Some (js "Birdsite"))
              (Some (js "http://twitter.com/explore"))))))
           (js "http://twitter.com/explore") eq_refl).
  vm_compute. reflexivity.
Defined.

(** X12.  [removeCustomSite] touches no entry but the one named; for a
    built-in site, or when the user does not confirm, it changes nothing
    but the trace (a warning, or nothing at all); so the built-in sites
    are entries of [filters.site] after every call. *)
Theorem removeCustomSite_only_named w siteKey confirmed :
  let w' := removeCustomSite w siteKey confirmed in
  (forall k, k <> siteKey ->
             ownProperty (filtersSite w') k = ownProperty (filtersSite w) k)
  /\ (isDefaultSite siteKey = true \/ confirmed = false -> sameState w w')
  /\ (forall k, isDefaultSite k = true ->
                ownProperty (filtersSite w') k = ownProperty (filtersSite w) k)
  /\ persistenceSettings w' = persistenceSettings w
  /\ (forall t, t <> Site ->
                getFilter (currentFilters w') t = getFilter (currentFilters w) t).
Proof.
  intros w'. subst w'.
  destruct (removeCustomSite_cases w siteKey confirmed)
    as [Hsame | (_ & _ & Hdef & Hc & Hs & Hps & Hcf & _)].
  - pose proof Hsame as (Hs & Hps & Hcf & Hls & Hloc).
    rewrite Hs, Hps, Hcf. by repeat split.
  - rewrite Hs, Hps, Hcf.
    split; [| split; [| split; [| split; [done |]]]].
    + intros k Hk. by apply ownProperty_delete_ne.
    + intros [H | H]; congruence.
    + intros k Hk. apply ownProperty_delete_ne. intros <-. congruence.
    + intros t Ht. case_decide; [| done].
      by rewrite getFilter_setFilter_ne.
Qed.

Lemma removeCustomSite_only_named_witness :
  let w := Sample.world (filters.site ++ [Sample.twitter]) Sample.allOn
             Sample.neutral Sample.resultsPage in
  sameState w (removeCustomSite w (js "github") true).
Proof.
  intros w.
  apply (proj1 (proj2 (removeCustomSite_only_named w (js "github") true))).
  left. vm_compute. reflexivity.
Defined.

Lemma elem_of_setProperty {A} (o : list (jsstring * A)) k a x :
  x ∈ setProperty o k a -> x ∈ o \/ x = (k, a).
Proof.
  induction o as [| [k' a'] o IH]; cbn [setProperty].
  - rewrite list_elem_of_singleton. by right.
  - case_decide; rewrite !elem_of_cons; [tauto |].
    intros [-> | Hx]; [tauto |]. destruct (IH Hx); tauto.
Qed.

Lemma ownProperty_elem_of {A} (o : list (jsstring * A)) k a :
  ownProperty o k = Some a -> (k, a) ∈ o.
Proof.
  induction o as [| [k' a'] o IH]; [done |]. cbn [ownProperty].
  case_decide; [intros [= <-]; subst; left |].
  intros Hown. right. by apply IH.
Qed.

Lemma fold_setProperty_ownProperty {A} (vs o : list (jsstring * A)) k a :
  ownProperty (fold_left (fun acc e => setProperty acc e.1 e.2) vs o) k
  = Some a ->
  ownProperty o k = Some a \/ (k, a) ∈ vs.
Proof.
  revert o. induction vs as [| [k' a'] vs IH]; intros o; cbn [fold_left];
    [by left |].
  intros [Hown | Hin]%IH; [| right; by right]. cbn [fst snd] in Hown.
  destruct (decide (k' = k)) as [-> | Hne].
  - rewrite ownProperty_setProperty_eq in Hown. right.
    injection Hown as ->. left.
  - rewrite ownProperty_setProperty_ne in Hown by done. by left.
Qed.

Lemma fold_setProperty_hasOwn {A} (vs o : list (jsstring * A)) k :
  hasOwn o k = true ->
  hasOwn (fold_left (fun acc e => setProperty acc e.1 e.2) vs o) k = true.
Proof.
  revert o. induction vs as [| [k' a'] vs IH]; intros o Hown; [done |].
  cbn [fold_left]. by apply IH, hasOwn_setProperty.
Qed.

Lemma fold_left_filter {A B} (p : B -> bool) (g : A -> B -> A) l a :
  fold_left (fun acc e => if p e then g acc e else acc) l a
  = fold_left (fun acc e => if p e then g acc e else acc) (List.filter p l) a.
Proof.
  revert a. induction l as [| e l IH]; intros a; [done |].
  cbn [fold_left List.filter]. destruct (p e) eqn:He; cbn [fold_left].
  - by rewrite He, IH.
  - apply IH.
Qed.

(** X13.  [loadCustomSites] ignores every stored entry that fails the
    validation (blank key; missing or blank name, domain or query): the
    result is the one obtained from the accepted entries alone.  It drops
    no key of [filters.site], and every entry of the result is an entry of
    [filters.site] from before or is built from an accepted stored
    entry, under its sanitized key. *)
Theorem loadCustomSites_validated toUpperCase sites parsed :
  let accepted (e : jsstring * StoredSite) :=
    isValidNonEmptyString e.1 && isValidSiteData e.2
    && negb (bool_decide (sanitizeHTML e.1 = js "__proto__")) in
  let loaded := loadCustomSites toUpperCase sites parsed in
  loaded = loadCustomSites toUpperCase sites (List.filter accepted parsed)
  /\ (forall k, hasOwn sites k = true -> hasOwn loaded k = true)
  /\ (forall k d,
        ownProperty loaded k = Some d ->
        ownProperty sites k = Some d
        \/ exists e, e ∈ parsed /\ accepted e = true
                     /\ k = sanitizeHTML e.1
                     /\ d = validatedSite toUpperCase e.2).
Proof.
  intros accepted loaded. subst loaded. unfold loadCustomSites.
  split; [| split].
  - f_equal.
    apply (fold_left_filter accepted
             (fun acc e =>
                setProperty acc (sanitizeHTML e.1)
                  (validatedSite toUpperCase e.2))).
  - intros k. apply fold_setProperty_hasOwn.
  - intros k d [Hown | Hin]%fold_setProperty_ownProperty; [by left |].
    right. revert Hin.
    change (fun acc e =>
              if isValidNonEmptyString e.1 && isValidSiteData e.2
                 && negb (bool_decide (sanitizeHTML e.1 = js "__proto__"))
              then setProperty acc (sanitizeHTML e.1)
                     (validatedSite toUpperCase e.2)
              else acc)
      with (fun acc e =>
              if accepted e
              then setProperty acc (sanitizeHTML e.1)
                     (validatedSite toUpperCase e.2)
              else acc).
    assert (Hgen : forall acc,
      (k, d) ∈ fold_left
                 (fun acc e =>
                    if accepted e
                    then setProperty acc (sanitizeHTML e.1)
                           (validatedSite toUpperCase e.2)
                    else acc) parsed acc ->
      (k, d) ∈ acc
      \/ exists e, e ∈ parsed /\ accepted e = true
                   /\ k = sanitizeHTML e.1
                   /\ d = validatedSite toUpperCase e.2).
    { induction parsed as [| e parsed IH]; intros acc; cbn [fold_left];
        [by left |].
      intros [Hin | (e' & He' & Hacc & Hk & Hd)]%IH.
      - destruct (accepted e) eqn:He; [| by left].
        apply elem_of_setProperty in Hin as [Hin | [= -> ->]]; [by left |].
        right. exists e. repeat split; [left | done].
      - right. exists e'. repeat split; [by right | done ..]. }
    intros [Hnil | H]%Hgen; [| done]. by apply elem_of_nil in Hnil.
Qed.

(** ** Cleaning an entered address *)

Lemma trimStart_split s :
  exists a, s = a ++ Str.trimStart s /\ forallb Str.isWhiteSpace a = true.
Proof.
  induction s as [| c s (a & Hs & Ha)]; [by exists [] |].
  cbn [Str.trimStart]. destruct (Str.isWhiteSpace c) eqn:Hc.
  - exists (c :: a). cbn [app forallb]. rewrite Hc, Ha. by rewrite <- Hs.
  - by exists [].
Qed.

Lemma trimStart_blank s :
  Str.trimStart s = [] -> forallb Str.isWhiteSpace s = true.
Proof.
  intros H. destruct (trimStart_split s) as (a & Hs & Ha).
  rewrite H, app_nil_r in Hs. by subst.
Qed.

Lemma forallb_rev {A} (f : A -> bool) l :
  forallb f (rev l) = forallb f l.
Proof.
  induction l as [| x l IH]; [done |]. cbn [rev forallb].
  rewrite forallb_app, IH. cbn [forallb]. by destruct (f x), (forallb f l).
Qed.

(** A string with a visible character is not blank. *)
Lemma trim_blank s : Str.trim s = [] -> forallb Str.isWhiteSpace s = true.
Proof.
  unfold Str.trim, Str.trimEnd. intros H%trimStart_blank.
  rewrite forallb_rev in H.
  destruct (trimStart_split (rev s)) as (a & Hs & Ha).
  rewrite <- (forallb_rev _ s), Hs, forallb_app, Ha, H. done.
Qed.

Lemma isValidNonEmptyString_visible c s :
  c ∈ s -> Str.isWhiteSpace c = false -> isValidNonEmptyString s = true.
Proof.
  intros Hin Hc. apply isValidNonEmptyString_true. intros H%trim_blank.
  rewrite forallb_forall in H. apply list_elem_of_In, H in Hin. congruence.
Qed.

Lemma URL_VALIDATION_REGEX_nonempty s :
  URL_VALIDATION_REGEX_test s = true -> s <> [].
Proof. by intros H ->. Qed.

Lemma isHostChar_not_slash c : isHostChar c = true -> (c =? 47)%N = false.
Proof.
  unfold isHostChar, Str.isAlnum, Str.isLetter, Str.isLower, Str.isUpper,
    Str.isDigit.
  intros H. apply N.eqb_neq. intros ->. vm_compute in H. discriminate H.
Qed.

Lemma isHostChar_not_colon c : isHostChar c = true -> c <> 58%N.
Proof. intros H ->. vm_compute in H. discriminate H. Qed.

(** A host, alone or followed by a slash, does not start with a scheme. *)
Lemma startsWith_scheme host rest p q :
  forallb isHostChar host = true ->
  match rest with [] => True | c :: _ => c = 47%N end ->
  forallb Str.isLetter p = true ->
  Str.startsWith (host ++ rest) (p ++ 58%N :: q) = false.
Proof.
  intros Hhost Hrest. revert host Hhost.
  induction p as [| a p IH]; intros host Hhost Hp.
  - destruct host as [| c host]; cbn [app Str.startsWith].
    + destruct rest as [| c rest]; cbn [Str.startsWith]; [done |].
      by subst c.
    + cbn [forallb] in Hhost. apply andb_true_iff in Hhost as [Hc _].
      apply isHostChar_not_colon in Hc.
      replace (58 =? c)%N with false; [done |].
      symmetry. apply N.eqb_neq. congruence.
  - cbn [forallb] in Hp. apply andb_true_iff in Hp as [Ha Hp].
    destruct host as [| c host]; cbn [app Str.startsWith].
    + destruct rest as [| c rest]; cbn [Str.startsWith]; [done |]. subst c.
      replace (a =? 47)%N with false; [done |].
      symmetry. apply N.eqb_neq. intros ->. vm_compute in Ha. discriminate Ha.
    + cbn [forallb] in Hhost. apply andb_true_iff in Hhost as [_ Hhost].
      rewrite (IH host Hhost Hp). apply andb_false_r.
Qed.

Lemma stripScheme_host host rest :
  forallb isHostChar host = true ->
  match rest with [] => True | c :: _ => c = 47%N end ->
  stripScheme (host ++ rest) = host ++ rest.
Proof.
  intros Hhost Hrest. unfold stripScheme.
  change (js "https://") with (js "https" ++ 58%N :: js "//").
  change (js "http://") with (js "http" ++ 58%N :: js "//").
  by rewrite !startsWith_scheme.
Qed.

Lemma stripPath_host host :
  forallb isHostChar host = true -> stripPath host = host.
Proof.
  induction host as [| c host IH]; [done |]. cbn [forallb stripPath].
  intros [Hc Hhost]%andb_true_iff.
  rewrite (isHostChar_not_slash c Hc). cbn [andb]. by rewrite IH.
Qed.

Lemma stripPath_host_path host path :
  forallb isHostChar host = true ->
  forallb (fun x => negb (Str.isLineTerminator x)) path = true ->
  stripPath (host ++ 47%N :: path) = host.
Proof.
  intros Hhost Hpath.
  induction host as [| c host IH]; cbn [app stripPath].
  - by rewrite Hpath.
  - cbn [forallb] in Hhost. apply andb_true_iff in Hhost as [Hc Hhost].
    rewrite (isHostChar_not_slash c Hc). cbn [andb]. by rewrite IH.
Qed.

Lemma trim_host host :
  forallb isHostChar host = true -> Str.trim host = host.
Proof.
  intros Hhost. apply trim_visible. rewrite forallb_forall in *.
  intros c Hc. by rewrite isHostChar_visible by auto.
Qed.

(** X14.  An address made of an optional scheme [http://] or [https://], a
    host that matches the host pattern, and an optional path without line
    terminators is accepted by [isValidURL], and [cleanURLDomain] reduces
    it to the host. *)
Theorem cleanURLDomain_host scheme host path :
  scheme = [] \/ scheme = js "http://" \/ scheme = js "https://" ->
  URL_VALIDATION_REGEX_test host = true ->
  forallb (fun x => negb (Str.isLineTerminator x)) path = true ->
  cleanURLDomain (scheme ++ host) = host
  /\ isValidURL (scheme ++ host) = true
  /\ cleanURLDomain (scheme ++ host ++ js "/" ++ path) = host
  /\ isValidURL (scheme ++ host ++ js "/" ++ path) = true.
Proof.
  intros Hscheme Hre Hpath.
  pose proof (URL_VALIDATION_REGEX_hostChars host Hre) as Hhost.
  pose proof (URL_VALIDATION_REGEX_nonempty host Hre) as Hne.
  assert (Hstrip : forall rest,
            match rest with [] => True | c :: _ => c = 47%N end ->
            stripScheme (scheme ++ host ++ rest) = host ++ rest).
  { intros rest Hrest. destruct Hscheme as [-> | [-> | ->]].
    - exact (stripScheme_host host rest Hhost Hrest).
    - unfold stripScheme.
      change (Str.startsWith (js "http://" ++ host ++ rest) (js "https://"))
        with false.
      by rewrite StrFacts.startsWith_app.
    - unfold stripScheme.
      by rewrite StrFacts.startsWith_app. }
  assert (Hvalid : forall rest,
            isValidNonEmptyString (scheme ++ host ++ rest) = true).
  { intros rest. destruct host as [| c host]; [done |].
    apply (isValidNonEmptyString_visible c).
    - rewrite !elem_of_app. right. left. left.
    - cbn [forallb] in Hhost. apply andb_true_iff in Hhost as [Hc _].
      by apply isHostChar_visible. }
  assert (Hclean : forall rest,
            match rest with [] => True | c :: _ => c = 47%N end ->
            stripPath (host ++ rest) = host ->
            cleanURLDomain (scheme ++ host ++ rest) = host
            /\ isValidURL (scheme ++ host ++ rest) = true).
  { intros rest Hrest Hpath'.
    assert (E : cleanURLDomain (scheme ++ host ++ rest) = host).
    { unfold cleanURLDomain. rewrite Hvalid, Hstrip, Hpath' by done.
      by apply trim_host. }
    split; [exact E |]. unfold isValidURL.
    by rewrite Hvalid, E, Hre, bool_decide_eq_false_2. }
  destruct (Hclean [] I) as [H1 H2].
  { rewrite app_nil_r. by apply stripPath_host. }
  destruct (Hclean (js "/" ++ path) eq_refl) as [H3 H4].
  { by apply stripPath_host_path. }
  rewrite app_nil_r in H1, H2. done.
Qed.

Lemma cleanURLDomain_host_witness :
  cleanURLDomain (js "https://" ++ js "forum.example.org" ++ js "/" ++ js "a/b?c=d")
  = js "forum.example.org".
Proof.
  apply (cleanURLDomain_host (js "https://") (js "forum.example.org")
           (js "a/b?c=d")).
  - right. right. reflexivity.
  - vm_compute. reflexivity.
  - vm_compute. reflexivity.
Defined.

(** ** Calendar dates and the two-year range *)

Module DateFacts.
Import JsDate.
#[local] Open Scope Z_scope.

(** The fields that [civilFromDays] computes are those of a date: a month
    index in 0..11 and a day of the month in 1..31. *)
Lemma civilFromDays_fields z :
  0 <= getMonth z <= 11 /\ 1 <= getDate z <= 31.
Proof.
  unfold getMonth, getDate, civilFromDays. cbn [fst snd].
  set (z' := z + 719468). set (era := z' / 146097).
  set (doe := z' - era * 146097).
  assert (Hdoe : 0 <= doe <= 146096) by (subst doe era; Z.to_euclidean_division_equations; lia).
  clearbody doe. clear z z' era.
  set (yoe := (doe - doe / 1460 + doe / 36524 - doe / 146096) / 365).
  set (doy := doe - (365 * yoe + yoe / 4 - yoe / 100)).
  assert (Hdoy : 0 <= doy <= 365) by (subst doy yoe; Z.to_euclidean_division_equations; lia).
  clearbody doy. clear yoe doe Hdoe.
  set (mp := (5 * doy + 2) / 153).
  assert (Hmp : 0 <= mp <= 11) by (subst mp; Z.to_euclidean_division_equations; lia).
  assert (Hd : 1 <= doy - (153 * mp + 2) / 5 + 1 <= 31) by (subst mp; Z.to_euclidean_division_equations; lia).
  split; [| exact Hd].
  destruct (mp <? 10) eqn:E; [apply Z.ltb_lt in E | apply Z.ltb_ge in E]; lia.
Qed.

Lemma daysFromCivil_day y m d :
  daysFromCivil y m d = daysFromCivil y m 1 + d - 1.
Proof. unfold daysFromCivil. lia. Qed.

(** [daysFromCivil] undoes [civilFromDays]. *)
Lemma daysFromCivil_civilFromDays z :
  daysFromCivil (getFullYear z) (getMonth z + 1) (getDate z) = z.
Proof.
  unfold getFullYear, getMonth, getDate, civilFromDays. cbn [fst snd].
  set (z' := z + 719468). set (era := z' / 146097).
  set (doe := z' - era * 146097).
  assert (Hdoe : 0 <= doe <= 146096) by (subst doe era; Z.to_euclidean_division_equations; lia).
  assert (Hz : z = era * 146097 + doe - 719468) by (subst doe z'; lia).
  clearbody doe era. clear z'. subst z.
  set (yoe := (doe - doe / 1460 + doe / 36524 - doe / 146096) / 365).
  assert (Hyoe : 0 <= yoe <= 399) by (subst yoe; Z.to_euclidean_division_equations; lia).
  set (doy := doe - (365 * yoe + yoe / 4 - yoe / 100)).
  assert (Hdoy : 0 <= doy <= 365) by (subst doy yoe; Z.to_euclidean_division_equations; lia).
  assert (Hdoe' : doe = yoe * 365 + yoe / 4 - yoe / 100 + doy)
    by (subst doy; lia).
  clearbody doy yoe. subst doe.
  set (mp := (5 * doy + 2) / 153).
  assert (Hmp : 0 <= mp <= 11) by (subst mp; Z.to_euclidean_division_equations; lia).
  clearbody mp.
  unfold daysFromCivil.
  destruct (mp <? 10) eqn:E; [apply Z.ltb_lt in E | apply Z.ltb_ge in E].
  - replace (mp + 3 - 1 + 1 <=? 2) with false by (symmetry; apply Z.leb_gt; lia).
    replace (mp + 3 <=? 2) with false by (symmetry; apply Z.leb_gt; lia).
    replace (2 <? mp + 3 - 1 + 1) with true by (symmetry; apply Z.ltb_lt; lia).
    replace ((yoe + era * 400 + 0) / 400) with era by (Z.to_euclidean_division_equations; lia).
    replace (mp + 3 - 1 + 1 - 3) with mp by lia.
    replace (yoe + era * 400 + 0 - era * 400) with yoe by lia.
    lia.
  - replace (mp - 9 - 1 + 1 <=? 2) with true by (symmetry; apply Z.leb_le; lia).
    replace (mp - 9 <=? 2) with true by (symmetry; apply Z.leb_le; lia).
    replace (2 <? mp - 9 - 1 + 1) with false by (symmetry; apply Z.ltb_ge; lia).
    replace ((yoe + era * 400 + 1 - 1) / 400) with era by (Z.to_euclidean_division_equations; lia).
    replace (mp - 9 - 1 + 1 + 9) with mp by lia.
    replace (yoe + era * 400 + 1 - 1 - era * 400) with yoe by lia.
    lia.
Qed.

(** The same month and day two years earlier lie 730 or 731 days back. *)
Lemma daysFromCivil_two_years y m :
  730 <= daysFromCivil y m 1 - daysFromCivil (y - 2) m 1 <= 731.
Proof.
  unfold daysFromCivil.
  destruct (m <=? 2); destruct (2 <? m);
    Z.to_euclidean_division_equations; lia.
Qed.

End DateFacts.

Module DateOrder.
Import JsDate.
#[local] Open Scope Z_scope.

Lemma daysFromCivil_year_step y :
  365 <= daysFromCivil (y + 1) 1 1 - daysFromCivil y 1 1 <= 366.
Proof.
  unfold daysFromCivil.
  change (1 <=? 2) with true. change (2 <? 1) with false. cbv iota.
  Z.to_euclidean_division_equations. lia.
Qed.

Lemma daysFromCivil_year_mono y1 y2 :
  y1 <= y2 -> daysFromCivil y1 1 1 <= daysFromCivil y2 1 1.
Proof.
  intros H.
  assert (Hn : forall n : nat,
             daysFromCivil y1 1 1 <= daysFromCivil (y1 + Z.of_nat n) 1 1).
  { induction n as [| n IH]; [by rewrite Z.add_0_r |].
    pose proof (daysFromCivil_year_step (y1 + Z.of_nat n)).
    replace (y1 + Z.of_nat (S n)) with (y1 + Z.of_nat n + 1) by lia. lia. }
  specialize (Hn (Z.to_nat (y2 - y1))).
  by replace (y1 + Z.of_nat (Z.to_nat (y2 - y1))) with y2 in Hn by lia.
Qed.

Lemma daysFromCivil_within y m d :
  1 <= m <= 12 -> 1 <= d <= 31 ->
  daysFromCivil y 1 1 <= daysFromCivil y m d < daysFromCivil (y + 1) 1 1.
Proof.
  intros Hm Hd. unfold daysFromCivil.
  change (1 <=? 2) with true. change (2 <? 1) with false. cbv iota.
  destruct (m <=? 2) eqn:E1; destruct (2 <? m) eqn:E2;
    try apply Z.leb_le in E1; try apply Z.leb_gt in E1;
    try apply Z.ltb_lt in E2; try apply Z.ltb_ge in E2;
    Z.to_euclidean_division_equations; lia.
Qed.

(** The year of a day that is not before the first of January of [Y] is
    at least [Y], and the year of a day before the first of January of
    [Y + 1] is at most [Y]. *)
Lemma getFullYear_lower z Y :
  daysFromCivil Y 1 1 <= z -> Y <= getFullYear z.
Proof.
  intros Hz. pose proof (DateFacts.daysFromCivil_civilFromDays z) as E.
  pose proof (DateFacts.civilFromDays_fields z) as [Hm Hd].
  destruct (Z.le_gt_cases Y (getFullYear z)) as [| Hlt]; [done |].
  pose proof (daysFromCivil_within (getFullYear z) (getMonth z + 1) (getDate z)
                ltac:(lia) Hd) as [_ Hup].
  pose proof (daysFromCivil_year_mono (getFullYear z + 1) Y ltac:(lia)). lia.
Qed.

Lemma getFullYear_upper z Y :
  z < daysFromCivil (Y + 1) 1 1 -> getFullYear z <= Y.
Proof.
  intros Hz. pose proof (DateFacts.daysFromCivil_civilFromDays z) as E.
  pose proof (DateFacts.civilFromDays_fields z) as [Hm Hd].
  destruct (Z.le_gt_cases (getFullYear z) Y) as [| Hlt]; [done |].
  pose proof (daysFromCivil_within (getFullYear z) (getMonth z + 1) (getDate z)
                ltac:(lia) Hd) as [Hlow _].
  pose proof (daysFromCivil_year_mono (Y + 1) (getFullYear z) ltac:(lia)). lia.
Qed.

End DateOrder.

(** ** Numbers in decimal *)

Module NumberFacts.

Lemma pretty_N_char_code d :
  (d < 10)%N -> N_of_ascii (pretty_N_char d) = (48 + d)%N.
Proof.
  intros H.
  assert (d = 0 \/ d = 1 \/ d = 2 \/ d = 3 \/ d = 4 \/ d = 5 \/ d = 6
          \/ d = 7 \/ d = 8 \/ d = 9)%N as Hd by lia.
  repeat (destruct Hd as [-> | Hd]; [reflexivity |]). by subst.
Qed.

Lemma ofZ_pos n :
  (0 < n)%Z -> Str.ofZ n = js (pretty_N_go (Z.to_N n) "").
Proof.
  intros H. unfold Str.ofZ. destruct n as [| p | p]; try lia.
  unfold pretty, pretty_Z, pretty, pretty_positive, pretty, pretty_N.
  by rewrite decide_False.
Qed.

Lemma js_String c s : js (String c s) = N_of_ascii c :: js s.
Proof. reflexivity. Qed.

(** The decimal digits of a number, most significant last in the
    accumulator. *)
Lemma pretty_N_go_digits x s :
  exists ds,
    js (pretty_N_go x s) = ds ++ js s
    /\ forallb Str.isDigit ds = true
    /\ (forall acc,
          fold_left (fun acc c => 10 * acc + Str.digitValue c)%Z ds acc
          = (acc * 10 ^ Z.of_nat (length ds) + Z.of_N x)%Z)
    /\ ((x = 0)%N -> ds = [])
    /\ ((0 < x)%N ->
        (10 ^ (Z.of_nat (length ds) - 1) <= Z.of_N x
         < 10 ^ Z.of_nat (length ds))%Z).
Proof.
  revert s. induction (N.lt_wf_0 x) as [x _ IH]. intros s.
  destruct (decide (x = 0)%N) as [-> | Hx].
  - exists []. rewrite pretty_N_go_0. repeat split; [| lia].
    intros acc. cbn. lia.
  - rewrite pretty_N_go_step by lia.
    destruct (IH (x `div` 10)%N ltac:(apply N.div_lt; lia)
                (String (pretty_N_char (x `mod` 10)) s))
      as (ds & Hjs & Hdigits & Hfold & Hzero & Hpos).
    assert (Hmod : (x `mod` 10 < 10)%N) by (apply N.mod_lt; lia).
    assert (Hdiv : (Z.of_N x
                    = 10 * Z.of_N (x `div` 10) + Z.of_N (x `mod` 10))%Z).
    { rewrite (N.div_mod x 10) at 1 by lia. lia. }
    rewrite js_String, pretty_N_char_code in Hjs by done.
    assert (Hxpos : (0 < Z.of_N x)%Z) by lia.
    set (m := (x `mod` 10)%N) in *. set (q := (x `div` 10)%N) in *.
    set (X := Z.of_N x) in *.
    clearbody m q X. clear IH.
    exists (ds ++ [(48 + m)%N]).
    split; [by rewrite Hjs, <- app_assoc |].
    split.
    { rewrite forallb_app, Hdigits. cbn [forallb andb].
      unfold Str.isDigit. rewrite andb_true_r.
      apply andb_true_iff. split; apply N.leb_le; lia. }
    rewrite length_app. cbn [length].
    replace (Z.of_nat (length ds + 1) - 1)%Z with (Z.of_nat (length ds)) by lia.
    replace (Z.of_nat (length ds + 1)) with (Z.of_nat (length ds) + 1)%Z by lia.
    rewrite Z.pow_add_r by lia. change (10 ^ 1)%Z with 10%Z.
    split.
    { intros acc. rewrite fold_left_app, Hfold. cbn [fold_left].
      unfold Str.digitValue. rewrite Hdiv.
      set (P := (10 ^ Z.of_nat (length ds))%Z). lia. }
    split; [done |]. intros _.
    destruct (decide (q = 0)%N) as [Hq | Hq].
    + rewrite (Hzero Hq). cbn [length]. rewrite Hq in Hdiv.
      change (10 ^ Z.of_nat 0)%Z with 1%Z. lia.
    + specialize (Hpos ltac:(lia)).
      assert (Hlen : (1 <= Z.of_nat (length ds))%Z).
      { destruct ds; [| cbn [length]; lia]. cbn in Hpos. lia. }
      replace (10 ^ Z.of_nat (length ds))%Z
        with (10 * 10 ^ (Z.of_nat (length ds) - 1))%Z in *.
      2: { rewrite <- Z.pow_succ_r by lia. f_equal. lia. }
      set (P := (10 ^ (Z.of_nat (length ds) - 1))%Z) in *. lia.
Qed.

End NumberFacts.

Module DecimalFacts.
#[local] Open Scope Z_scope.

(** [`${n}`] for a positive integer: decimal digits only, that [Number]
    reads back, as many as the size of the number asks. *)
Lemma ofZ_spec n :
  0 < n ->
  forallb Str.isDigit (Str.ofZ n) = true
  /\ Str.Number (Str.ofZ n) = n
  /\ 10 ^ (Z.of_nat (length (Str.ofZ n)) - 1) <= n
     < 10 ^ Z.of_nat (length (Str.ofZ n)).
Proof.
  intros Hn. rewrite NumberFacts.ofZ_pos by done.
  destruct (NumberFacts.pretty_N_go_digits (Z.to_N n) "")
    as (ds & Hjs & Hdigits & Hfold & _ & Hpos).
  change (js "") with (@nil N) in Hjs. rewrite app_nil_r in Hjs.
  rewrite Hjs. split; [done |]. split.
  - unfold Str.Number. rewrite Hfold. lia.
  - specialize (Hpos ltac:(lia)). lia.
Qed.

Lemma ofZ_length n a :
  0 < n -> 0 <= a ->
  (n < 10 ^ a -> Z.of_nat (length (Str.ofZ n)) <= a)
  /\ (10 ^ (a - 1) <= n -> a <= Z.of_nat (length (Str.ofZ n))).
Proof.
  intros Hn Ha. destruct (ofZ_spec n Hn) as (_ & _ & Hlow & Hup).
  set (k := Z.of_nat (length (Str.ofZ n))) in *.
  assert (Hk : 0 <= k) by lia. clearbody k. split; intros H.
  - destruct (Z.le_gt_cases k a) as [| Hgt]; [done |].
    pose proof (Z.pow_le_mono_r 10 a (k - 1) ltac:(lia) ltac:(lia)). lia.
  - destruct (Z.le_gt_cases a k) as [| Hgt]; [done |].
    pose proof (Z.pow_le_mono_r 10 k (a - 1) ltac:(lia) ltac:(lia)). lia.
Qed.

(** One or two digits for a month or a day of the month, four for a year
    between 1000 and 9999. *)
Lemma ofZ_short n :
  1 <= n <= 31 -> (1 <= length (Str.ofZ n) <= 2)%nat.
Proof.
  intros Hn.
  destruct (ofZ_length n 2 ltac:(lia) ltac:(lia)) as [Hup _].
  destruct (ofZ_length n 1 ltac:(lia) ltac:(lia)) as [_ Hlow].
  change (10 ^ 2) with 100 in Hup. change (10 ^ (1 - 1)) with 1 in Hlow. lia.
Qed.

Lemma ofZ_year n :
  1000 <= n <= 9999 -> length (Str.ofZ n) = 4%nat.
Proof.
  intros Hn.
  destruct (ofZ_length n 4 ltac:(lia) ltac:(lia)) as [Hup Hlow].
  change (10 ^ 4) with 10000 in Hup. change (10 ^ (4 - 1)) with 1000 in Hlow.
  lia.
Qed.

End DecimalFacts.

(** ** The date pattern on a formatted date *)

Module PatternFacts.

Lemma spanDigits_digits n ds rest :
  forallb Str.isDigit ds = true ->
  (length ds <= n)%nat ->
  length ds = n
  \/ match rest with [] => True | c :: _ => Str.isDigit c = false end ->
  spanDigits n (ds ++ rest) = (ds, rest).
Proof.
  revert ds. induction n as [| n IH]; intros ds Hds Hlen Hstop.
  - destruct ds; [| cbn [length] in Hlen; lia]. by destruct rest.
  - destruct ds as [| c ds]; cbn [app].
    + destruct Hstop as [Hstop | Hstop]; [done |].
      destruct rest as [| c rest]; [done |]. cbn [spanDigits].
      by rewrite Hstop.
    + cbn [forallb] in Hds. apply andb_true_iff in Hds as [Hc Hds].
      cbn [spanDigits]. rewrite Hc, IH; [done | done | |].
      * cbn [length] in Hlen. lia.
      * destruct Hstop as [Hstop | Hstop]; [left | by right].
        cbn [length] in Hstop. lia.
Qed.

Lemma digits_digits lo hi ds rest :
  forallb Str.isDigit ds = true ->
  (lo <= length ds <= hi)%nat ->
  length ds = hi
  \/ match rest with [] => True | c :: _ => Str.isDigit c = false end ->
  digits lo hi (ds ++ rest) = Some (ds, rest).
Proof.
  intros Hds Hlen Hstop. unfold digits.
  rewrite spanDigits_digits by (done || lia).
  by rewrite (proj2 (Nat.leb_le _ _)) by lia.
Qed.

Lemma literal_app p s : literal p (p ++ s) = Some s.
Proof.
  unfold literal. by rewrite StrFacts.startsWith_app, drop_app_length.
Qed.

(** The date pattern takes a date written by [formatSearchDate] whole. *)
Lemma dateGroup_formatted m d y rest :
  forallb Str.isDigit m = true -> (1 <= length m <= 2)%nat ->
  forallb Str.isDigit d = true -> (1 <= length d <= 2)%nat ->
  forallb Str.isDigit y = true -> length y = 4%nat ->
  dateGroup (m ++ js "/" ++ d ++ js "/" ++ y ++ rest)
  = Some (m ++ js "/" ++ d ++ js "/" ++ y, rest).
Proof.
  intros Hm Hlm Hd Hld Hy Hly. unfold dateGroup.
  rewrite (digits_digits 1 2 m) by (done || by right).
  cbn [mbind option_bind]. rewrite literal_app. cbn [mbind option_bind].
  rewrite (digits_digits 1 2 d) by (done || by right).
  cbn [mbind option_bind]. rewrite literal_app. cbn [mbind option_bind].
  rewrite (digits_digits 4 4 y) by (done || lia || by left).
  reflexivity.
Qed.

Lemma isDigit_not_slash c : Str.isDigit c = true -> (c =? 47)%N = false.
Proof.
  unfold Str.isDigit. intros [H _]%andb_true_iff. apply N.leb_le in H.
  apply N.eqb_neq. lia.
Qed.

Lemma split_digits ds :
  forallb Str.isDigit ds = true -> Str.split 47 ds = [ds].
Proof.
  induction ds as [| c ds IH]; [done |]. cbn [forallb Str.split].
  intros [Hc Hds]%andb_true_iff.
  by rewrite (isDigit_not_slash c Hc), IH.
Qed.

Lemma split_digits_slash ds s :
  forallb Str.isDigit ds = true ->
  Str.split 47 (ds ++ 47%N :: s) = ds :: Str.split 47 s.
Proof.
  induction ds as [| c ds IH]; [done |]. cbn [forallb app Str.split].
  intros [Hc Hds]%andb_true_iff.
  by rewrite (isDigit_not_slash c Hc), IH.
Qed.

Lemma parseDate_formatted m d y :
  forallb Str.isDigit m = true -> forallb Str.isDigit d = true ->
  forallb Str.isDigit y = true ->
  parseDate (m ++ js "/" ++ d ++ js "/" ++ y)
  = JsDate.make (Str.Number y) (Str.Number m - 1) (Str.Number d).
Proof.
  intros Hm Hd Hy. unfold parseDate.
  change (js "/" ++ d ++ js "/" ++ y) with (47%N :: d ++ 47%N :: y).
  by rewrite !split_digits_slash, split_digits.
Qed.

End PatternFacts.

(** ** Dates through the address *)

Lemma formatSearchDate_fields day :
  (1000 <= JsDate.getFullYear day <= 9999)%Z ->
  exists m d y,
    formatSearchDate day = m ++ js "/" ++ d ++ js "/" ++ y
    /\ forallb Str.isDigit m = true /\ (1 <= length m <= 2)%nat
    /\ forallb Str.isDigit d = true /\ (1 <= length d <= 2)%nat
    /\ forallb Str.isDigit y = true /\ length y = 4%nat
    /\ Str.Number m = (JsDate.getMonth day + 1)%Z
    /\ Str.Number d = JsDate.getDate day
    /\ Str.Number y = JsDate.getFullYear day.
Proof.
  intros Hy.
  destruct (DateFacts.civilFromDays_fields day) as [Hm Hd].
  destruct (DecimalFacts.ofZ_spec (JsDate.getMonth day + 1) ltac:(lia))
    as (Hm1 & Hm2 & _).
  destruct (DecimalFacts.ofZ_spec (JsDate.getDate day) ltac:(lia))
    as (Hd1 & Hd2 & _).
  destruct (DecimalFacts.ofZ_spec (JsDate.getFullYear day) ltac:(lia))
    as (Hy1 & Hy2 & _).
  pose proof (DecimalFacts.ofZ_short (JsDate.getMonth day + 1) ltac:(lia)).
  pose proof (DecimalFacts.ofZ_short (JsDate.getDate day) ltac:(lia)).
  pose proof (DecimalFacts.ofZ_year (JsDate.getFullYear day) Hy).
  by eexists _, _, _.
Qed.

Lemma make_fields day :
  (100 <= JsDate.getFullYear day)%Z ->
  JsDate.make (JsDate.getFullYear day) (JsDate.getMonth day + 1 - 1)
    (JsDate.getDate day) = day.
Proof.
  intros Hy. destruct (DateFacts.civilFromDays_fields day) as [Hm Hd].
  unfold JsDate.make, JsDate.MakeDay.
  replace ((0 <=? JsDate.getFullYear day)%Z
           && (JsDate.getFullYear day <=? 99)%Z) with false
    by (symmetry; apply andb_false_iff; right; apply Z.leb_gt; lia).
  replace (JsDate.getMonth day + 1 - 1)%Z with (JsDate.getMonth day) by lia.
  rewrite Z.div_small, Z.mod_small, Z.add_0_r by lia.
  rewrite <- DateFacts.daysFromCivil_day.
  apply DateFacts.daysFromCivil_civilFromDays.
Qed.

Lemma dateGroup_formatSearchDate day rest :
  (1000 <= JsDate.getFullYear day <= 9999)%Z ->
  dateGroup (formatSearchDate day ++ rest) = Some (formatSearchDate day, rest).
Proof.
  intros Hy.
  destruct (formatSearchDate_fields day Hy)
    as (m & d & y & -> & Hm & Hlm & Hd & Hld & Hy' & Hly & _).
  rewrite <- !app_assoc. by apply PatternFacts.dateGroup_formatted.
Qed.

(** X15.  A date written by [formatSearchDate] is read back by
    [parseDate] as the same day, for every day of the years 1000 to 9999:
    the three fields are written in decimal without padding, split at the
    slashes and read back by [Number], and the month index is put back in
    the range of [Date]. *)
Theorem parseDate_formatSearchDate day :
  (1000 <= JsDate.getFullYear day <= 9999)%Z ->
  parseDate (formatSearchDate day) = day
  /\ map Str.Number (Str.split 47 (formatSearchDate day))
     = [(JsDate.getMonth day + 1)%Z; JsDate.getDate day;
        JsDate.getFullYear day].
Proof.
  intros Hy.
  destruct (formatSearchDate_fields day Hy)
    as (m & d & y & -> & Hm & Hlm & Hd & Hld & Hy' & Hly & Nm & Nd & Ny).
  split.
  - rewrite PatternFacts.parseDate_formatted by done.
    rewrite Nm, Nd, Ny. apply make_fields. lia.
  - change (js "/" ++ d ++ js "/" ++ y) with (47%N :: d ++ 47%N :: y).
    rewrite !PatternFacts.split_digits_slash, PatternFacts.split_digits
      by done.
    cbn [map]. by rewrite Nm, Nd, Ny.
Qed.

Lemma parseDate_formatSearchDate_witness :
  parseDate (formatSearchDate 20395) = 20395%Z.
Proof.
  apply (parseDate_formatSearchDate 20395). vm_compute. split; discriminate.
Defined.

Lemma parseDate_formatted_day day :
  (1000 <= JsDate.getFullYear day <= 9999)%Z ->
  parseDate (formatSearchDate day) = day.
Proof.
  intros Hy.
  destruct (formatSearchDate_fields day Hy)
    as (m & d & y & -> & Hm & _ & Hd & _ & Hy' & _ & Nm & Nd & Ny).
  rewrite PatternFacts.parseDate_formatted by done.
  rewrite Nm, Nd, Ny. apply make_fields. lia.
Qed.

Lemma dateMatch_here tbs groups :
  dateRangeAt tbs = Some groups -> dateMatch tbs = Some groups.
Proof. intros H. destruct tbs; cbn [dateMatch]; by rewrite H. Qed.

Lemma dateMatch_link f1 f2 :
  (forall rest, dateGroup (f1 ++ rest) = Some (f1, rest)) ->
  (forall rest, dateGroup (f2 ++ rest) = Some (f2, rest)) ->
  dateMatch (js "cdr:1,cd_min:" ++ f1 ++ js ",cd_max:" ++ f2) = Some (f1, f2).
Proof.
  intros H1 H2.
  change (js "cdr:1,cd_min:" ++ f1 ++ js ",cd_max:" ++ f2)
    with (js "cdr:1," ++ js "cd_min:" ++ f1 ++ js ",cd_max:" ++ f2).
  set (s := js "cd_min:" ++ f1 ++ js ",cd_max:" ++ f2).
  assert (Hs : dateRangeAt s = Some (f1, f2)).
  { unfold dateRangeAt, s. rewrite PatternFacts.literal_app.
    cbn [mbind option_bind]. rewrite H1. cbn [mbind option_bind].
    rewrite PatternFacts.literal_app. cbn [mbind option_bind].
    rewrite <- (app_nil_r f2) at 1. by rewrite H2. }
  apply dateMatch_here in Hs. clearbody s.
  by destruct s.
Qed.

Lemma setFullYear_span today :
  (730 <= today
          - JsDate.setFullYear today (JsDate.getFullYear today - 2) <= 731)%Z.
Proof.
  destruct (DateFacts.civilFromDays_fields today) as [Hm Hd].
  unfold JsDate.setFullYear, JsDate.MakeDay.
  rewrite Z.div_small, Z.mod_small, Z.add_0_r by lia.
  pose proof (DateFacts.daysFromCivil_civilFromDays today) as E.
  rewrite DateFacts.daysFromCivil_day in E.
  pose proof (DateFacts.daysFromCivil_two_years (JsDate.getFullYear today)
                (JsDate.getMonth today + 1)).
  lia.
Qed.

Lemma setFullYear_year today :
  (1002 <= JsDate.getFullYear today <= 9999)%Z ->
  (1000 <= JsDate.getFullYear
             (JsDate.setFullYear today (JsDate.getFullYear today - 2))
   <= 9999)%Z.
Proof.
  intros Hy. destruct (DateFacts.civilFromDays_fields today) as [Hm Hd].
  pose proof (setFullYear_span today) as Hspan.
  pose proof (DateFacts.daysFromCivil_civilFromDays today) as E.
  pose proof (DateOrder.daysFromCivil_within (JsDate.getFullYear today)
                (JsDate.getMonth today + 1) (JsDate.getDate today)
                ltac:(lia) Hd) as [_ Hup].
  rewrite E in Hup. split.
  - apply DateOrder.getFullYear_lower.
    unfold JsDate.setFullYear, JsDate.MakeDay.
    rewrite Z.div_small, Z.mod_small, Z.add_0_r by lia.
    rewrite <- DateFacts.daysFromCivil_day.
    pose proof (DateOrder.daysFromCivil_within (JsDate.getFullYear today - 2)
                  (JsDate.getMonth today + 1) (JsDate.getDate today)
                  ltac:(lia) Hd) as [Hlow _].
    pose proof (DateOrder.daysFromCivil_year_mono 1000
                  (JsDate.getFullYear today - 2) ltac:(lia)).
    lia.
  - apply DateOrder.getFullYear_upper.
    pose proof (DateOrder.daysFromCivil_year_mono
                  (JsDate.getFullYear today + 1) (9999 + 1) ltac:(lia)).
    lia.
Qed.

(** A date range from the same day two years earlier is a two-year
    range. *)
Lemma syncCustomDateRange_link utcOffset today cf :
  (forall day, - JsDate.msPerDay <= utcOffset day <= JsDate.msPerDay)%Z ->
  (1002 <= JsDate.getFullYear today <= 9999)%Z ->
  let ago := JsDate.setFullYear today (JsDate.getFullYear today - 2)%Z in
  syncCustomDateRange utcOffset cf
    (js "cdr:1,cd_min:" ++ formatSearchDate ago
     ++ js ",cd_max:" ++ formatSearchDate today)
  = setFilter cf Time (js "2year").
Proof.
  intros Hoff Hy ago.
  pose proof (setFullYear_year today Hy) as Hago. fold ago in Hago.
  unfold syncCustomDateRange.
  rewrite (dateMatch_link (formatSearchDate ago) (formatSearchDate today))
    by (intros rest; apply dateGroup_formatSearchDate; lia).
  rewrite !parseDate_formatted_day by lia.
  replace (isTwoYearSpan utcOffset ago today) with true; [done |].
  symmetry. apply isTwoYearSpan_years.
  destruct (yearsDiff_ms utcOffset ago today) as [-> ->].
  pose proof (setFullYear_span today) as Hspan. fold ago in Hspan.
  pose proof (Hoff ago). pose proof (Hoff today).
  unfold JsDate.diff, JsDate.msPerDay in *. lia.
Qed.

(** X16.  The address value that [createTimeFilterValue] writes for the
    two-year filter is a date range that the inbound parse reads back as
    [2year] and that the consistency check accepts, on every day of the
    years 1002 to 9999 and in every time zone whose offsets stay within a
    day of UTC. *)
Theorem createTimeFilterValue_recognized utcOffset today cf :
  (forall day, - JsDate.msPerDay <= utcOffset day <= JsDate.msPerDay)%Z ->
  (1002 <= JsDate.getFullYear today <= 9999)%Z ->
  let tbs := createTimeFilterValue today (js "custom:2y") in
  syncTime utcOffset tbs cf = setFilter cf Time (js "2year")
  /\ recognizedTime utcOffset tbs = true
  /\ checkTbs (setFilter cf Time (js "2year")) tbs = Some true.
Proof.
  intros Hoff Hy tbs.
  set (ago := JsDate.setFullYear today (JsDate.getFullYear today - 2)).
  assert (Htbs : tbs = js "cdr:1,cd_min:" ++ formatSearchDate ago
                       ++ js ",cd_max:" ++ formatSearchDate today)
    by reflexivity.
  pose proof (syncCustomDateRange_link utcOffset today cf Hoff Hy) as Hsync.
  cbv zeta in Hsync. fold ago in Hsync. rewrite <- Htbs in Hsync.
  assert (Hstart : Str.startsWith tbs (js "cdr:1,cd_min:") = true)
    by (rewrite Htbs; apply StrFacts.startsWith_app).
  split; [| split].
  - unfold syncTime. rewrite decide_False by by rewrite Htbs.
    by rewrite Hstart.
  - unfold recognizedTime. rewrite Hstart.
    pose proof (syncCustomDateRange_link utcOffset today
                  (setFilter cf Time (js "all")) Hoff Hy) as Hsync'.
    cbv zeta in Hsync'. fold ago in Hsync'. rewrite <- Htbs in Hsync'.
    rewrite syncCustomDateRange_twoYearRange in Hsync'.
    destruct (twoYearRange utcOffset tbs); [done |].
    apply (f_equal (fun c => getFilter c Time)) in Hsync'.
    rewrite !getFilter_setFilter in Hsync'. discriminate Hsync'.
  - unfold checkTbs. cbn [time setFilter].
    rewrite decide_False by done.
    change (timeParamOf (js "2year")) with (Some (js "custom:2y")).
    cbn [mbind option_bind].
    change (Str.startsWith (js "custom:2y") (js "custom:")) with true.
    cbv iota. rewrite bool_decide_eq_true_2 by reflexivity.
    by rewrite Hstart.
Qed.

Lemma createTimeFilterValue_recognized_witness :
  syncTime Sample.shifting (createTimeFilterValue 20395 (js "custom:2y"))
    Sample.neutral
  = setFilter Sample.neutral Time (js "2year").
Proof.
  apply (createTimeFilterValue_recognized Sample.shifting 20395 Sample.neutral).
  - intros day. unfold Sample.shifting, JsDate.msPerDay.
    destruct (day mod 7 <? 2)%Z; lia.
  - vm_compute. split; discriminate.
Defined.

(** ** From the address back to the selection *)

Lemma hasOwn_elem_of {A} (o : list (jsstring * A)) k :
  hasOwn o k = true -> k ∈ map fst o.
Proof.
  intros [a Ha]%hasOwn_Some. apply ownProperty_elem_of in Ha.
  apply list_elem_of_fmap. by exists (k, a).
Qed.

Lemma validValue_cases sites t v :
  validValue sites t v = true ->
  v <> defaultValue t ->
  inCatalog sites t v = true.
Proof.
  unfold validValue. intros [H | H]%orb_true_iff Hne; [| done].
  by apply bool_decide_eq_true_1 in H.
Qed.

Lemma syncSearchLang_written code cf0 :
  code <> js "all" -> hasOwn filters.searchLang code = true ->
  getFilter (syncSearchLang (js "lang_" ++ code) cf0) SearchLang = code.
Proof.
  intros Hne Hown%hasOwn_elem_of. cbn in Hown.
  rewrite !elem_of_cons, elem_of_nil in Hown.
  destruct Hown as [-> | [-> | [-> | []]]]; done.
Qed.

Lemma syncInterfaceLang_written code lang cf0 :
  googleLangOf code = Some lang ->
  getFilter (syncInterfaceLang lang cf0) InterfaceLang = code.
Proof.
  unfold googleLangOf, getProperty.
  destruct (ownProperty filters.interfaceLang code) as [d |] eqn:Hd;
    [| by case_decide].
  pose proof (ownProperty_elem_of _ _ _ Hd) as Hin.
  unfold filters.interfaceLang in Hin.
  rewrite !elem_of_cons, elem_of_nil in Hin.
  destruct Hin as [[= -> ->] | [[= -> ->] | [[= -> ->] | []]]];
    cbn; by intros [= <-].
Qed.

Lemma syncRegion_written code reg cf0 :
  googleRegionOf code = Some reg ->
  getFilter (syncRegion reg cf0) Region = code.
Proof.
  unfold googleRegionOf, getProperty.
  destruct (ownProperty filters.region code) as [d |] eqn:Hd;
    [| by case_decide].
  pose proof (ownProperty_elem_of _ _ _ Hd) as Hin.
  unfold filters.region in Hin.
  rewrite !elem_of_cons, elem_of_nil in Hin.
  destruct Hin as [[= -> ->] | [[= -> ->] | [[= -> ->] | []]]];
    cbn; by intros [= <-].
Qed.

Lemma syncTime_written utcOffset today code timeParam cf0 :
  (forall day, - JsDate.msPerDay <= utcOffset day <= JsDate.msPerDay)%Z ->
  (1002 <= JsDate.getFullYear today <= 9999)%Z ->
  code <> js "all" ->
  timeParamOf code = Some timeParam ->
  getFilter (syncTime utcOffset (createTimeFilterValue today timeParam) cf0)
    Time = code.
Proof.
  intros utcOffset_day Hy Hne. unfold timeParamOf, getProperty.
  destruct (ownProperty filters.time code) as [d |] eqn:Hd;
    [| by case_decide].
  pose proof (ownProperty_elem_of _ _ _ Hd) as Hin.
  unfold filters.time in Hin.
  rewrite !elem_of_cons, elem_of_nil in Hin.
  destruct Hin
    as [[= -> ->] | [[= -> ->] | [[= -> ->] | [[= -> ->] | [[= -> ->]
       | [[= -> ->] | []]]]]]];
    intros [= <-]; try done.
  change (createTimeFilterValue today (js "custom:2y"))
    with (js "cdr:1,cd_min:"
          ++ formatSearchDate
               (JsDate.setFullYear today (JsDate.getFullYear today - 2)%Z)
          ++ js ",cd_max:" ++ formatSearchDate today).
  pose proof (syncCustomDateRange_link utcOffset today cf0 utcOffset_day Hy)
    as Hlink.
  cbv zeta in Hlink.
  remember (js "cdr:1,cd_min:"
            ++ formatSearchDate
                 (JsDate.setFullYear today (JsDate.getFullYear today - 2)%Z)
            ++ js ",cd_max:" ++ formatSearchDate today) as tbs eqn:Htbs.
  assert (Hstart : Str.startsWith tbs (js "cdr:1,cd_min:") = true)
    by (rewrite Htbs; apply StrFacts.startsWith_app).
  unfold syncTime. rewrite decide_False by by rewrite Htbs.
  rewrite Hstart, Hlink. apply getFilter_setFilter.
Qed.


(** What [applyFilters] leaves in the address for each parameter. *)
Lemma applyFilters_params w today target :
  validState (filtersSite w) (currentFilters w) = true ->
  applyFilters w today = Some target ->
  let cf := currentFilters w in
  let ps := searchParams target in
  (exists q1,
     paramQ (filtersSite w) cf
       (URLSearchParams.getOrEmpty (searchParams (href (location w))) (js "q"))
     = Some q1
     /\ URLSearchParams.getOrEmpty ps (js "q") = Str.toUSVString q1)
  /\ URLSearchParams.getOrEmpty ps (js "lr")
     = (if decide (searchLang cf = js "all") then []
        else js "lang_" ++ searchLang cf)
  /\ (if decide (time cf = js "all")
      then URLSearchParams.getOrEmpty ps (js "tbs") = []
      else exists timeParam,
             timeParamOf (time cf) = Some timeParam
             /\ URLSearchParams.getOrEmpty ps (js "tbs")
                = createTimeFilterValue today timeParam)
  /\ (if decide (interfaceLang cf = js "auto")
      then URLSearchParams.getOrEmpty ps (js "hl") = []
      else exists lang,
             googleLangOf (interfaceLang cf) = Some lang
             /\ URLSearchParams.getOrEmpty ps (js "hl") = lang)
  /\ (if decide (region cf = js "auto")
      then URLSearchParams.getOrEmpty ps (js "gl") = []
      else exists reg,
             googleRegionOf (region cf) = Some reg
             /\ URLSearchParams.getOrEmpty ps (js "gl") = reg).
Proof.
  intros Hvalid Happly cf ps.
  destruct (applyFilters_succeeds w today Hvalid) as (q1 & ps3 & H).
  cbv zeta in H. destruct H as (Hq & Htbs & Htarget).
  rewrite Happly in Htarget. injection Htarget as Htarget.
  subst ps. rewrite Htarget. cbn [searchParams withParams]. fold cf in Hq, Htbs |- *.
  set (ps1 := URLSearchParams.set (searchParams (href (location w)))
                (js "q") q1) in *.
  rewrite validState_forall in Hvalid. fold cf in Hvalid.
  split; [| split; [| split; [| split]]].
  - exists q1. split; [done |]. apply ParamFacts.getOrEmpty_get.
    rewrite paramGl_get_ne, paramHl_get_ne by name_ne.
    rewrite (paramTbs_get_ne cf today _ ps3 _ Htbs) by name_ne.
    rewrite paramLr_get_ne by name_ne. apply ParamFacts.get_set_eq.
  - unfold URLSearchParams.getOrEmpty.
    rewrite paramGl_get_ne, paramHl_get_ne by name_ne.
    rewrite (paramTbs_get_ne cf today _ ps3 _ Htbs) by name_ne.
    unfold paramLr. case_decide.
    + by rewrite ParamFacts.get_delete_eq.
    + rewrite ParamFacts.get_set_eq. cbn [default from_option id].
      rewrite StrFacts.toUSVString_app_plain by apply StrFacts.js_plain.
      f_equal.
      apply (validValue_searchLang_wellFormed (filtersSite w)),
        (Hvalid SearchLang).
  - unfold URLSearchParams.getOrEmpty.
    rewrite paramGl_get_ne, paramHl_get_ne by name_ne.
    unfold paramTbs in Htbs. case_decide as Hall.
    + injection Htbs as <-. by rewrite ParamFacts.get_delete_eq.
    + pose proof (validValue_cases _ _ _ (Hvalid Time) Hall) as Hcat.
      destruct (hasOwn_getProperty _ _ Hcat) as [d Hd].
      cbn [getFilter] in Hd.
      assert (Hparam : timeParamOf (time cf) = Some (param d))
        by (unfold timeParamOf; by rewrite Hd).
      rewrite Hparam in Htbs. cbn [mbind option_bind] in Htbs.
      injection Htbs as <-. exists (param d). split; [done |].
      rewrite ParamFacts.get_set_eq. cbn [default from_option id].
      apply StrFacts.toUSVString_plain, createTimeFilterValue_plain.
      by eapply timeParamOf_plain.
  - unfold URLSearchParams.getOrEmpty.
    rewrite paramGl_get_ne by name_ne.
    unfold paramHl. case_decide as Hauto.
    + by rewrite ParamFacts.get_delete_eq.
    + pose proof (validValue_cases _ _ _ (Hvalid InterfaceLang) Hauto) as Hcat.
      cbn [getFilter inCatalog] in Hcat.
      apply hasOwn_Some in Hcat as [d Hd].
      assert (Hlang : exists lang, googleLangOf (interfaceLang cf) = Some lang).
      { unfold googleLangOf, getProperty. rewrite Hd.
        pose proof (ownProperty_elem_of _ _ _ Hd) as Hin.
        unfold filters.interfaceLang in Hin.
        rewrite !elem_of_cons, elem_of_nil in Hin.
        destruct Hin as [[= E ->] | [[= E ->] | [[= E ->] | []]]];
          [done | by eexists ..]. }
      destruct Hlang as [lang Hlang]. exists lang. split; [done |].
      rewrite Hlang, ParamFacts.get_set_eq. cbn [default from_option id].
      by eapply googleLangOf_wellFormed.
  - unfold URLSearchParams.getOrEmpty.
    unfold paramGl. case_decide as Hauto.
    + by rewrite ParamFacts.get_delete_eq.
    + pose proof (validValue_cases _ _ _ (Hvalid Region) Hauto) as Hcat.
      cbn [getFilter inCatalog] in Hcat.
      apply hasOwn_Some in Hcat as [d Hd].
      assert (Hreg : exists reg, googleRegionOf (region cf) = Some reg).
      { unfold googleRegionOf, getProperty. rewrite Hd.
        pose proof (ownProperty_elem_of _ _ _ Hd) as Hin.
        unfold filters.region in Hin.
        rewrite !elem_of_cons, elem_of_nil in Hin.
        destruct Hin as [[= E ->] | [[= E ->] | [[= E ->] | []]]];
          [done | by eexists ..]. }
      destruct Hreg as [reg Hreg]. exists reg. split; [done |].
      rewrite Hreg, ParamFacts.get_set_eq. cbn [default from_option id].
      by eapply googleRegionOf_wellFormed.
Qed.

(** The parse of the address that [applyFilters] wrote, category by
    category: what was applied where a value was applied, what was there
    before the parse where the neutral value was. *)
Lemma syncFiltersFromURL_applied utcOffset w today target w' t :
  (forall day, - JsDate.msPerDay <= utcOffset day <= JsDate.msPerDay)%Z ->
  (1002 <= JsDate.getFullYear today <= 9999)%Z ->
  validState (filtersSite w) (currentFilters w) = true ->
  applyFilters w today = Some target ->
  href (location w') = target ->
  isSearchPage w' = true ->
  t <> Site ->
  getFilter (currentFilters (syncFiltersFromURL utcOffset w')) t
  = if decide (getFilter (currentFilters w) t = defaultValue t)
    then getFilter (currentFilters w') t
    else getFilter (currentFilters w) t.
Proof.
  intros Hoff Hy Hvalid Happly Hhref Hpage Ht.
  destruct (applyFilters_params w today target Hvalid Happly)
    as (_ & Hlr & Htbs & Hhl & Hgl).
  rewrite validState_forall in Hvalid.
  rewrite syncFiltersFromURL_getFilter, Hpage, Hhref.
  destruct t; [| | | done |]; cbn [getFilter defaultValue] in *.
  - rewrite Hlr.
    destruct (decide (searchLang (currentFilters w) = js "all"))
      as [Hall | Hall]; [reflexivity |].
    apply (syncSearchLang_written _ (currentFilters w')); [done |].
    apply (validValue_cases _ _ _ (Hvalid SearchLang) Hall).
  - destruct (decide (interfaceLang (currentFilters w) = js "auto"))
      as [Hauto | Hauto].
    + rewrite Hhl. reflexivity.
    + destruct Hhl as (lang & Hlang & ->).
      by apply (syncInterfaceLang_written _ lang (currentFilters w')).
  - destruct (decide (region (currentFilters w) = js "auto"))
      as [Hauto | Hauto].
    + rewrite Hgl. reflexivity.
    + destruct Hgl as (reg & Hreg & ->).
      by apply (syncRegion_written _ reg (currentFilters w')).
  - destruct (decide (time (currentFilters w) = js "all")) as [Hall | Hall].
    + rewrite Htbs. reflexivity.
    + destruct Htbs as (timeParam & Hparam & ->).
      by apply (syncTime_written utcOffset today _ timeParam
                  (currentFilters w')).
Qed.

(** X17.  The selection that [applyFilters] writes into the address is the
    one the inbound parse reads from it: on the results page that the
    navigation reaches, whatever is selected there before the parse, every
    category other than the site that was not at its neutral value in the
    state applied has the same value after the parse, and every such
    category that was at its neutral value is left as it is.  (The state is
    valid, the day is one of the years 1002 to 9999, and the offsets of
    the time zone stay within a day of UTC.) *)
Theorem applyFilters_read_back utcOffset w today target w' :
  (forall day, - JsDate.msPerDay <= utcOffset day <= JsDate.msPerDay)%Z ->
  (1002 <= JsDate.getFullYear today <= 9999)%Z ->
  validState (filtersSite w) (currentFilters w) = true ->
  applyFilters w today = Some target ->
  href (location w') = target ->
  isSearchPage w' = true ->
  forall t, t <> Site ->
    (getFilter (currentFilters w) t <> defaultValue t ->
     getFilter (currentFilters (syncFiltersFromURL utcOffset w')) t
     = getFilter (currentFilters w) t)
    /\ (getFilter (currentFilters w) t = defaultValue t ->
        getFilter (currentFilters (syncFiltersFromURL utcOffset w')) t
        = getFilter (currentFilters w') t).
Proof.
  intros Hoff Hy Hvalid Happly Hhref Hpage t Ht.
  rewrite (syncFiltersFromURL_applied utcOffset w today target w' t) by done.
  split; intros Hsel.
  - by rewrite decide_False.
  - by rewrite decide_True.
Qed.

Lemma applyFilters_read_back_witness :
  let w := Sample.world filters.site Sample.allOn
             (setFilter (setFilter Sample.neutral Time (js "2year"))
                SearchLang (js "tr"))
             Sample.resultsPage in
  let target := default (href (location w)) (applyFilters w 20395) in
  let w' := navigated (withCurrentFilters w Sample.neutral) target
              (js "?q=foo&lr=lang_tr") in
  getFilter (currentFilters (syncFiltersFromURL Sample.shifting w')) Time
  = js "2year".
Proof.
  intros w target w'.
  apply (applyFilters_read_back Sample.shifting w 20395 target w').
  - intros day. unfold Sample.shifting, JsDate.msPerDay.
    destruct (day mod 7 <? 2)%Z; lia.
  - vm_compute. split; discriminate.
  - vm_compute. reflexivity.
  - vm_compute. reflexivity.
  - reflexivity.
  - vm_compute. reflexivity.
  - discriminate.
  - vm_compute. discriminate.
Defined.

(** ** The query without site operators *)

Module QueryFacts.

Lemma takeWhile_drop (f : jschar -> bool) l :
  match drop (length (takeWhile f l)) l with
  | [] => True
  | x :: _ => f x = false
  end.
Proof.
  induction l as [| x l IH]; [done |]. cbn [takeWhile].
  destruct (f x) eqn:Hx; [exact IH | done].
Qed.

(** White space, or nothing, follows a match of the operator pattern. *)
Lemma matchSiteOperator_after s n :
  matchSiteOperator s = Some n -> startsBlank (drop n s).
Proof.
  unfold matchSiteOperator.
  remember (takeWhile Str.isWhiteSpace s) as ws eqn:Hws.
  remember (drop (length ws) s) as rest eqn:Hrest.
  destruct (Str.startsWith rest (js "site:")); [| done].
  remember (takeWhile (fun c => negb (Str.isWhiteSpace c)) (drop 5 rest))
    as operand eqn:Hop.
  pose proof (takeWhile_drop (fun c => negb (Str.isWhiteSpace c)) (drop 5 rest))
    as H.
  rewrite <- Hop in H.
  destruct operand as [| o operand']; [done |].
  intros [= <-].
  assert (E : drop (length ws + 5 + length (o :: operand')) s
              = drop (length (o :: operand')) (drop 5 rest))
    by (rewrite Hrest, !drop_drop; f_equal; lia).
  cbn [length] in E, H |- *. unfold startsBlank. rewrite E.
  destruct (drop (S (length operand')) (drop 5 rest)); [exact I |].
  by apply negb_false_iff in H.
Qed.

Lemma matchSiteOperator_here c s :
  Str.isWhiteSpace c = false ->
  exists k, matchSiteOperator (js "site:" ++ c :: s) = Some (S k).
Proof.
  intros Hc. unfold matchSiteOperator.
  change (takeWhile Str.isWhiteSpace (js "site:" ++ c :: s)) with (@nil N).
  change (drop (length (@nil N)) (js "site:" ++ c :: s))
    with (js "site:" ++ c :: s).
  rewrite StrFacts.startsWith_app.
  change (drop 5 (js "site:" ++ c :: s)) with (c :: s).
  cbn [takeWhile]. rewrite Hc. cbn [negb]. by eexists.
Qed.

Lemma removeSiteOperators_skip k s :
  removeSiteOperators k s = removeSiteOperators 0 (drop k s).
Proof.
  revert s. induction k as [| k IH]; intros s; [done |].
  destruct s as [| c s]; [done |]. cbn [removeSiteOperators drop]. apply IH.
Qed.

(** One step of the removal at the start of [c :: s]: a match is dropped
    whole, or [c] is kept. *)
Lemma removeSiteOperators_step c s :
  (exists k, removeSiteOperators 0 (c :: s)
             = removeSiteOperators 0 (drop k s)
             /\ startsBlank (drop k s))
  \/ ((forall k, matchSiteOperator (c :: s) <> Some (S k))
      /\ removeSiteOperators 0 (c :: s) = c :: removeSiteOperators 0 s).
Proof.
  cbn [removeSiteOperators].
  destruct (matchSiteOperator (c :: s)) as [[| k] |] eqn:Hm.
  - right. by split.
  - left. exists k. split; [apply removeSiteOperators_skip |].
    by apply matchSiteOperator_after in Hm.
  - right. by split.
Qed.

Lemma removeSiteOperators_startsBlank s :
  startsBlank s -> startsBlank (removeSiteOperators 0 s).
Proof.
  remember (length s) as n eqn:Hn. revert s Hn.
  induction (lt_wf n) as [n _ IH]. intros s -> Hs.
  destruct s as [| c s]; [done |].
  destruct (removeSiteOperators_step c s) as [(k & -> & Hk) | [_ ->]];
    [| exact Hs].
  apply (IH (length (drop k s))); [| done | done].
  rewrite length_drop. cbn [length]. lia.
Qed.

(** A run of visible characters at the start of the result stood at the
    start of the input. *)
Lemma removeSiteOperators_visible u o s :
  forallb (fun c => negb (Str.isWhiteSpace c)) u = true ->
  removeSiteOperators 0 s = u ++ o ->
  exists s', s = u ++ s' /\ removeSiteOperators 0 s' = o.
Proof.
  revert s. induction u as [| y u IH]; intros s Hu Hs; [by exists s |].
  cbn [forallb] in Hu. apply andb_true_iff in Hu as [Hy Hu].
  apply negb_true_iff in Hy.
  destruct s as [| c s]; [done |].
  destruct (removeSiteOperators_step c s) as [(k & E & Hk) | [_ E]];
    rewrite E in Hs.
  - apply removeSiteOperators_startsBlank in Hk. rewrite Hs in Hk.
    cbn in Hk. congruence.
  - cbn [app] in Hs. injection Hs as -> Hs.
    destruct (IH s Hu Hs) as (s' & -> & Hs'). by exists s'.
Qed.

Lemma removeSiteOperators_noSiteOperator s :
  noSiteOperator (removeSiteOperators 0 s).
Proof.
  remember (length s) as n eqn:Hn. revert s Hn.
  induction (lt_wf n) as [n _ IH]. intros s ->.
  destruct s as [| x s]; [intros [| ? ?] ? ? [=] |].
  destruct (removeSiteOperators_step x s) as [(k & -> & Hk) | [Hno E]].
  { apply (IH (length (drop k s))); [| done].
    rewrite length_drop. cbn [length]. lia. }
  rewrite E. intros a c b Ho.
  destruct a as [| a0 a].
  - destruct (Str.isWhiteSpace c) eqn:Hc; [done |]. exfalso.
    assert (Hx : x = 115%N) by (by injection Ho).
    assert (Ho' : removeSiteOperators 0 s = (js "ite:" ++ [c]) ++ b)
      by (injection Ho as _ Ho; exact Ho).
    apply removeSiteOperators_visible in Ho' as (s' & -> & _).
    2: { rewrite forallb_app. cbn [forallb]. by rewrite Hc. }
    destruct (matchSiteOperator_here c s' Hc) as [k Hk].
    apply (Hno k). rewrite <- Hk, Hx. by rewrite <- app_assoc.
  - cbn [app] in Ho. injection Ho as _ Ho.
    apply (IH (length s) ltac:(cbn [length]; lia) s eq_refl a c b Ho).
Qed.

(** Collapsing white space keeps runs of visible characters together. *)
Lemma collapseWhiteSpace_visible u o s :
  forallb (fun c => negb (Str.isWhiteSpace c)) u = true ->
  collapseWhiteSpace false s = u ++ o ->
  exists s', s = u ++ s'.
Proof.
  revert s. induction u as [| y u IH]; intros s Hu Hs; [by exists s |].
  cbn [forallb] in Hu. apply andb_true_iff in Hu as [Hy Hu].
  apply negb_true_iff in Hy.
  destruct s as [| c s]; [done |]. cbn [collapseWhiteSpace] in Hs.
  destruct (Str.isWhiteSpace c) eqn:Hc.
  - cbn [app] in Hs. injection Hs as <- _. done.
  - cbn [app] in Hs. injection Hs as -> Hs.
    destruct (IH s Hu Hs) as (s' & ->). by exists s'.
Qed.

Lemma noSiteOperator_suffix a s :
  noSiteOperator (a ++ s) -> noSiteOperator s.
Proof.
  intros H a' c b E. apply (H (a ++ a') c b). by rewrite E, app_assoc.
Qed.

Lemma collapseWhiteSpace_noSiteOperator inRun s :
  noSiteOperator s -> noSiteOperator (collapseWhiteSpace inRun s).
Proof.
  revert inRun. induction s as [| x s IH]; intros inRun Hs;
    [intros [| ? ?] ? ? [=] |].
  pose proof (noSiteOperator_suffix [x] s Hs) as Hs'.
  cbn [collapseWhiteSpace]. destruct (Str.isWhiteSpace x) eqn:Hx.
  - destruct inRun; [by apply IH |].
    intros [| a0 a] c b Ho; [done |].
    cbn [app] in Ho. injection Ho as _ Ho. by apply (IH true Hs' a c b).
  - intros [| a0 a] c b Ho.
    + destruct (Str.isWhiteSpace c) eqn:Hc; [done |].
      assert (Hx' : x = 115%N) by (by injection Ho).
      assert (Ho' : collapseWhiteSpace false s = (js "ite:" ++ [c]) ++ b)
        by (injection Ho as _ Ho; exact Ho).
      apply collapseWhiteSpace_visible in Ho' as (s' & ->).
      2: { rewrite forallb_app. cbn [forallb]. by rewrite Hc. }
      rewrite <- Hc. apply (Hs [] c s'). rewrite Hx'. by rewrite <- app_assoc.
    + cbn [app] in Ho. injection Ho as _ Ho. by apply (IH false Hs' a c b).
Qed.

Lemma trimStart_suffix s : exists a, s = a ++ Str.trimStart s.
Proof. destruct (trimStart_split s) as (a & H & _). by exists a. Qed.

Lemma trim_infix s : exists a b, s = a ++ Str.trim s ++ b.
Proof.
  unfold Str.trim, Str.trimEnd.
  destruct (trimStart_suffix (rev s)) as (b & Hb).
  destruct (trimStart_suffix (rev (Str.trimStart (rev s)))) as (a & Ha).
  exists a, (rev b). rewrite app_assoc, <- Ha, <- rev_app_distr, <- Hb.
  by rewrite rev_involutive.
Qed.

Lemma trim_noSiteOperator s : noSiteOperator s -> noSiteOperator (Str.trim s).
Proof.
  intros Hs a c b E. destruct (trim_infix s) as (a1 & a2 & Hinfix).
  apply (Hs (a1 ++ a) c (b ++ a2)).
  rewrite Hinfix at 1. rewrite E. by rewrite <- !app_assoc.
Qed.

(** *** A cleaned query is left as it is *)

Lemma takeWhile_prefix (f : jschar -> bool) l :
  l = takeWhile f l ++ drop (length (takeWhile f l)) l.
Proof.
  induction l as [| x l IH]; [done |]. cbn [takeWhile].
  destruct (f x); [| done]. cbn [length drop app]. by rewrite <- IH.
Qed.

Lemma startsWith_prefix s p :
  Str.startsWith s p = true -> s = p ++ drop (length p) s.
Proof.
  revert s. induction p as [| a p IH]; intros s; [done |].
  destruct s as [| b s]; [done |]. cbn [Str.startsWith].
  intros [Hab Hs]%andb_true_iff. apply N.eqb_eq in Hab. subst b.
  cbn [length drop app]. by rewrite <- IH.
Qed.

(** A match of the operator pattern shows a site operator. *)
Lemma matchSiteOperator_shows s n :
  matchSiteOperator s = Some n ->
  exists a c b, s = a ++ js "site:" ++ c :: b /\ Str.isWhiteSpace c = false.
Proof.
  unfold matchSiteOperator.
  remember (takeWhile Str.isWhiteSpace s) as ws eqn:Hws.
  remember (drop (length ws) s) as rest eqn:Hrest.
  destruct (Str.startsWith rest (js "site:")) eqn:Hstart; [| done].
  apply startsWith_prefix in Hstart.
  change (length (js "site:")) with 5%nat in Hstart.
  destruct (drop 5 rest) as [| c b] eqn:Hdrop; [done |].
  cbn [takeWhile]. destruct (Str.isWhiteSpace c) eqn:Hc; [done |].
  intros _. exists ws, c, b. split; [| done].
  rewrite <- Hstart, Hrest, Hws. apply takeWhile_prefix.
Qed.

Lemma removeSiteOperators_fixed o :
  noSiteOperator o -> removeSiteOperators 0 o = o.
Proof.
  induction o as [| x o IH]; [done |]. intros Ho.
  cbn [removeSiteOperators].
  destruct (matchSiteOperator (x :: o)) as [n |] eqn:Hm.
  - apply matchSiteOperator_shows in Hm as (a & c & b & E & Hc).
    rewrite (Ho a c b E) in Hc. discriminate Hc.
  - f_equal. apply IH. by apply (noSiteOperator_suffix [x]).
Qed.

Lemma collapseWhiteSpace_idemp inRun s :
  collapseWhiteSpace inRun (collapseWhiteSpace inRun s)
  = collapseWhiteSpace inRun s.
Proof.
  revert inRun. induction s as [| x s IH]; intros inRun; [done |].
  cbn [collapseWhiteSpace]. destruct (Str.isWhiteSpace x) eqn:Hx.
  - destruct inRun; [apply IH |].
    cbn [collapseWhiteSpace].
    change (Str.isWhiteSpace 32) with true. cbv iota. by rewrite IH.
  - cbn [collapseWhiteSpace]. rewrite Hx. by rewrite IH.
Qed.

(** In front of a visible character the state of the run does not
    matter. *)
Lemma collapseWhiteSpace_visible_start inRun s :
  match s with [] => True | x :: _ => Str.isWhiteSpace x = false end ->
  collapseWhiteSpace inRun s = collapseWhiteSpace false s.
Proof.
  destruct s as [| x s]; [done |]. cbn [collapseWhiteSpace]. by intros ->.
Qed.

Lemma collapseWhiteSpace_app inRun a s :
  exists inRun',
    collapseWhiteSpace inRun (a ++ s)
    = collapseWhiteSpace inRun a ++ collapseWhiteSpace inRun' s.
Proof.
  revert inRun. induction a as [| x a IH]; intros inRun;
    [by exists inRun |].
  cbn [app collapseWhiteSpace]. destruct (Str.isWhiteSpace x).
  - destruct inRun.
    + apply IH.
    + destruct (IH true) as [r ->]. by exists r.
  - destruct (IH false) as [r ->]. by exists r.
Qed.

Lemma collapseWhiteSpace_length inRun s :
  (length (collapseWhiteSpace inRun s) <= length s)%nat.
Proof.
  revert inRun. induction s as [| x s IH]; intros inRun; [done |].
  cbn [collapseWhiteSpace].
  pose proof (IH true). pose proof (IH false).
  destruct (Str.isWhiteSpace x); [destruct inRun |]; cbn [length]; lia.
Qed.

Lemma collapseWhiteSpace_parts a u :
  collapseWhiteSpace false (a ++ u) = a ++ u ->
  collapseWhiteSpace false a = a
  /\ exists inRun, collapseWhiteSpace inRun u = u.
Proof.
  intros H. destruct (collapseWhiteSpace_app false a u) as [r Hr].
  rewrite Hr in H.
  pose proof (collapseWhiteSpace_length false a) as La.
  pose proof (collapseWhiteSpace_length r u) as Lu.
  pose proof (f_equal length H) as Hlen. rewrite !length_app in Hlen.
  apply app_inj_1 in H as [Ea Eu]; [| lia]. split; [done |]. by exists r.
Qed.

Lemma trimStart_head v :
  match Str.trimStart v with
  | [] => True
  | x :: _ => Str.isWhiteSpace x = false
  end.
Proof.
  induction v as [| x v IH]; [done |]. cbn [Str.trimStart].
  by destruct (Str.isWhiteSpace x) eqn:Hx.
Qed.

Lemma trimEnd_prefix t : exists b, t = Str.trimEnd t ++ b.
Proof.
  unfold Str.trimEnd. destruct (trimStart_suffix (rev t)) as (a & Ha).
  exists (rev a). by rewrite <- rev_app_distr, <- Ha, rev_involutive.
Qed.

Lemma trimStart_visible_head u :
  match u with [] => True | x :: _ => Str.isWhiteSpace x = false end ->
  Str.trimStart u = u.
Proof. destruct u as [| x u]; [done |]. cbn [Str.trimStart]. by intros ->. Qed.

(** What [trim] returns has no white space at either end. *)
Lemma trim_idemp s : Str.trim (Str.trim s) = Str.trim s.
Proof.
  set (u := Str.trim s).
  assert (Hstart : Str.trimStart u = u).
  { apply trimStart_visible_head. apply trimStart_head. }
  assert (Hend : Str.trimEnd u = u).
  { unfold Str.trimEnd.
    rewrite trimStart_visible_head; [apply rev_involutive |].
    destruct (trimStart_suffix (Str.trimEnd s)) as (a & Ha). fold u in Ha.
    unfold Str.trimEnd in Ha at 1.
    apply (f_equal (@rev _)) in Ha.
    rewrite rev_involutive, rev_app_distr in Ha.
    pose proof (trimStart_head (rev s)) as Hhead. rewrite Ha in Hhead.
    change (Str.trimStart (Str.trimEnd s)) with u in Hhead.
    destruct (rev u) as [| x r]; [done |]. exact Hhead. }
  unfold Str.trim at 1. by rewrite Hend, Hstart.
Qed.

Lemma trim_collapsed t :
  collapseWhiteSpace false t = t ->
  collapseWhiteSpace false (Str.trim t) = Str.trim t.
Proof.
  intros Ht. destruct (trimEnd_prefix t) as (b & Hb).
  rewrite Hb in Ht. apply collapseWhiteSpace_parts in Ht as [Hend _].
  destruct (trimStart_suffix (Str.trimEnd t)) as (a & Ha).
  rewrite Ha in Hend. apply collapseWhiteSpace_parts in Hend as [_ [r Hr]].
  unfold Str.trim.
  rewrite <- (collapseWhiteSpace_visible_start r); [done |].
  apply trimStart_head.
Qed.

Lemma cleanQuery_fixed o :
  noSiteOperator o -> collapseWhiteSpace false o = o -> Str.trim o = o ->
  cleanQuery o = o.
Proof.
  intros H1 H2 H3. unfold cleanQuery.
  by rewrite removeSiteOperators_fixed, H2, H3.
Qed.

End QueryFacts.

(** X18.  The query that [applyFilters] keeps has no site operator left:
    wherever [site:] still occurs in [cleanQuery q], white space follows
    or the query ends, whatever [q] is.  Cleaning it again changes
    nothing. *)
Theorem cleanQuery_noSiteOperator q :
  noSiteOperator (cleanQuery q)
  /\ cleanQuery (cleanQuery q) = cleanQuery q.
Proof.
  assert (Hbare : noSiteOperator (cleanQuery q)).
  { unfold cleanQuery.
    apply QueryFacts.trim_noSiteOperator,
      QueryFacts.collapseWhiteSpace_noSiteOperator,
      QueryFacts.removeSiteOperators_noSiteOperator. }
  split; [exact Hbare |].
  apply QueryFacts.cleanQuery_fixed; [exact Hbare | |].
  - unfold cleanQuery. apply QueryFacts.trim_collapsed,
      QueryFacts.collapseWhiteSpace_idemp.
  - unfold cleanQuery. apply QueryFacts.trim_idemp.
Qed.

(** ** No second navigation *)







(** ** Toasts *)

(** X20.  A message that has just been shown is not shown again within a
    second: a repetition (the same text up to white space at the ends)
    less than 1000 ms after the toast is dropped and leaves [toastState]
    as it is, so the second is counted from the toast that was shown, not
    from the repetitions dropped since; from 1000 ms on it is shown
    again. *)
Theorem showToast_repeated ts now message ts1 shown :
  Toasts.showToast ts now message = (ts1, Some shown) ->
  shown = sanitizeHTML (Str.trim message)
  /\ forall message' later,
       Str.trim message' = Str.trim message ->
       ((later - now < 1000)%Z ->
        Toasts.showToast ts1 later message' = (ts1, None))
       /\ ((1000 <= later - now)%Z ->
           Toasts.showToast ts1 later message'
           = ({| lastMessage := Some shown; lastTimestamp := later |},
              Some shown)).
Proof.
  unfold Toasts.showToast at 1.
  destruct (isValidNonEmptyString message) eqn:Hvalid; cbn [negb]; [| done].
  destruct (_ && _); [done |].
  intros [= <- <-]. split; [done |].
  intros message' later Htrim.
  assert (Hvalid' : isValidNonEmptyString message' = true)
    by (unfold isValidNonEmptyString in *; by rewrite Htrim).
  unfold Toasts.showToast. rewrite Hvalid', Htrim. cbn [negb lastMessage lastTimestamp].
  rewrite bool_decide_eq_true_2 by done. cbn [andb].
  split; intros Hlater.
  - by rewrite (proj2 (Z.ltb_lt _ _) Hlater).
  - by rewrite (proj2 (Z.ltb_ge _ _) Hlater).
Qed.

Lemma showToast_repeated_witness :
  Toasts.showToast
    {| lastMessage := Some (js "Site Filter cleared");
       lastTimestamp := 5000%Z |}
    5600%Z (js " Site Filter cleared ")
  = ({| lastMessage := Some (js "Site Filter cleared");
        lastTimestamp := 5000%Z |}, None).
Proof.
  apply (proj1 (proj2 (showToast_repeated Toasts.initial 5000%Z
                         (js "Site Filter cleared") _
                         (js "Site Filter cleared") eq_refl)
                  (js " Site Filter cleared ") 5600%Z
                  ltac:(vm_compute; reflexivity))).
  vm_compute. reflexivity.
Defined.

(** ** Escaping of names *)

Lemma escapeChar_plain c :
  forall x, In x (escapeChar c) -> x <> 60%N /\ x <> 62%N /\ x <> 160%N.
Proof.
  intros x. unfold escapeChar.
  destruct (c =? 38)%N eqn:H1; [| destruct (c =? 60)%N eqn:H2;
    [| destruct (c =? 62)%N eqn:H3; [| destruct (c =? 160)%N eqn:H4]]].
  1-4: cbn; intros H;
    repeat (destruct H as [<- | H]; [repeat split; discriminate |]); done.
  intros [<- | []]. apply N.eqb_neq in H2, H3, H4. done.
Qed.

Lemma escapeChar_fixed c :
  ~ In c [38; 60; 62; 160]%N -> escapeChar c = [c].
Proof.
  intros H. unfold escapeChar.
  destruct (c =? 38)%N eqn:H1;
    [apply N.eqb_eq in H1; subst; exfalso; apply H; cbn; tauto |].
  destruct (c =? 60)%N eqn:H2;
    [apply N.eqb_eq in H2; subst; exfalso; apply H; cbn; tauto |].
  destruct (c =? 62)%N eqn:H3;
    [apply N.eqb_eq in H3; subst; exfalso; apply H; cbn; tauto |].
  destruct (c =? 160)%N eqn:H4;
    [apply N.eqb_eq in H4; subst; exfalso; apply H; cbn; tauto |].
  done.
Qed.

Lemma flat_map_escapeChar_fixed s :
  (forall c, In c s -> ~ In c [38; 60; 62; 160]%N) ->
  flat_map escapeChar s = s.
Proof.
  induction s as [| x s IH]; [done |]. intros H. cbn [flat_map].
  rewrite escapeChar_fixed by (apply H; by left).
  cbn [app]. f_equal. apply IH. intros c Hc. apply H. by right.
Qed.

(** X21.  What [sanitizeHTML] returns contains no [<], no [>] and no
    U+00A0.  It returns its argument unchanged exactly when the argument
    is empty, or is not blank and contains none of [&], [<], [>] and
    U+00A0: these are the names that [addCustomSite] does not refuse for
    their characters. *)
Theorem sanitizeHTML_plain s :
  (forall x, In x (sanitizeHTML s) -> x <> 60%N /\ x <> 62%N /\ x <> 160%N)
  /\ (sanitizeHTML s = s
      <-> s = []
          \/ (isValidNonEmptyString s = true
              /\ forall c, In c s -> ~ In c [38; 60; 62; 160]%N)).
Proof.
  split.
  - intros x. unfold sanitizeHTML.
    destruct (isValidNonEmptyString s); [| done].
    intros (c & _ & Hx)%in_flat_map. by apply (escapeChar_plain c).
  - split.
    + intros Heq. destruct s as [| x s]; [by left | right].
      destruct (isValidNonEmptyString (x :: s)) eqn:Hv.
      * split; [done |]. intros c Hc Hm.
        apply (sanitizeHTML_markup (x :: s) c Hc Hm Heq).
      * unfold sanitizeHTML in Heq. by rewrite Hv in Heq.
    + intros [-> | [Hv Hs]]; [done |].
      unfold sanitizeHTML. rewrite Hv. by apply flat_map_escapeChar_fixed.
Qed.

(** ** Parameters that the engine leaves alone *)

Lemma otherParams_delete ps n :
  n ∈ engineParams ->
  otherParams (URLSearchParams.delete ps n) = otherParams ps.
Proof.
  intros Hn. unfold otherParams, URLSearchParams.delete.
  induction ps as [| [k v] ps IH]; [done |]. cbn [List.filter fst].
  destruct (decide (k = n)) as [-> | Hk].
  - rewrite bool_decide_eq_true_2 by done. cbn [negb].
    rewrite (bool_decide_eq_true_2 (n ∈ engineParams)) by done.
    cbn [negb]. exact IH.
  - rewrite (bool_decide_eq_false_2 (k = n)) by done. cbn [negb].
    cbn [List.filter fst]. by rewrite IH.
Qed.

Lemma otherParams_setPair ps n v :
  n ∈ engineParams ->
  otherParams (URLSearchParams.setPair ps n v) = otherParams ps.
Proof.
  intros Hn.
  induction ps as [| [k x] ps IH]; cbn [URLSearchParams.setPair].
  - unfold otherParams. cbn [List.filter fst].
    by rewrite bool_decide_eq_true_2.
  - destruct (decide (k = n)) as [-> | Hk].
    + unfold otherParams. cbn [List.filter fst].
      rewrite bool_decide_eq_true_2 by done. cbn [negb].
      by apply otherParams_delete.
    + unfold otherParams in *. cbn [List.filter fst]. by rewrite IH.
Qed.

Lemma otherParams_set ps n v :
  n ∈ engineParams ->
  otherParams (URLSearchParams.set ps n v) = otherParams ps.
Proof. apply otherParams_setPair. Qed.

Lemma otherParams_paramLr cf ps :
  js "lr" ∈ engineParams -> otherParams (paramLr cf ps) = otherParams ps.
Proof.
  intros H. unfold paramLr. case_decide;
    [by apply otherParams_delete | by apply otherParams_set].
Qed.

Lemma otherParams_paramHl cf ps :
  js "hl" ∈ engineParams -> otherParams (paramHl cf ps) = otherParams ps.
Proof.
  intros H. unfold paramHl. case_decide; [by apply otherParams_delete |].
  destruct (googleLangOf _); [by apply otherParams_set | done].
Qed.

Lemma otherParams_paramGl cf ps :
  js "gl" ∈ engineParams -> otherParams (paramGl cf ps) = otherParams ps.
Proof.
  intros H. unfold paramGl. case_decide; [by apply otherParams_delete |].
  destruct (googleRegionOf _); [by apply otherParams_set | done].
Qed.

(** X22.  [applyFilters] touches the parameters [q], [lr], [tbs], [hl]
    and [gl] only: in the address it assigns, the pairs of every other
    parameter are those of the current address, in the same order, and
    origin, path and fragment are the same. *)
Theorem applyFilters_otherParams w today target :
  applyFilters w today = Some target ->
  otherParams (searchParams target)
  = otherParams (searchParams (href (location w)))
  /\ origin target = origin (href (location w))
  /\ pathname target = pathname (href (location w))
  /\ hash target = hash (href (location w)).
Proof.
  unfold applyFilters. cbv zeta.
  destruct (paramQ _ _ _) as [q1 |]; [| done]. cbn [mbind option_bind].
  destruct (paramTbs _ _ _) as [ps3 |] eqn:Htbs; [| done].
  cbn [mbind option_bind]. intros [= <-].
  cbn [searchParams origin pathname hash withParams].
  split; [| done].
  assert (Hq : js "q" ∈ engineParams) by (apply list_elem_of_In; cbn; tauto).
  assert (Hlr : js "lr" ∈ engineParams) by (apply list_elem_of_In; cbn; tauto).
  assert (Ht : js "tbs" ∈ engineParams) by (apply list_elem_of_In; cbn; tauto).
  assert (Hhl : js "hl" ∈ engineParams) by (apply list_elem_of_In; cbn; tauto).
  assert (Hgl : js "gl" ∈ engineParams) by (apply list_elem_of_In; cbn; tauto).
  rewrite otherParams_paramGl, otherParams_paramHl by done.
  unfold paramTbs in Htbs.
  destruct (decide (time (currentFilters w) = js "all")).
  - injection Htbs as <-.
    by rewrite otherParams_delete, otherParams_paramLr, otherParams_set.
  - destruct (timeParamOf _) as [tp |]; [| done].
    cbn [mbind option_bind] in Htbs. injection Htbs as <-.
    by rewrite otherParams_set, otherParams_paramLr, otherParams_set.
Qed.

Lemma applyFilters_otherParams_witness :
  let w := Sample.world [] Sample.allOff Sample.neutral
             (Sample.address [(js "q", js "foo"); (js "tbm", js "isch");
                              (js "lr", js "lang_tr")]
                (js "?q=foo&tbm=isch&lr=lang_tr")) in
  let target := {| origin := js "https://www.google.com";
                   pathname := js "/search";
                   searchParams := [(js "q", js "foo"); (js "tbm", js "isch")];
                   hash := [] |} in
  applyFilters w 0%Z = Some target
  /\ otherParams (searchParams target)
     = otherParams (searchParams (href (location w))).
Proof.
  intros w target. split; [reflexivity |].
  apply (applyFilters_otherParams w 0%Z target). reflexivity.
Defined.

(** ** Applying the site filter again *)

Module OperatorFacts.
Import QueryFacts.

Lemma takeWhile_forallb (f : jschar -> bool) l :
  forallb f (takeWhile f l) = true.
Proof.
  induction l as [| x l IH]; [done |]. cbn [takeWhile].
  destruct (f x) eqn:Hx; [| done]. cbn [forallb]. by rewrite Hx, IH.
Qed.

Lemma takeWhile_app (f : jschar -> bool) a y :
  forallb f a = true -> takeWhile f (a ++ y) = a ++ takeWhile f y.
Proof.
  induction a as [| x a IH]; [done |]. cbn [forallb app takeWhile].
  intros [-> Ha]%andb_true_iff. by rewrite IH.
Qed.

Lemma takeWhile_all (f : jschar -> bool) l :
  forallb f l = true -> takeWhile f l = l.
Proof.
  intros H. rewrite <- (app_nil_r l) at 1.
  rewrite takeWhile_app by done. apply app_nil_r.
Qed.

(** A match starts with white space only, then [site:] and a visible
    character. *)
Lemma matchSiteOperator_blank s n :
  matchSiteOperator s = Some n ->
  exists a c b,
    s = a ++ js "site:" ++ c :: b
    /\ Str.isWhiteSpace c = false
    /\ forallb Str.isWhiteSpace a = true.
Proof.
  unfold matchSiteOperator.
  remember (takeWhile Str.isWhiteSpace s) as ws eqn:Hws.
  remember (drop (length ws) s) as rest eqn:Hrest.
  destruct (Str.startsWith rest (js "site:")) eqn:Hstart; [| done].
  apply startsWith_prefix in Hstart.
  change (length (js "site:")) with 5%nat in Hstart.
  destruct (drop 5 rest) as [| c b] eqn:Hdrop; [done |].
  cbn [takeWhile]. destruct (Str.isWhiteSpace c) eqn:Hc; [done |].
  intros _. exists ws, c, b. split; [| split; [done |]].
  - rewrite <- Hstart, Hrest, Hws. apply takeWhile_prefix.
  - rewrite Hws. apply takeWhile_forallb.
Qed.

Lemma noBlankSuffix_suffix a o : noBlankSuffix (a ++ o) -> noBlankSuffix o.
Proof.
  intros H a' b -> Hb. apply (H (a ++ a') b); [by rewrite app_assoc | done].
Qed.

(** No match starts inside a query without operators and ends in what
    follows it after white space. *)
Lemma matchSiteOperator_boundary o t n :
  o <> [] -> noSiteOperator o -> noBlankSuffix o -> startsBlank t ->
  matchSiteOperator (o ++ t) <> Some n.
Proof.
  intros Hne Ho Hend Ht Hm.
  apply matchSiteOperator_blank in Hm as (a & c & b & E & Hc & Ha).
  change (a ++ js "site:" ++ c :: b)
    with (a ++ (js "site:" ++ [c]) ++ b) in E.
  rewrite app_assoc in E.
  apply app_eq_inv in E as [(k & E & _) | (k & E & Et)].
  - rewrite <- app_assoc in E.
    rewrite (Ho a c k E) in Hc. discriminate Hc.
  - destruct k as [| y k].
    + rewrite app_nil_r in E. symmetry in E.
      rewrite (Ho a c [] E) in Hc. discriminate Hc.
    + subst t. cbn [app startsBlank] in Ht.
      apply app_eq_inv in E as [(m & E & _) | (m & _ & E)].
      * rewrite E, forallb_app in Ha. apply andb_true_iff in Ha as [Ha _].
        by rewrite (Hend [] o eq_refl Hne) in Ha.
      * assert (Hvis : forallb (fun x => negb (Str.isWhiteSpace x))
                         (js "site:" ++ [c]) = true).
        { cbn. by rewrite Hc. }
        rewrite E, forallb_app in Hvis.
        apply andb_true_iff in Hvis as [_ Hvis]. cbn [forallb] in Hvis.
        by rewrite Ht in Hvis.
Qed.

(** The removal works on what follows such a query as if it stood alone. *)
Lemma removeSiteOperators_app o t :
  noSiteOperator o -> noBlankSuffix o -> startsBlank t ->
  removeSiteOperators 0 (o ++ t) = o ++ removeSiteOperators 0 t.
Proof.
  intros Ho Hend Ht. induction o as [| x o IH]; [done |].
  cbn [app removeSiteOperators].
  pose proof (matchSiteOperator_boundary (x :: o) t) as Hnone.
  cbn [app] in Hnone.
  assert (Htail : removeSiteOperators 0 (o ++ t)
                  = o ++ removeSiteOperators 0 t).
  { apply IH; [by apply (noSiteOperator_suffix [x])
              | by apply (noBlankSuffix_suffix [x])]. }
  destruct (matchSiteOperator (x :: o ++ t)) as [[| k] |] eqn:Hm;
    [by rewrite Htail | | by rewrite Htail].
  by destruct (Hnone (S k)).
Qed.

Lemma removeSiteOperators_match s n :
  matchSiteOperator s = Some (S n) ->
  removeSiteOperators 0 s = removeSiteOperators 0 (drop (S n) s).
Proof.
  destruct s as [| c s]; [done |]. cbn [removeSiteOperators drop].
  intros ->. apply removeSiteOperators_skip.
Qed.

(** A site operator after white space is removed whole. *)
Lemma removeSiteOperators_operator a host :
  forallb Str.isWhiteSpace a = true -> isOperand host ->
  removeSiteOperators 0 (a ++ js "site:" ++ host) = [].
Proof.
  intros Ha [Hne Hhost].
  assert (Hm : matchSiteOperator (a ++ js "site:" ++ host)
               = Some (length a + 5 + length host)%nat).
  { unfold matchSiteOperator. rewrite takeWhile_app by done.
    change (takeWhile Str.isWhiteSpace (js "site:" ++ host)) with (@nil N).
    rewrite app_nil_r, drop_app_length, StrFacts.startsWith_app.
    change (drop 5 (js "site:" ++ host)) with host.
    rewrite takeWhile_all by done. by destruct host. }
  replace (length a + 5 + length host)%nat
    with (S (length a + 4 + length host)) in Hm by lia.
  rewrite (removeSiteOperators_match _ _ Hm).
  rewrite drop_ge; [done |].
  rewrite !length_app. change (length (js "site:")) with 5%nat. lia.
Qed.

Lemma trimEnd_operand s host :
  isOperand host -> Str.trimEnd (s ++ host) = s ++ host.
Proof.
  intros [Hne Hhost]. unfold Str.trimEnd. rewrite rev_app_distr.
  rewrite <- forallb_rev in Hhost.
  destruct (rev host) as [| x r] eqn:E.
  - apply (f_equal (@rev _)) in E. rewrite rev_involutive in E. done.
  - cbn [forallb] in Hhost. apply andb_true_iff in Hhost as [Hx _].
    apply negb_true_iff in Hx. cbn [app Str.trimStart]. rewrite Hx.
    change (x :: r ++ rev s) with ((x :: r) ++ rev s).
    by rewrite <- E, <- rev_app_distr, rev_involutive.
Qed.

Lemma trimStart_shorter s : (length (Str.trimStart s) <= length s)%nat.
Proof.
  destruct (trimStart_suffix s) as (a & Ha).
  rewrite Ha at 2. rewrite length_app. lia.
Qed.

Lemma trimEnd_fixed u : Str.trim u = u -> Str.trimEnd u = u.
Proof.
  intros H. destruct (trimEnd_prefix u) as (b & Hb).
  pose proof (trimStart_shorter (Str.trimEnd u)) as Hlen.
  fold (Str.trim u) in Hlen. rewrite H in Hlen.
  apply (f_equal length) in Hb as Hb'. rewrite length_app in Hb'.
  destruct b as [| y b]; [by rewrite app_nil_r in Hb |].
  cbn [length] in Hb'. lia.
Qed.

Lemma trimStart_blank_app a s :
  forallb Str.isWhiteSpace a = true ->
  Str.trimStart (a ++ s) = Str.trimStart s.
Proof.
  induction a as [| x a IH]; [done |]. cbn [forallb app Str.trimStart].
  intros [-> Ha]%andb_true_iff. by apply IH.
Qed.

Lemma trimEnd_noBlankSuffix o : Str.trimEnd o = o -> noBlankSuffix o.
Proof.
  intros H a b -> Hb.
  destruct (forallb Str.isWhiteSpace b) eqn:Hall; [exfalso | done].
  unfold Str.trimEnd in H. rewrite rev_app_distr in H.
  rewrite trimStart_blank_app in H by by rewrite forallb_rev.
  apply (f_equal length) in H.
  rewrite length_rev, length_app in H.
  pose proof (trimStart_shorter (rev a)) as Hlen. rewrite length_rev in Hlen.
  destruct b; [done |]. cbn [length] in H. lia.
Qed.

Lemma trim_head u :
  Str.trim u = u ->
  match u with [] => True | x :: _ => Str.isWhiteSpace x = false end.
Proof. intros H. rewrite <- H. apply trimStart_head. Qed.

(** The query of [applyFilters] for a site operator, cleaned again, is
    the clean query it was built from. *)
Lemma cleanQuery_operator o host :
  noSiteOperator o -> collapseWhiteSpace false o = o -> Str.trim o = o ->
  isOperand host ->
  cleanQuery (Str.trim (o ++ js " " ++ js "site:" ++ host)) = o.
Proof.
  intros Ho Hcol Htrim Hhost.
  assert (Hq1 : Str.trim (o ++ js " " ++ js "site:" ++ host)
                = o ++ (if decide (o = []) then [] else js " ")
                    ++ js "site:" ++ host).
  { unfold Str.trim.
    replace (o ++ js " " ++ js "site:" ++ host)
      with ((o ++ js " " ++ js "site:") ++ host)
      by by rewrite <- !app_assoc.
    rewrite trimEnd_operand by done. rewrite <- !app_assoc.
    destruct o as [| x o]; [done |].
    rewrite decide_False by done.
    apply trimStart_visible_head. apply (trim_head _ Htrim). }
  rewrite Hq1. unfold cleanQuery.
  destruct (decide (o = [])) as [-> | Hne].
  - pose proof (removeSiteOperators_operator [] host eq_refl Hhost) as H.
    cbn [app] in H |- *. by rewrite H.
  - rewrite removeSiteOperators_app;
      [| done | by apply trimEnd_noBlankSuffix, trimEnd_fixed | done].
    pose proof (removeSiteOperators_operator (js " ") host eq_refl Hhost)
      as H.
    rewrite H. by rewrite app_nil_r, Hcol.
Qed.

End OperatorFacts.

(** X23.  Applying the site filter to a query it has already been applied
    to does not add a second operator: where the fragment of the selected
    site is [site:] and an operand without white space, as for the sites
    [addCustomSite] makes, or no site is selected, the query that
    [applyFilters] computes from its own result is that result. *)
Theorem paramQ_stable sites cf q q1 :
  (site cf <> js "all" ->
   exists host, siteQueryText sites (site cf) = Some (js "site:" ++ host)
                /\ isOperand host) ->
  paramQ sites cf q = Some q1 ->
  paramQ sites cf q1 = Some q1.
Proof.
  intros Hfrag. unfold paramQ. cbv zeta.
  assert (Hbare : noSiteOperator (cleanQuery q)).
  { unfold cleanQuery.
    apply QueryFacts.trim_noSiteOperator,
      QueryFacts.collapseWhiteSpace_noSiteOperator,
      QueryFacts.removeSiteOperators_noSiteOperator. }
  assert (Hcol : collapseWhiteSpace false (cleanQuery q) = cleanQuery q).
  { unfold cleanQuery. apply QueryFacts.trim_collapsed,
      QueryFacts.collapseWhiteSpace_idemp. }
  assert (Htrim : Str.trim (cleanQuery q) = cleanQuery q).
  { unfold cleanQuery. apply QueryFacts.trim_idemp. }
  destruct (decide (site cf = js "all")) as [Hall | Hsite].
  - intros [= <-]. f_equal. by apply QueryFacts.cleanQuery_fixed.
  - destruct (Hfrag Hsite) as (host & -> & Hhost).
    cbn [mbind option_bind]. intros Hq.
    assert (Hq1 : q1 = Str.trim (cleanQuery q ++ js " " ++ js "site:" ++ host))
      by congruence.
    subst q1. by rewrite OperatorFacts.cleanQuery_operator.
Qed.

Lemma paramQ_stable_witness :
  let sites := [Sample.twitter] in
  let cf := setFilter Sample.neutral Site (js "twitter_com") in
  (site cf <> js "all" ->
   exists host, siteQueryText sites (site cf) = Some (js "site:" ++ host)
                /\ isOperand host)
  /\ paramQ sites cf (js "cats site:old.example  dogs")
     = Some (js "cats dogs site:twitter.com")
  /\ paramQ sites cf (js "cats dogs site:twitter.com")
     = Some (js "cats dogs site:twitter.com").
Proof.
  intros sites cf.
  assert (Hfrag : site cf <> js "all" ->
            exists host,
              siteQueryText sites (site cf) = Some (js "site:" ++ host)
              /\ isOperand host).
  { intros _. exists (js "twitter.com"). by repeat split. }
  split; [exact Hfrag |]. split; [reflexivity |].
  apply (paramQ_stable sites cf (js "cats site:old.example  dogs") _ Hfrag).
  reflexivity.
Defined.
